(** * iptv-m3u-manager: the batch health-check engine and the refresh merge

    A shallow embedding of
    - [services/stream_checker.py]: [StreamChecker.check_stream_visual] (the
      probe executor), [StreamChecker.run_batch_check] (the batch runner
      with its progress throttle and its writeback loop) and
      [check_channels_task] (the background task around it);
    - [routers/subscriptions.py]: [process_subscription_refresh] (the
      state-preserving merge of a refreshed feed), [delete_subscription],
      [update_subscription] and [get_subscription_channels];
    - [routers/tools.py]: [check_connectivity] and [check_stream_visual],
    followed by the properties of these functions.

    Conventions.  A Python [str] is the list of its code points, so that
    slicing counts what Python counts.  A [dict] read with [.get] is a record
    of optional fields (an absent key reads as [None]).  A call that may raise
    returns an [outcome]; this includes [print], which raises on a text that
    standard output cannot encode, and the calls of the storage engine, which
    raise on an integer that SQLite cannot hold.  Storage is a finite map
    from primary key to row.  The float arithmetic of the progress
    computation is binary64, modelled exactly on the rationals. *)

From Stdlib Require Import ZArith QArith Qround Qpower Lqa Lia.
From Corelib Require Import PrimFloat SpecFloat FloatOps.
From stdpp Require Import gmap strings list sorting pretty.

(* ===================================================================== *)
(** * Part I: the program *)
(* ===================================================================== *)

(** ** binary64 arithmetic, as far as [int((i / total) * 100)] needs it

    Python's [int / int] is the correctly rounded quotient, [float * float] is
    the correctly rounded product (round to nearest, ties to even, 53 bits of
    precision), and [int(float)] truncates towards zero.  The values met here
    lie far inside the normal range of binary64, so the exponent is left
    unbounded. *)
Module Float64.

(** floor of the binary logarithm of a positive rational *)
Definition ilog2 (x : Q) : Z :=
  let L := (Z.log2 (Qnum x) - Z.log2 (Z.pos (Qden x)))%Z in
  if Qle_bool (2 ^ L)%Q x then L else (L - 1)%Z.

(** nearest integer, ties to even *)
Definition round_half_even (y : Q) : Z :=
  let f := Qfloor y in
  match Qcompare (y - inject_Z f)%Q (1 # 2)%Q with
  | Lt => f
  | Gt => (f + 1)%Z
  | Eq => if Z.even f then f else (f + 1)%Z
  end.

(** nearest 53-bit float of a positive rational: the significand lies in
    [2^52, 2^53] and the unit in the last place is [2^k] *)
Definition round53_pos (x : Q) : Q :=
  let k := (ilog2 x - 52)%Z in
  Qred (inject_Z (round_half_even (x / 2 ^ k)%Q) * 2 ^ k)%Q.

Definition round53 (x : Q) : Q :=
  match Qcompare x 0%Q with
  | Eq => 0%Q
  | Gt => round53_pos x
  | Lt => (- round53_pos (- x))%Q
  end.

(** [a / b] on two Python ints *)
Definition truediv (a b : Z) : Q := round53 (inject_Z a / inject_Z b)%Q.

(** [x * y] on two floats *)
Definition fmul (x y : Q) : Q := round53 (x * y)%Q.

(** [int(x)] *)
Definition py_int (x : Q) : Z :=
  match Qcompare x 0%Q with
  | Lt => (- Qfloor (- x)%Q)%Z
  | _ => Qfloor x
  end.

(** [int((i / total) * 100)] *)
Definition percent (total i : nat) : Z :=
  py_int (fmul (truediv (Z.of_nat i) (Z.of_nat total)) 100%Q).

End Float64.

(** The same computation on the machine's binary64 numbers, to compare the
    model with: Python's float is the C double. *)
Module Machine.

Definition of_int (z : Z) : float :=
  SF2Prim (binary_normalize prec emax z 0 false).

(** the rational value of a finite float *)
Definition to_Q (f : float) : Q :=
  match Prim2SF f with
  | S754_finite s m e =>
      ((if s then (-1) else 1) * inject_Z (Z.pos m) * 2 ^ e)%Q
  | _ => 0%Q
  end.

(** [(i / total) * 100] on floats *)
Definition scaled_quotient (total i : Z) : float :=
  (of_int i / of_int total * of_int 100)%float.

(** the model and the machine agree on every index of a batch of [total] *)
Definition agree (total : Z) : bool :=
  forallb
    (fun i => Qeq_bool (to_Q (scaled_quotient total i))
                       (Float64.fmul (Float64.truediv i total) 100%Q))
    (seqZ 0 total).

End Machine.

(** ** Python values *)

(** a [str]: its code points *)
Definition pystr : Type := list N.

(** an ASCII literal as a [str] *)
Definition py (s : string) : pystr :=
  map (fun c => Ascii.N_of_ascii c) (String.list_ascii_of_string s).

(** [str(n)] for an int *)
Definition str_of_int (z : Z) : pystr := py (pretty z).

(** the exceptions the engine tells apart: [subprocess.TimeoutExpired], and
    any other [Exception] with its [str(e)] *)
Inductive exn : Type :=
| TimeoutExpired
| OtherException (msg : pystr).

(** the result of a call that may raise *)
Inductive outcome (A : Type) : Type :=
| Return (a : A)
| Raise (e : exn).
Arguments Return {A} a.
Arguments Raise {A} e.

Global Instance outcome_bind : MBind outcome := fun A B k m =>
  match m with
  | Return a => k a
  | Raise e => Raise e
  end.

(** [try: body except ... : handler] *)
Definition try_except {A : Type} (body : outcome A) (handler : exn -> outcome A)
  : outcome A :=
  match body with
  | Return a => Return a
  | Raise e => handler e
  end.

(** ** The Channel row

    Modelled from the spec: [models.Channel] is not under src/.  The fields
    are those of the spec's data model together with the ones the two
    functions read or write ([subscription_id], [group], [logo]). *)
Record Channel : Type := mkChannel {
  id : option Z;
  name : pystr;
  url : pystr;
  group : option pystr;
  logo : option pystr;
  subscription_id : option Z;
  is_enabled : bool;
  check_status : option bool;
  check_date : option Z;
  check_image : option pystr;
  check_error : option pystr;
  check_source : option pystr
}.

(** ** Standard output

    [print(text)] writes [text] to [sys.stdout], a UTF-8 text stream with
    the error handler [strict], as Python opens it on a UTF-8 locale.  UTF-8
    encodes every code point but the surrogates (U+D800 to U+DFFF), which a
    Python [str] may hold: the write raises [UnicodeEncodeError] exactly when
    the text holds one. *)
Module Stdout.

Definition surrogate (c : N) : bool := (55296 <=? c)%N && (c <=? 57343)%N.

Definition encodable (text : pystr) : bool :=
  forallb (fun c => negb (surrogate c)) text.

(** the first surrogate of a text: its position, the code point, and the
    text after it *)
Fixpoint first_surrogate (k : nat) (text : pystr) : option (nat * N * pystr) :=
  match text with
  | [] => None
  | c :: rest =>
      if surrogate c then Some (k, c, rest) else first_surrogate (S k) rest
  end.

(** the number of surrogates a text starts with *)
Fixpoint run_length (text : pystr) : nat :=
  match text with
  | c :: rest => if surrogate c then S (run_length rest) else 0
  | [] => 0
  end.

Definition hex_digit (d : N) : N :=
  if (d <? 10)%N then (48 + d)%N else (87 + d)%N.

(** [%04x] of a code point of the basic plane *)
Definition hex4 (c : N) : pystr :=
  [hex_digit ((c / 4096) mod 16); hex_digit ((c / 256) mod 16);
   hex_digit ((c / 16) mod 16); hex_digit (c mod 16)]%N.

(** [str(e)] of the [UnicodeEncodeError]: the encoder reports the first run
    of surrogates *)
Definition encode_error_text (text : pystr) : pystr :=
  match first_surrogate 0 text with
  | None => []
  | Some (start, c, rest) =>
      match run_length rest with
      | 0 =>
          py "'utf-8' codec can't encode character '\u" ++ hex4 c
          ++ py "' in position " ++ str_of_int (Z.of_nat start)
          ++ py ": surrogates not allowed"
      | S n =>
          py "'utf-8' codec can't encode characters in position "
          ++ str_of_int (Z.of_nat start) ++ py "-"
          ++ str_of_int (Z.of_nat (start + S n))
          ++ py ": surrogates not allowed"
      end
  end.

Definition UnicodeEncodeError (text : pystr) : exn :=
  OtherException (encode_error_text text).

Definition print (text : pystr) : outcome unit :=
  if encodable text then Return tt else Raise (UnicodeEncodeError text).

End Stdout.

(** ** The storage engine

    [database.py] opens the storage with SQLite.  A Python int is stored as
    an INTEGER, a signed number of 64 bits, and a [str] as UTF-8 text:
    binding an int outside the range raises [OverflowError], binding a text
    with a surrogate raises [UnicodeEncodeError]. *)
Module Sqlite.

Definition integer (i : Z) : bool := (- 2 ^ 63 <=? i)%Z && (i <? 2 ^ 63)%Z.

Definition OverflowError : exn :=
  OtherException (py "Python int too large to convert to SQLite INTEGER").

Definition bind_int (i : Z) : outcome unit :=
  if integer i then Return tt else Raise OverflowError.




(** [session.get(Model, key)]: the key is bound to the SELECT *)
Definition get {A : Type} (table : gmap Z A) (key : Z) : outcome (option A) :=
  _ ← bind_int key;
  Return (table !! key).

End Sqlite.

(** ** services/stream_checker.py *)
Module StreamChecker.
Import Stdout.

(** [subprocess.CompletedProcess]: the fields the probe reads *)
Record CompletedProcess : Type := {
  returncode : Z;
  stderr : list Byte.byte
}.

(** What the outside world does during one probe: how the call of
    [cls.get_ffmpeg_path()] ends (the path of the tool, or an exception), how
    [os.path.join(tempfile.gettempdir(), f"capture_{uuid.uuid4()}.jpg")] ends
    (the name of the temporary file, or the exception of [gettempdir] when
    there is no usable directory), how
    [subprocess.run(cmd, capture_output=True, timeout=15)] ends, and the
    content of the temporary output file afterwards ([None]: no such file). *)
Record tool_world : Type := {
  ffmpeg_exe : outcome pystr;
  temp_filename : outcome pystr;
  run_ffmpeg : outcome CompletedProcess;
  temp_file : option (list Byte.byte)
}.

(** the dict a probe returns; [image] and [error] are read with [.get] *)
Record probe_dict : Type := {
  p_url : pystr;
  p_status : bool;
  p_image : option pystr;
  p_error : option pystr
}.

(** "FFmpeg 进程崩溃 (SIGSEGV, RC={rc})。LXC 容器建议安装系统官方软件包。" *)
Definition crash_message (rc : Z) : pystr :=
  py "FFmpeg " ++ [36827; 31243; 23849; 28291]%N ++ py " (SIGSEGV, RC="
  ++ str_of_int rc ++ py ")" ++ [12290]%N ++ py "LXC "
  ++ [23481; 22120; 24314; 35758; 23433; 35013; 31995; 32479; 23448; 26041;
      36719; 20214; 21253]%N ++ [12290]%N.

(** the list [cmd] *)
Definition cmd (ffmpeg_exe url temp_filename : pystr) : list pystr :=
  [ffmpeg_exe; py "-y"; py "-hide_banner"; py "-loglevel"; py "error";
   py "-t"; py "5"; py "-user_agent"; py "AptvPlayer/1.4.1"; py "-i"; url;
   py "-an"; py "-sn"; py "-frames:v"; py "1"; py "-vf"; py "scale=320:-1";
   py "-f"; py "image2"; py "-c:v"; py "mjpeg"; temp_filename].

(** [' '.join(words)] *)
Fixpoint join_space (words : list pystr) : pystr :=
  match words with
  | [] => []
  | [w] => w
  | w :: rest => w ++ py " " ++ join_space rest
  end.

(** f"DEBUG: 执行截图命令: {' '.join(cmd)}" *)
Definition command_line (words : list pystr) : pystr :=
  py "DEBUG: " ++ [25191; 34892; 25130; 22270; 21629; 20196]%N ++ py ": "
  ++ join_space words.

(** f"DEBUG: 运行异常: {e}" *)
Definition exception_line (msg : pystr) : pystr :=
  py "DEBUG: " ++ [36816; 34892; 24322; 24120]%N ++ py ": " ++ msg.

Section Probe.

(** [bytes.decode('utf-8', errors='ignore')] and [base64.b64encode(..).decode]
    are library functions; the probe is parametric in them. *)
Variable utf8_decode_ignore : list Byte.byte -> pystr.
Variable b64encode : list Byte.byte -> pystr.

(** [os.path.exists(f) and os.path.getsize(f) > 0] *)
Definition usable_file (f : option (list Byte.byte)) : bool :=
  match f with
  | Some (_ :: _) => true
  | _ => false
  end.

(** the statements of [check_stream_visual] before its [try]: the path of the
    tool, the name of the temporary file, the command and the print of the
    command; no handler covers them *)
Definition setup (url : pystr) (w : tool_world) : outcome (list pystr) :=
  exe ← ffmpeg_exe w;
  tmp ← temp_filename w;
  _ ← print (command_line (cmd exe url tmp));
  Return (cmd exe url tmp).

(** the [try] block with its two handlers; the [finally] clause only removes
    the temporary file, and swallows what that raises.  Two prints of the
    block are not modelled, for they cannot raise once the command has been
    printed: the one of a failed run writes the URL, a number and at most
    200 code points that are a literal or were decoded from UTF-8, and the
    one of a timeout writes the URL. *)
Definition guarded (url : pystr) (w : tool_world) : outcome probe_dict :=
  try_except
    (result ← run_ffmpeg w;
     if (returncode result =? 0)%Z && usable_file (temp_file w) then
       let img_data := default [] (temp_file w) in
       let b64 := b64encode img_data in
       Return {| p_url := url; p_status := true;
                 p_image := Some (py "data:image/jpeg;base64," ++ b64);
                 p_error := None |}
     else
       let err_msg :=
         match stderr result with
         | [] => py "FFmpeg produced no image."
         | _ :: _ => utf8_decode_ignore (stderr result)
         end in
       let err_msg :=
         if (returncode result =? -11)%Z || (returncode result =? 139)%Z
         then crash_message (returncode result)
         else err_msg in
       Return {| p_url := url; p_status := false; p_image := None;
                 p_error := Some (take 100 err_msg) |})
    (fun e =>
       match e with
       | TimeoutExpired =>
           Return {| p_url := url; p_status := false; p_image := None;
                     p_error := Some (py "Detection Timeout") |}
       | OtherException msg =>
           _ ← print (exception_line msg);
           Return {| p_url := url; p_status := false; p_image := None;
                     p_error := Some msg |}
       end).

(** [StreamChecker.check_stream_visual] *)
Definition check_stream_visual (url : pystr) (w : tool_world)
  : outcome probe_dict :=
  _ ← setup url w;
  guarded url w.

(** *** The batch runner *)

(** the dict a task returns: [{**res, "ch_id": ch.id}] *)
Record result_dict : Type := {
  probe : probe_dict;
  ch_id : option Z
}.

(** one call [update_task_status(task_id, progress=.., message=..)];
    [r_index] records which task made the call *)
Record report : Type := {
  r_index : nat;
  r_progress : Z;
  r_message : pystr
}.

(** What the outside world does for one task: how the call of
    [update_task_status] ends if the task makes it ([task_broker] is not under
    src/, so the call may return or raise), the probe's world, and, for a
    task that raises, the instant at which it does. *)
Record task_world : Type := {
  sink : outcome unit;
  tool : tool_world;
  ended_at : nat
}.

(** the state the tasks share: the int attributes set on the class with
    [setattr], and the calls made to the progress sink so far *)
Record runner_state : Type := {
  attrs : gmap pystr Z;
  sent : list report
}.

(** f"_last_p_{task_id}" *)
Definition attr_name (task_id : option pystr) : pystr :=
  py "_last_p_" ++ match task_id with Some t => t | None => py "None" end.

(** [progress == 0 or progress == 100 or (progress - last_progress) >= 2] *)
Definition should_report (last_progress progress : Z) : bool :=
  (progress =? 0)%Z || (progress =? 100)%Z || (2 <=? progress - last_progress)%Z.

(** f"正在检测 ({i+1}/{total}): {ch.name}" *)
Definition progress_message (i total : nat) (ch : Channel) : pystr :=
  [27491; 22312; 26816; 27979]%N ++ py " (" ++ str_of_int (Z.of_nat (i + 1))
  ++ py "/" ++ str_of_int (Z.of_nat total) ++ py "): " ++ name ch.

(** f"[Check] 正在检测 ({i+1}/{total}): {ch.name[:20]}" *)
Definition check_line (i total : nat) (ch : Channel) : pystr :=
  py "[Check] " ++ [27491; 22312; 26816; 27979]%N ++ py " ("
  ++ str_of_int (Z.of_nat (i + 1)) ++ py "/" ++ str_of_int (Z.of_nat total)
  ++ py "): " ++ take 20 (name ch).

(** what the task of index [i] does once its first step is over, [reported]
    being how its call of the sink ended ([Return] when it made none): it
    enters [async with sem], prints the name, calls the probe and returns
    its dict.  An exception leaves the [with] block and the task.  The print
    of the result is not modelled, for it cannot raise: it writes a literal,
    or the error of the dict, which is a literal, was decoded from UTF-8, or
    is the text of an exception that the probe has printed. *)
Definition probe_and_return (total i : nat) (ch : Channel) (w : task_world)
    (reported : outcome unit) : outcome result_dict :=
  _ ← reported;
  _ ← print (check_line i total ch);
  res ← check_stream_visual (url ch) (tool w);
  Return {| probe := res; ch_id := id ch |}.

(** whether the task gets to call [check_stream_visual] *)
Definition calls_probe (total i : nat) (ch : Channel)
    (reported : outcome unit) : bool :=
  match (_ ← reported; print (check_line i total ch)) with
  | Return _ => true
  | Raise _ => false
  end.

(** [_bounded_check(i, ch)]: the shared state after the task's first step,
    whether the task calls the probe, and how the task ends.  Everything up
    to the call of [update_task_status] runs without suspension, so the read
    and the write of the attribute are one step; the rest of the task touches
    no shared state but the semaphore, see [Pool] below. *)
Definition _bounded_check (total : nat) (task_id : option pystr)
    (i : nat) (ch : Channel) (w : task_world) (st : runner_state)
  : runner_state * bool * outcome result_dict :=
  let progress := Float64.percent total i in
  let last_progress := default (-1)%Z (attrs st !! attr_name task_id) in
  let '(st1, reported) :=
    if should_report last_progress progress then
      ({| attrs := <[attr_name task_id := progress]> (attrs st);
          sent := sent st ++ [{| r_index := i; r_progress := progress;
                                 r_message := progress_message i total ch |}] |},
       sink w)
    else (st, Return tt) in
  (st1, calls_probe total i ch reported,
   probe_and_return total i ch w reported).

(** [enumerate(channels)] *)
Fixpoint enumerate_from {A : Type} (k : nat) (l : list A) : list (nat * A) :=
  match l with
  | [] => []
  | x :: rest => (k, x) :: enumerate_from (S k) rest
  end.

Definition enumerate {A : Type} (l : list A) : list (nat * A) :=
  enumerate_from 0 l.

(** what the tasks of one batch leave *)
Record tasks_end : Type := {
  shared : runner_state;
  probing : list nat;
  outcomes : list (outcome result_dict)
}.

(** The tasks of [asyncio.gather] take their first step in the order
    of the list (the event loop's ready queue is first in, first out);
    [probing] lists the tasks that call the probe, by index. *)
Fixpoint run_tasks (total : nat) (task_id : option pystr)
    (world : nat -> task_world) (tasks : list (nat * Channel))
    (st : runner_state) : tasks_end :=
  match tasks with
  | [] => {| shared := st; probing := []; outcomes := [] |}
  | (i, ch) :: rest =>
      let '(st1, probes, o) := _bounded_check total task_id i ch (world i) st in
      let rest_end := run_tasks total task_id world rest st1 in
      {| shared := shared rest_end;
         probing := (if probes then [i] else []) ++ probing rest_end;
         outcomes := o :: outcomes rest_end |}
  end.

(** among the awaitables that raise, the one that does so first: its
    position and its exception; [instant k] is the instant at which the
    awaitable at position [k] ends (of two that end together, the one earlier
    in the list is taken) *)
Fixpoint first_raised {A : Type} (instant : nat -> nat) (k : nat)
    (tasks : list (outcome A)) : option (nat * exn) :=
  match tasks with
  | [] => None
  | t :: rest =>
      let later := first_raised instant (S k) rest in
      match t with
      | Return _ => later
      | Raise e =>
          match later with
          | Some (j, e') =>
              if instant j <? instant k then Some (j, e') else Some (k, e)
          | None => Some (k, e)
          end
      end
  end.

(** the results of the awaitables that returned *)
Fixpoint returns {A : Type} (tasks : list (outcome A)) : list A :=
  match tasks with
  | [] => []
  | Return a :: rest => a :: returns rest
  | Raise _ :: rest => returns rest
  end.

(** [await asyncio.gather(..)] without [return_exceptions]: the results in
    the order of the awaitables when all of them return, otherwise the first
    exception raised; the others are not cancelled *)
Definition gather {A : Type} (instant : nat -> nat) (tasks : list (outcome A))
  : outcome (list A) :=
  match first_raised instant 0 tasks with
  | Some (_, e) => Raise e
  | None => Return (returns tasks)
  end.

(** the six assignments to [ch] in the writeback loop *)
Definition record_check (source : pystr) (now : Z) (ch : Channel)
    (r : result_dict) : Channel :=
  {| id := id ch; name := name ch; url := url ch;
     group := group ch; logo := logo ch;
     subscription_id := subscription_id ch;
     is_enabled := p_status (probe r);
     check_status := Some (p_status (probe r));
     check_date := Some now;
     check_image := p_image (probe r);
     check_error :=
       if negb (p_status (probe r)) then p_error (probe r) else None;
     check_source := Some source |}.

(** the body of the writeback loop, for one result at time [now]; the dict
    [res] itself is never empty, so [if res and res.get('ch_id')] tests the
    identifier only: [None] and [0] are falsy *)
Definition write_result (source : pystr) (now : Z) (db : gmap Z Channel)
    (r : result_dict) : gmap Z Channel :=
  match ch_id r with
  | Some cid =>
      if (cid =? 0)%Z then db
      else
        match db !! cid with             (* [update_session.get(..)] *)
        | Some ch => <[cid := record_check source now ch r]> db
        | None => db                     (* [if ch:] fails *)
        end
  | None => db
  end.

(** two rows agree on the fields the writeback does not assign *)
Definition same_row (a b : Channel) : Prop :=
  id a = id b /\ name a = name b /\ url a = url b /\ group a = group b
  /\ logo a = logo b /\ subscription_id a = subscription_id b.

(** [for res in results: ...] followed by the commit; [utcnow k] is the clock
    read while the [k]-th result is written *)
Fixpoint writeback_from (k : nat) (source : pystr) (utcnow : nat -> Z)
    (db : gmap Z Channel) (results : list result_dict) : gmap Z Channel :=
  match results with
  | [] => db
  | r :: rest =>
      writeback_from (S k) source utcnow (write_result source (utcnow k) db r) rest
  end.

Definition writeback := writeback_from 0.

(** how a call of [run_batch_check] ends: the shared state, the storage, the
    tasks that call the probe (by index; [gather] cancels no task, so the
    tasks of a batch that raises run on), and what the call returns or
    raises *)
Record batch_end : Type := {
  final_state : runner_state;
  storage : gmap Z Channel;
  probed : list nat;
  returned : outcome unit
}.

(** [StreamChecker.run_batch_check(session, channels, concurrency, source,
    task_id)].  The function does not use [session]: it opens a session of
    its own for the writeback, and [db] is the storage as that session finds
    it.  [concurrency] is taken to be at least 1 and only bounds how the
    probes overlap in time ([Pool]).  The commit of the writeback stores
    texts that the storage can hold: the texts of a dict are literals, were
    decoded from UTF-8, are base64, or are the text of an exception that the
    probe has printed, and [source] is one of the tags that the docstring
    lists (manual, auto, other). *)
Definition run_batch_check (st : runner_state) (db : gmap Z Channel)
    (channels : list Channel) (source : pystr) (task_id : option pystr)
    (world : nat -> task_world) (utcnow : nat -> Z) : batch_end :=
  match channels with
  | [] =>
      {| final_state := st; storage := db; probed := [];
         returned := Return tt |}
  | _ :: _ =>
      let total := length channels in
      let tasks := run_tasks total task_id world (enumerate channels) st in
      match gather (fun k => ended_at (world k)) (outcomes tasks) with
      | Raise e =>
          {| final_state := shared tasks; storage := db;
             probed := probing tasks; returned := Raise e |}
      | Return results =>
          {| final_state :=
               {| attrs := delete (attr_name task_id) (attrs (shared tasks));
                  sent := sent (shared tasks) |};
             storage := writeback source utcnow db results;
             probed := probing tasks;
             returned := Return tt |}
      end
  end.

(** the progress reports one call of [run_batch_check] makes *)
Definition batch_reports (st : runner_state) (b : batch_end) : list report :=
  drop (length (sent st)) (sent (final_state b)).

(** the percentage of the last report made before task [i] took its step *)
Definition last_reported_before (i : nat) (rs : list report) : option Z :=
  last (map r_progress (filter (fun r => r_index r < i) rs)).

(** the reports alone: what the tasks, stepping in order from the attribute
    value [last], send to the sink *)
Fixpoint throttle (total : nat) (last_progress : Z)
    (tasks : list (nat * Channel)) : list report :=
  match tasks with
  | [] => []
  | (i, ch) :: rest =>
      let progress := Float64.percent total i in
      if should_report last_progress progress then
        {| r_index := i; r_progress := progress;
           r_message := progress_message i total ch |}
        :: throttle total progress rest
      else throttle total last_progress rest
  end.

(** the attribute as [getattr(cls, name, -1)] reads it *)
Definition last_of (task_id : option pystr) (st : runner_state) : Z :=
  default (-1)%Z (attrs st !! attr_name task_id).

(** the report of task [i] *)
Definition report_of (total i : nat) (ch : Channel) : report :=
  {| r_index := i; r_progress := Float64.percent total i;
     r_message := progress_message i total ch |}.

(** the value of the attribute after the reports [rs], from [last_progress] *)
Definition last_after (last_progress : Z) (rs : list report) : Z :=
  default last_progress (last (map r_progress rs)).

(** how the call of the sink ends for the task of index [i] of a batch whose
    reports are [rs]: the task makes the call when one of the reports is
    its own *)
Definition reported (world : nat -> task_world) (rs : list report) (i : nat)
  : outcome unit :=
  if existsb (fun r => r_index r =? i) rs then sink (world i) else Return tt.

(** how the task of index [i], for the channel [ch], ends in a batch of
    [total] channels whose reports are [rs] *)
Definition task_end (total : nat) (world : nat -> task_world)
    (rs : list report) (i : nat) (ch : Channel) : outcome result_dict :=
  probe_and_return total i ch (world i) (reported world rs i).

(** [res] is the dict of the task [t = (i, ch)] when nothing is raised *)
Definition result_for (world : nat -> task_world) (t : nat * Channel)
    (res : result_dict) : Prop :=
  check_stream_visual (url t.2) (tool (world t.1)) = Return (probe res)
  /\ ch_id res = id t.2.

End Probe.

End StreamChecker.

(** *** The permits of one batch

    The control skeleton of [_bounded_check] around
    [sem = asyncio.Semaphore(concurrency)]: a task is created, runs its first
    segment (which ends at [async with sem], or with an exception of the
    sink), enters the [with] block by taking a permit, and leaves it, giving
    the permit back, when [check_stream_visual] has returned its result (an
    exception raised inside the block leaves it the same way, the permit
    given back: for the permits it is a [Finish] without success).
    Which task moves next is up to the event loop and the outside world: a
    schedule is any list of events.  (A real semaphore may make a task wait
    although a permit is free; every schedule it allows is one of these.) *)
Module Pool.

Inductive pc : Type :=
| Created                 (* the coroutine exists, no step taken *)
| Raised                  (* ended by an exception before the [with] block *)
| Waiting                 (* at [async with sem] *)
| Probing                 (* inside the block: the probe runs *)
| Done (success : bool).  (* left the block with the probe's result *)

Global Instance pc_eq_dec : EqDecision pc.
Proof. solve_decision. Defined.

Record pool : Type := {
  permits : nat;
  tasks : list pc
}.

Inductive event : Type :=
| Start (i : nat) (raises : bool)
| Acquire (i : nat)
| Finish (i : nat) (success : bool).

Definition init (concurrency n : nat) : pool :=
  {| permits := concurrency; tasks := replicate n Created |}.

Definition fire (ev : event) (p : pool) : option pool :=
  match ev with
  | Start i raises =>
      match tasks p !! i with
      | Some Created =>
          Some {| permits := permits p;
                  tasks := <[i := if raises then Raised else Waiting]> (tasks p) |}
      | _ => None
      end
  | Acquire i =>
      match tasks p !! i, permits p with
      | Some Waiting, S k =>
          Some {| permits := k; tasks := <[i := Probing]> (tasks p) |}
      | _, _ => None
      end
  | Finish i success =>
      match tasks p !! i with
      | Some Probing =>
          Some {| permits := S (permits p);
                  tasks := <[i := Done success]> (tasks p) |}
      | _ => None
      end
  end.

Fixpoint run (evs : list event) (p : pool) : option pool :=
  match evs with
  | [] => Some p
  | ev :: rest =>
      match fire ev p with
      | Some p' => run rest p'
      | None => None
      end
  end.

(** the number of probe invocations executing *)
Definition in_flight (p : pool) : nat :=
  length (filter (fun t => t = Probing) (tasks p)).

(** what one task adds to that number *)
Definition probing_weight (t : pc) : nat :=
  if decide (t = Probing) then 1 else 0.

End Pool.

(** ** routers/subscriptions.py *)
Module Subscriptions.

(** Modelled from the spec: one item of the list that
    [IPTVFetcher.fetch_subscription] returns ([services/fetcher.py] is not
    under src/); its keys become fields of the row (the call expands the
    item into keyword arguments). *)
Record fetched_item : Type := {
  f_name : pystr;
  f_url : pystr;
  f_group : option pystr;
  f_logo : option pystr
}.

(** a value of the [channel_states] dict *)
Record saved_state : Type := {
  s_is_enabled : bool;
  s_check_status : option bool;
  s_check_date : option Z;
  s_check_image : option pystr
}.

Definition state_of (c : Channel) : saved_state :=
  {| s_is_enabled := is_enabled c; s_check_status := check_status c;
     s_check_date := check_date c; s_check_image := check_image c |}.

(** [for c in old_channels: channel_states[c.url] = {...}] *)
Definition channel_states (old_channels : list Channel) : gmap pystr saved_state :=
  foldl (fun m c => <[url c := state_of c]> m) ∅ old_channels.

(** the body of [for item in channels_data]: the row given to [session.add];
    the primary key is assigned by the storage, the two fields the call does
    not pass take the model's default *)
Definition restore (sub_id : option Z) (states : gmap pystr saved_state)
    (item : fetched_item) : Channel :=
  let state := states !! f_url item in
  {| id := None;
     name := f_name item; url := f_url item;
     group := f_group item; logo := f_logo item;
     subscription_id := sub_id;
     is_enabled := default true (s_is_enabled <$> state);
     check_status := state ≫= s_check_status;
     check_date := state ≫= s_check_date;
     check_image := state ≫= s_check_image;
     check_error := None;
     check_source := None |}.

(** [process_subscription_refresh]: from the rows of the subscription found
    in storage and the items fetched, the rows that replace them and the
    count returned *)
Definition process_subscription_refresh (sub_id : option Z)
    (old_channels : list Channel) (channels_data : list fetched_item)
  : list Channel * nat :=
  let states := channel_states old_channels in
  (map (restore sub_id states) channels_data, length channels_data).

End Subscriptions.

(** ** Sample inputs, used to run the definitions on concrete batches *)
Module Samples.
Import StreamChecker.

(** a stand-in for the two library functions (the decoder and the encoder),
    which no property depends on: each byte becomes the code point of the
    same number *)
Definition latin1 (bs : list Byte.byte) : pystr :=
  map (fun b => Byte.to_N b) bs.

Definition channel (i : Z) (u : string) : Channel :=
  {| id := Some i; name := py "tv"; url := py u; group := None; logo := None;
     subscription_id := Some 1%Z; is_enabled := true; check_status := None;
     check_date := None; check_image := None; check_error := None;
     check_source := None |}.

(** the tool exits with 0 and leaves a one-byte frame *)
Definition frame_ok : tool_world :=
  {| ffmpeg_exe := Return (py "ffmpeg");
     temp_filename := Return (py "/tmp/capture_1.jpg");
     run_ffmpeg := Return {| returncode := 0; stderr := [] |};
     temp_file := Some [Byte.xff] |}.

(** the tool exits with 1, a diagnostic on stderr and no file *)
Definition no_output : tool_world :=
  {| ffmpeg_exe := Return (py "ffmpeg");
     temp_filename := Return (py "/tmp/capture_2.jpg");
     run_ffmpeg :=
       Return {| returncode := 1; stderr := [Byte.x34; Byte.x30; Byte.x34] |};
     temp_file := None |}.

Definition quiet (w : tool_world) : task_world :=
  {| sink := Return tt; tool := w; ended_at := 0 |}.

(** the call of the sink raises *)
Definition sink_down (w : tool_world) : task_world :=
  {| sink := Raise (OtherException (py "database is locked")); tool := w;
     ended_at := 0 |}.

Definition fresh : runner_state := {| attrs := ∅; sent := [] |}.

(** the dict of a failed probe, for the channel of identifier [c] *)
Definition failure (c : Z) : result_dict :=
  {| probe := {| p_url := py "a"; p_status := false; p_image := None;
                 p_error := Some (py "404") |};
     ch_id := Some c |}.

Definition clock (k : nat) : Z := (1700000000 + Z.of_nat k)%Z.

(** an old row at URL "a", disabled, with a successful check on record *)
Definition old_row : Channel :=
  {| id := Some 5%Z; name := py "old"; url := py "a"; group := None;
     logo := None; subscription_id := Some 1%Z; is_enabled := false;
     check_status := Some true; check_date := Some 1700000000%Z;
     check_image := None; check_error := None; check_source := None |}.

Definition item (n u : string) : Subscriptions.fetched_item :=
  {| Subscriptions.f_name := py n; Subscriptions.f_url := py u;
     Subscriptions.f_group := None; Subscriptions.f_logo := None |}.

End Samples.

(** ** services/stream_checker.py: the tool path and the task *)

(** [StreamChecker.get_ffmpeg_path] *)
Module Resolver.
Import StreamChecker.



End Resolver.

(** [check_channels_task], the task that the broker runs *)
Module CheckTask.
Import Stdout StreamChecker.

(** one call [update_task_status(task_id, status=.., progress=.., message=..)]
    with the arguments it passes *)
Record status_call : Type := {
  s_status : option pystr;
  s_progress : option Z;
  s_message : option pystr
}.

(** how the task's own calls of [update_task_status] end: the first one, the
    one that reports success, the one that reports failure *)
Record task_sinks : Type := {
  on_running : outcome unit;
  on_success : outcome unit;
  on_failure : outcome unit
}.

(** [str(e)]; the text of a [TimeoutExpired] names the command and is left
    open *)
Definition str_of_exn (timeout_text : pystr) (e : exn) : pystr :=
  match e with
  | TimeoutExpired => timeout_text
  | OtherException msg => msg
  end.

(** status "running", f"准备检测 {len(channel_ids)} 个路径..." *)
Definition call_running (channel_ids : list Z) : status_call :=
  {| s_status := Some (py "running"); s_progress := Some 0%Z;
     s_message :=
       Some ([20934; 22791; 26816; 27979; 32]%N
             ++ str_of_int (Z.of_nat (length channel_ids))
             ++ [32; 20010; 36335; 24452; 46; 46; 46]%N) |}.

(** status "success", "没有有效的频道需要检测" *)
Definition call_nothing_to_check : status_call :=
  {| s_status := Some (py "success"); s_progress := Some 100%Z;
     s_message :=
       Some [27809; 26377; 26377; 25928; 30340; 39057; 36947; 38656; 35201;
             26816; 27979]%N |}.

(** status "success", "检测任务已完成" *)
Definition call_completed : status_call :=
  {| s_status := Some (py "success"); s_progress := Some 100%Z;
     s_message := Some [26816; 27979; 20219; 21153; 24050; 23436; 25104]%N |}.

(** status "failure", f"任务执行出错: {str(e)}"; no progress is passed *)
Definition call_failure (timeout_text : pystr) (e : exn) : status_call :=
  {| s_status := Some (py "failure"); s_progress := None;
     s_message :=
       Some ([20219; 21153; 25191; 34892; 20986; 38169; 58; 32]%N
             ++ str_of_exn timeout_text e) |}.

(** a report of the batch runner, as a call of the sink *)
Definition call_of_report (r : report) : status_call :=
  {| s_status := None; s_progress := Some (r_progress r);
     s_message := Some (r_message r) |}.

(** f"[Task] 收到深度检测请求: {len(channel_ids)} 个频道 (来源: {source})" *)
Definition request_line (channel_ids : list Z) (source : pystr) : pystr :=
  [91; 84; 97; 115; 107; 93; 32; 25910; 21040; 28145; 24230; 26816; 27979;
   35831; 27714; 58; 32]%N
  ++ str_of_int (Z.of_nat (length channel_ids))
  ++ [32; 20010; 39057; 36947; 32; 40; 26469; 28304; 58; 32]%N
  ++ source ++ py ")".

(** f"[Task] 深度检测异常中断 (ID: {task_id}): {e}" *)
Definition interrupt_line (task_id : pystr) (text : pystr) : pystr :=
  [91; 84; 97; 115; 107; 93; 32; 28145; 24230; 26816; 27979; 24322; 24120;
   20013; 26029; 32; 40; 73; 68; 58; 32]%N
  ++ task_id ++ py "): " ++ text.

(** [Channel.id.in_(channel_ids)], on one row *)
Definition id_in (channel_ids : list Z) (c : Channel) : bool :=
  match id c with
  | Some i => bool_decide (i ∈ channel_ids)
  | None => false
  end.

(** the rows of the table that the [where] clause keeps, in the order in
    which the storage yields them *)
Definition matching (channel_ids : list Z) (table : list Channel)
  : list Channel :=
  List.filter (id_in channel_ids) table.

(** how a run of the task ends *)
Record task_end : Type := {
  calls : list status_call;
  end_state : runner_state;
  end_storage : gmap Z Channel;
  task_returned : outcome unit
}.

Section Task.
Variable utf8_decode_ignore : list Byte.byte -> pystr.
Variable b64encode : list Byte.byte -> pystr.
Variable timeout_text : pystr.

(** SQLite refuses a statement with more bound parameters than its build
    allows ([SQLITE_MAX_VARIABLE_NUMBER]: 999, 32766 or 250000 in the builds
    met); the exception that the session then raises quotes the statement
    and its parameters. *)
Variable max_variables : nat.
Variable too_many_variables : list Z -> exn.

(** [session.exec(select(Channel).where(Channel.id.in_(channel_ids))).all()]:
    every identifier is a bound parameter of the statement; the statement is
    prepared, then the parameters are bound *)
Definition select_in (channel_ids : list Z) (table : list Channel)
  : outcome (list Channel) :=
  if max_variables <? length channel_ids
  then Raise (too_many_variables channel_ids)
  else
    if forallb Sqlite.integer channel_ids
    then Return (matching channel_ids table)
    else Raise Sqlite.OverflowError.

(** the statements of the [try] block up to the query: the first call of
    the sink, the print of the request, the query *)
Definition selected (table : list Channel) (channel_ids : list Z)
    (source : pystr) (sinks : task_sinks) : outcome (list Channel) :=
  _ ← on_running sinks;
  _ ← print (request_line channel_ids source);
  select_in channel_ids table.

(** the [try] block: the calls made, the state, the storage, and how the
    block ends *)
Definition try_block (st : runner_state) (table : list Channel)
    (db : gmap Z Channel) (task_id : pystr) (channel_ids : list Z)
    (source : pystr) (sinks : task_sinks) (world : nat -> task_world)
    (utcnow : nat -> Z)
  : list status_call * runner_state * gmap Z Channel * outcome unit :=
  let started := [call_running channel_ids] in
  match selected table channel_ids source sinks with
  | Raise e => (started, st, db, Raise e)
  | Return [] => (started ++ [call_nothing_to_check], st, db, on_success sinks)
  | Return (c :: cs) =>
      let b := run_batch_check utf8_decode_ignore b64encode st db
                 (c :: cs) source (Some task_id) world utcnow in
      let made := started ++ map call_of_report (batch_reports st b) in
      match returned b with
      | Raise e => (made, final_state b, storage b, Raise e)
      | Return _ =>
          (made ++ [call_completed], final_state b, storage b,
           on_success sinks)
      end
  end.

(** [check_channels_task(task_id, channel_ids, source)]; [table] is the
    storage as the task's session reads it, [db] the storage as the writeback
    session of the batch finds it.  The task runs the batch with
    [concurrency=5].  In the handler, [traceback.print_exc()] writes to
    [sys.stderr], which escapes what it cannot encode. *)
Definition check_channels_task (st : runner_state) (table : list Channel)
    (db : gmap Z Channel) (task_id : pystr) (channel_ids : list Z)
    (source : pystr) (sinks : task_sinks) (world : nat -> task_world)
    (utcnow : nat -> Z) : task_end :=
  match try_block st table db task_id channel_ids source sinks world utcnow with
  | (made, st', db', Return _) =>
      {| calls := made; end_state := st'; end_storage := db';
         task_returned := Return tt |}
  | (made, st', db', Raise e) =>
      match print (interrupt_line task_id (str_of_exn timeout_text e)) with
      | Return _ =>
          {| calls := made ++ [call_failure timeout_text e]; end_state := st';
             end_storage := db'; task_returned := on_failure sinks |}
      | Raise e' =>
          {| calls := made; end_state := st'; end_storage := db';
             task_returned := Raise e' |}
      end
  end.

End Task.

End CheckTask.

(** ** routers/tools.py *)
Module Tools.

(** one dict of [req.items]: the keys ['id'] and ['url'], either of which may
    be missing; an identifier is taken to be an int *)
Record item : Type := {
  item_id : option Z;
  item_url : option pystr
}.

(** [CheckRequest] *)
Record CheckRequest : Type := {
  urls : list pystr;
  items : list item;
  auto_disable : bool
}.

(** Modelled from the spec: [models.TaskRecord] is not under src/; the
    fields are those the endpoints pass. *)
Record TaskRecord : Type := {
  tr_id : pystr;
  tr_name : pystr;
  tr_status : pystr;
  tr_progress : Z;
  tr_message : pystr
}.

(** [[item.get('id') for item in req.items if item.get('id')]] *)
Definition channel_ids (req : CheckRequest) : list Z :=
  omap (fun it => match item_id it with
                  | Some i => if (i =? 0)%Z then None else Some i
                  | None => None
                  end)
       (items req).

(** the call [check_channels_task.kiq(task_id=.., channel_ids=.., source=..)] *)
Record dispatch : Type := {
  d_task_id : pystr;
  d_channel_ids : list Z;
  d_source : pystr
}.

(** what the endpoint answers *)
Inductive response : Type :=
| Error (message : pystr)
| Success (task_id : pystr) (message : pystr).

(** [POST /check-stream-visual]: from the request, the identifier drawn by
    [uuid.uuid4()] and the task records in storage, to the answer, the task
    records after the call and the task handed to the broker *)
Definition check_stream_visual (req : CheckRequest) (task_id : pystr)
    (records : gmap pystr TaskRecord)
  : response * gmap pystr TaskRecord * option dispatch :=
  match channel_ids req with
  | [] =>
      (Error [27809; 26377; 36873; 20013; 30340; 39057; 36947]%N, records, None)
  | i :: ids =>
      let task_record :=
        {| tr_id := task_id;
           tr_name := [25209; 37327; 28145; 24230; 26816; 27979; 58; 32]%N
                      ++ str_of_int (Z.of_nat (length (i :: ids)))
                      ++ [32; 20010; 39057; 36947]%N;
           tr_status := py "pending";
           tr_progress := 0;
           tr_message := [20219; 21153; 25490; 38431; 20013; 46; 46; 46]%N |} in
      (Success task_id
         [24050; 22312; 21518; 21488; 21551; 21160; 28145; 24230; 26816; 27979;
          20219; 21153]%N,
       <[task_id := task_record]> records,
       Some {| d_task_id := task_id; d_channel_ids := i :: ids;
               d_source := py "manual" |})
  end.

(** [req.urls if req.urls else [i['url'] for i in req.items]]: an item
    without the key raises [KeyError('url')] *)
Fixpoint item_urls (its : list item) : outcome (list pystr) :=
  match its with
  | [] => Return []
  | it :: rest =>
      match item_url it with
      | Some u => us ← item_urls rest; Return (u :: us)
      | None => Raise (OtherException (py "'url'"))
      end
  end.

Definition target_urls (req : CheckRequest) : outcome (list pystr) :=
  match urls req with
  | [] => item_urls (items req)
  | u :: us => Return (u :: us)
  end.

Section Connectivity.

(** Modelled from the spec: [services.connectivity.check_url] is not under
    src/; it is taken as a function from the URL to the result it returns or
    the exception it raises.  [instant k] is the instant at which the check
    of the [k]-th URL ends. *)
Variable Result : Type.
Variable check_url : pystr -> outcome Result.
Variable instant : nat -> nat.

(** [POST /check-connectivity] *)
Definition check_connectivity (req : CheckRequest) : outcome (list Result) :=
  target_urls ← target_urls req;
  StreamChecker.gather instant (map check_url target_urls).

End Connectivity.

End Tools.

(** ** routers/subscriptions.py: the endpoints over the storage *)
Module Store.
Import Stdout.

(** Modelled from the spec: [models.Subscription] is not under src/; the
    fields are those the endpoints read or write. *)
Record Subscription : Type := {
  sub_name : pystr;
  sub_url : pystr;
  user_agent : option pystr;
  headers : option pystr;
  auto_update_minutes : Z;
  sub_is_enabled : bool;
  last_updated : option Z;
  last_update_status : option pystr
}.

(** the two tables, by primary key *)
Record tables : Type := {
  subscriptions : gmap Z Subscription;
  channels : gmap Z Channel
}.

(** the answer of an endpoint: a value, [HTTPException(status_code,
    detail)], or any other exception, which the framework answers with
    status 500 *)
Inductive http (A : Type) : Type :=
| Ok (a : A)
| HTTPException (status_code : Z) (detail : pystr)
| Unhandled (e : exn).
Arguments Ok {A} a.
Arguments HTTPException {A} status_code detail.
Arguments Unhandled {A} e.

(** "订阅不存在" *)
Definition not_found {A : Type} : http A :=
  HTTPException 404 [35746; 38405; 19981; 23384; 22312]%N.

(** [select(Channel).where(Channel.subscription_id == sub_id)] *)
Definition channels_of (sub_id : Z) (t : tables) : gmap Z Channel :=
  filter (fun kc => subscription_id kc.2 = Some sub_id) (channels t).

(** f"[Action] 删除订阅: {sub.name} (ID: {sub_id})" *)
Definition delete_line (sub_name : pystr) (sub_id : Z) : pystr :=
  [91; 65; 99; 116; 105; 111; 110; 93; 32; 21024; 38500; 35746; 38405; 58;
   32]%N
  ++ sub_name ++ py " (ID: " ++ str_of_int sub_id ++ py ")".

(** [DELETE /subscriptions/{sub_id}] *)
Definition delete_subscription (sub_id : Z) (t : tables) : http tables :=
  match Sqlite.get (subscriptions t) sub_id with
  | Raise e => Unhandled e
  | Return None => not_found
  | Return (Some sub) =>
      match print (delete_line (sub_name sub) sub_id) with
      | Raise e => Unhandled e
      | Return _ =>
          Ok {| subscriptions := delete sub_id (subscriptions t);
                channels :=
                  filter (fun kc => subscription_id kc.2 <> Some sub_id)
                         (channels t) |}
      end
  end.

(** [GET /subscriptions/{sub_id}/channels]; the rows are given as a map, the
    order of the answer being the storage's *)
Definition get_subscription_channels (sub_id : Z) (t : tables)
  : http (gmap Z Channel) :=
  match Sqlite.get (subscriptions t) sub_id with
  | Raise e => Unhandled e
  | Return None => not_found
  | Return (Some _) => Ok (channels_of sub_id t)
  end.

Section Update.

(** [str.strip()] is a library function *)
Variable strip : pystr -> pystr.




End Update.

End Store.

(* ===================================================================== *)
(** * Part II: properties *)
(* ===================================================================== *)

(** ** Rounding to binary64 is monotone *)
Section Rounding.
Import Float64.
Local Open Scope Q_scope.

Lemma Qdiv_lt_cross (n d A B : Q) :
  0 < d -> 0 < B -> n * B < A * d -> n / d < A / B.
Proof.
  intros Hd HB H.
  apply Qlt_shift_div_l; [exact HB|].
  assert (Ediv : n / d * B == (n * B) / d) by (field; lra). rewrite Ediv.
  apply Qlt_shift_div_r; [exact Hd|exact H].
Qed.

Lemma Qdiv_le_cross (n d A B : Q) :
  0 < d -> 0 < B -> A * d <= n * B -> A / B <= n / d.
Proof.
  intros Hd HB H.
  apply Qle_shift_div_l; [exact Hd|].
  assert (Ediv : A / B * d == (A * d) / B) by (field; lra). rewrite Ediv.
  apply Qle_shift_div_r; [exact HB|exact H].
Qed.

Lemma two_pow_pos (k : Z) : 0 < 2 ^ k.
Proof. apply Qpower_0_lt. reflexivity. Qed.

Lemma two_pow_succ (k : Z) : 2 ^ (k + 1) == 2 * 2 ^ k.
Proof. rewrite Qpower_plus by discriminate. change (2 ^ 1) with 2. ring. Qed.

Lemma Zlog2_Q (n : Z) :
  (0 < n)%Z -> 2 ^ Z.log2 n <= inject_Z n /\ inject_Z n < 2 ^ (Z.log2 n + 1).
Proof.
  intros Hn. destruct (Z.log2_spec n Hn) as [H1 H2].
  pose proof (Z.log2_nonneg n) as H0.
  split.
  - change 2 with (inject_Z 2). rewrite <- Zpower_Qpower by exact H0.
    rewrite <- Zle_Qle. exact H1.
  - change 2 with (inject_Z 2). rewrite <- Zpower_Qpower by lia.
    rewrite <- Zlt_Qlt. unfold Z.succ in H2. exact H2.
Qed.

Lemma ilog2_spec (x : Q) :
  0 < x -> 2 ^ ilog2 x <= x /\ x < 2 ^ (ilog2 x + 1).
Proof.
  intros Hx. unfold ilog2.
  set (a := Z.log2 (Qnum x)). set (b := Z.log2 (Z.pos (Qden x))).
  assert (Hn : (0 < Qnum x)%Z).
  { destruct x as [n d]. unfold Qlt in Hx. simpl in *. lia. }
  destruct (Zlog2_Q (Qnum x) Hn) as [Ha1 Ha2]. fold a in Ha1, Ha2.
  destruct (Zlog2_Q (Z.pos (Qden x)) eq_refl) as [Hb1 Hb2]. fold b in Hb1, Hb2.
  assert (Ex : x == inject_Z (Qnum x) / inject_Z (Z.pos (Qden x))).
  { destruct x as [n d]. simpl. apply Qmake_Qdiv. }
  pose proof (two_pow_pos a) as Pa. pose proof (two_pow_pos b) as Pb.
  assert (Pd : 0 < inject_Z (Z.pos (Qden x))) by (rewrite <- (Zlt_Qlt 0); lia).
  rewrite two_pow_succ in Ha2, Hb2.
  destruct (Qle_bool (2 ^ (a - b)) x) eqn:E.
  - apply Qle_bool_iff in E. split; [exact E|].
    rewrite two_pow_succ, Qpower_minus by discriminate.
    rewrite Ex at 1.
    assert (Ediv : 2 * (2 ^ a / 2 ^ b) == (2 * 2 ^ a) / 2 ^ b) by (field; lra). rewrite Ediv.
    apply Qdiv_lt_cross; [exact Pd|exact Pb|]. nra.
  - assert (E' : x < 2 ^ (a - b)).
    { apply Qnot_le_lt. intros C. apply Qle_bool_iff in C. congruence. }
    replace (a - b - 1 + 1)%Z with (a - b)%Z by lia. split; [|exact E'].
    replace (a - b - 1)%Z with (a - (b + 1))%Z by lia.
    rewrite Qpower_minus by discriminate. rewrite two_pow_succ.
    rewrite Ex at 1.
    apply Qdiv_le_cross; [exact Pd|lra|]. nra.
Qed.

Lemma ilog2_mono (x y : Q) : 0 < x -> x <= y -> (ilog2 x <= ilog2 y)%Z.
Proof.
  intros Hx Hxy.
  destruct (ilog2_spec x Hx) as [A _].
  destruct (ilog2_spec y) as [_ B]; [lra|].
  assert (H : 2 ^ ilog2 x < 2 ^ (ilog2 y + 1)) by lra.
  apply Qpower_lt_compat_l_inv in H; [lia|reflexivity].
Qed.

Lemma rhe_bounds (y : Q) :
  (Qfloor y <= round_half_even y <= Qfloor y + 1)%Z.
Proof.
  unfold round_half_even.
  destruct (Qcompare (y - inject_Z (Qfloor y)) (1 # 2)); [destruct (Z.even _)| |]; lia.
Qed.

Lemma rhe_ge_int (y : Q) (n : Z) : inject_Z n <= y -> (n <= round_half_even y)%Z.
Proof.
  intros H. apply Qfloor_resp_le in H. rewrite Qfloor_Z in H.
  pose proof (rhe_bounds y). lia.
Qed.

Lemma rhe_le_int (y : Q) (n : Z) : y <= inject_Z n -> (round_half_even y <= n)%Z.
Proof.
  intros H. pose proof (Qfloor_resp_le _ _ H) as Hf. rewrite Qfloor_Z in Hf.
  destruct (Z.eq_dec (Qfloor y) n) as [E|E].
  - unfold round_half_even. rewrite E.
    assert (L : Qcompare (y - inject_Z n) (1 # 2) = Lt).
    { rewrite <- Qlt_alt. lra. }
    rewrite L. lia.
  - pose proof (rhe_bounds y). lia.
Qed.

Lemma rhe_mono (x y : Q) : x <= y -> (round_half_even x <= round_half_even y)%Z.
Proof.
  intros H. pose proof (Qfloor_resp_le _ _ H) as Hf.
  destruct (Z.eq_dec (Qfloor x) (Qfloor y)) as [E|E].
  - unfold round_half_even. rewrite E.
    destruct (Qcompare (x - inject_Z (Qfloor y)) (1 # 2)) eqn:Cx;
      destruct (Qcompare (y - inject_Z (Qfloor y)) (1 # 2)) eqn:Cy;
      try (destruct (Z.even (Qfloor y)); lia); try lia;
      try rewrite <- Qeq_alt in Cx; try rewrite <- Qlt_alt in Cx; try rewrite <- Qgt_alt in Cx;
      try rewrite <- Qeq_alt in Cy; try rewrite <- Qlt_alt in Cy; try rewrite <- Qgt_alt in Cy;
      exfalso; lra.
  - pose proof (rhe_bounds x). pose proof (rhe_bounds y). lia.
Qed.

Lemma round53_pos_mono (x y : Q) :
  0 < x -> x <= y -> round53_pos x <= round53_pos y.
Proof.
  intros Hx Hxy. unfold round53_pos. rewrite !Qred_correct.
  assert (Hy : 0 < y) by lra.
  destruct (ilog2_spec x Hx) as [X1 X2]. destruct (ilog2_spec y Hy) as [Y1 Y2].
  pose proof (ilog2_mono x y Hx Hxy) as Hk.
  set (kx := (ilog2 x - 52)%Z). set (ky := (ilog2 y - 52)%Z).
  pose proof (two_pow_pos kx) as Px. pose proof (two_pow_pos ky) as Py.
  destruct (Z.eq_dec (ilog2 x) (ilog2 y)) as [E|E].
  - assert (Ek : kx = ky) by (unfold kx, ky; lia). rewrite Ek.
    apply Qmult_le_compat_r; [|lra].
    rewrite <- Zle_Qle. apply rhe_mono.
    apply Qmult_le_compat_r; [exact Hxy|].
    apply Qlt_le_weak, Qinv_lt_0_compat, Py.
  - assert (Hlt : (kx + 53 <= ky + 52)%Z) by (unfold kx, ky; lia).
    apply Qle_trans with (2 ^ (kx + 53)).
    + rewrite Qpower_plus by discriminate.
      rewrite (Qmult_comm (2 ^ kx)).
      apply Qmult_le_compat_r; [|lra].
      change (2 ^ 53) with (inject_Z (2 ^ 53)). rewrite <- Zle_Qle.
      apply rhe_le_int. apply Qle_shift_div_r; [exact Px|].
      change (inject_Z (2 ^ 53)) with (2 ^ 53). rewrite <- Qpower_plus by discriminate.
      replace (53 + kx)%Z with (ilog2 x + 1)%Z by (unfold kx; lia). lra.
    + apply Qle_trans with (2 ^ (ky + 52)).
      * apply Qpower_le_compat_l; [exact Hlt|discriminate].
      * rewrite Qpower_plus by discriminate.
        rewrite (Qmult_comm (2 ^ ky)).
        apply Qmult_le_compat_r; [|lra].
        change (2 ^ 52) with (inject_Z (2 ^ 52)). rewrite <- Zle_Qle.
        apply rhe_ge_int. apply Qle_shift_div_l; [exact Py|].
        change (inject_Z (2 ^ 52)) with (2 ^ 52). rewrite <- Qpower_plus by discriminate.
        replace (52 + ky)%Z with (ilog2 y)%Z by (unfold ky; lia). exact Y1.
Qed.

Lemma round53_pos_pos (x : Q) : 0 < x -> 0 < round53_pos x.
Proof.
  intros Hx. unfold round53_pos. rewrite Qred_correct.
  destruct (ilog2_spec x Hx) as [X1 _].
  set (k := (ilog2 x - 52)%Z). pose proof (two_pow_pos k) as Pk.
  apply Qmult_lt_0_compat; [|exact Pk].
  rewrite <- (Zlt_Qlt 0). 
  assert (H : (2 ^ 52 <= round_half_even (x / 2 ^ k))%Z).
  { apply rhe_ge_int. apply Qle_shift_div_l; [exact Pk|].
    change (inject_Z (2 ^ 52)) with (2 ^ 52). rewrite <- Qpower_plus by discriminate.
    replace (52 + k)%Z with (ilog2 x) by (unfold k; lia). exact X1. }
  lia.
Qed.

Lemma round53_mono (x y : Q) : 0 <= x -> x <= y -> round53 x <= round53 y.
Proof.
  intros Hx Hxy. unfold round53.
  destruct (Qcompare x 0) eqn:Cx.
  - destruct (Qcompare y 0) eqn:Cy.
    + lra.
    + rewrite <- Qlt_alt in Cy. lra.
    + rewrite <- Qgt_alt in Cy. apply Qlt_le_weak, round53_pos_pos, Cy.
  - rewrite <- Qlt_alt in Cx. lra.
  - rewrite <- Qgt_alt in Cx.
    assert (Cy : Qcompare y 0 = Gt) by (rewrite <- Qgt_alt; lra).
    rewrite Cy. apply round53_pos_mono; assumption.
Qed.

Lemma round53_nonneg (x : Q) : 0 <= x -> 0 <= round53 x.
Proof.
  intros Hx. unfold round53.
  destruct (Qcompare x 0) eqn:Cx.
  - lra.
  - rewrite <- Qlt_alt in Cx. lra.
  - rewrite <- Qgt_alt in Cx. apply Qlt_le_weak, round53_pos_pos, Cx.
Qed.

Lemma py_int_mono (x y : Q) : 0 <= x -> x <= y -> (py_int x <= py_int y)%Z.
Proof.
  intros Hx Hxy. unfold py_int.
  assert (Cx : Qcompare x 0 <> Lt) by (intros C; rewrite <- Qlt_alt in C; lra).
  assert (Cy : Qcompare y 0 <> Lt) by (intros C; rewrite <- Qlt_alt in C; lra).
  destruct (Qcompare x 0), (Qcompare y 0); try congruence; apply Qfloor_resp_le, Hxy.
Qed.

End Rounding.

(** ** The progress percentage *)
Section Percent.
Import Float64.
Local Open Scope Q_scope.

Lemma quot_le_frac (a b n : Z) (d : positive) :
  (0 < b)%Z -> (a * Z.pos d <= n * b)%Z -> inject_Z a / inject_Z b <= n # d.
Proof.
  intros Hb H. apply Qle_shift_div_r.
  - rewrite <- (Zlt_Qlt 0). exact Hb.
  - unfold Qle, Qmult, inject_Z. simpl. lia.
Qed.

Lemma frac_le_quot (a b n : Z) (d : positive) :
  (0 < b)%Z -> (n * b <= a * Z.pos d)%Z -> n # d <= inject_Z a / inject_Z b.
Proof.
  intros Hb H. apply Qle_shift_div_l.
  - rewrite <- (Zlt_Qlt 0). exact Hb.
  - unfold Qle, Qmult, inject_Z. simpl. lia.
Qed.

Lemma quot_nonneg (i total : nat) :
  0 <= inject_Z (Z.of_nat i) / inject_Z (Z.of_nat total).
Proof.
  apply Qmult_le_0_compat.
  - rewrite <- (Zle_Qle 0). lia.
  - apply Qinv_le_0_compat. rewrite <- (Zle_Qle 0). lia.
Qed.

Lemma quot_mono (i j total : nat) :
  (i <= j)%nat ->
  inject_Z (Z.of_nat i) / inject_Z (Z.of_nat total)
  <= inject_Z (Z.of_nat j) / inject_Z (Z.of_nat total).
Proof.
  intros H. apply Qmult_le_compat_r.
  - rewrite <- Zle_Qle. lia.
  - apply Qinv_le_0_compat. rewrite <- (Zle_Qle 0). lia.
Qed.

(** the three float operations of the percentage, one after the other,
    preserve the order of the exact quotients *)
Lemma percent_chain (x y : Q) :
  0 <= x -> x <= y ->
  (py_int (fmul (round53 x) 100) <= py_int (fmul (round53 y) 100))%Z.
Proof.
  intros Hx Hxy. unfold fmul.
  pose proof (round53_nonneg x Hx) as Rx.
  pose proof (round53_mono x y Hx Hxy) as Rxy.
  apply py_int_mono.
  - apply round53_nonneg. nra.
  - apply round53_mono; nra.
Qed.

Lemma percent_mono (total i j : nat) :
  (i <= j)%nat -> (percent total i <= percent total j)%Z.
Proof.
  intros H. unfold percent, truediv.
  apply percent_chain; [apply quot_nonneg | apply quot_mono, H].
Qed.

Lemma percent_nonneg (total i : nat) : (0 <= percent total i)%Z.
Proof.
  unfold percent, truediv.
  change 0%Z with (py_int (fmul (round53 0) 100)).
  apply percent_chain; [lra | apply quot_nonneg].
Qed.

Lemma percent_first (total : nat) : percent total 0 = 0%Z.
Proof.
  apply Z.le_antisymm; [|apply percent_nonneg].
  unfold percent, truediv.
  assert (H : inject_Z (Z.of_nat 0) / inject_Z (Z.of_nat total) <= 0).
  { unfold Qdiv. change (inject_Z (Z.of_nat 0)) with 0. lra. }
  apply (percent_chain _ 0 (quot_nonneg 0 total)) in H. exact H.
Qed.

(** below [2^53] tasks, no index reaches 100 percent *)
Lemma percent_le_99 (total i : nat) :
  (Z.of_nat total <= 2 ^ 53)%Z -> (i < total)%nat -> (percent total i <= 99)%Z.
Proof.
  intros Hb Hi. unfold percent, truediv.
  assert (C : py_int (fmul (round53 (9007199254740991 # 9007199254740992)) 100)
              = 99%Z) by (vm_compute; reflexivity).
  rewrite <- C. apply percent_chain; [apply quot_nonneg|].
  apply quot_le_frac; [lia|].
  change (2 ^ 53)%Z with 9007199254740992%Z in Hb. lia.
Qed.

(** an index is at 0 percent exactly while [100 * i < total] *)
Lemma percent_zero_iff (total i : nat) :
  (0 < total)%nat -> (Z.of_nat total <= 2 ^ 53)%Z ->
  percent total i = 0%Z <-> (100 * i < total)%nat.
Proof.
  intros Hpos Hb. change (2 ^ 53)%Z with 9007199254740992%Z in Hb. split.
  - intros E. destruct (Nat.lt_ge_cases (100 * i) total) as [L|G]; [exact L|].
    exfalso.
    assert (C : py_int (fmul (round53 (1 # 100)) 100) = 1%Z)
      by (vm_compute; reflexivity).
    assert (H : (1 <= percent total i)%Z).
    { rewrite <- C. unfold percent, truediv. apply percent_chain.
      - discriminate.
      - apply frac_le_quot; lia. }
    lia.
  - intros L. apply Z.le_antisymm; [|apply percent_nonneg].
    assert (C : py_int (fmul (round53
                  (9007199254740991 # 900719925474099200)) 100) = 0%Z)
      by (vm_compute; reflexivity).
    rewrite <- C. unfold percent, truediv.
    apply percent_chain; [apply quot_nonneg|].
    apply quot_le_frac; lia.
Qed.

End Percent.

(** the model of the float operations gives what the machine gives, on every
    index of every batch of up to 48 channels, and of a batch of 100 *)
Example float_model_agrees_with_machine :
  forallb Machine.agree (seqZ 1 48 ++ [100]%Z) = true.
Proof. vm_compute. reflexivity. Qed.

(** the truncation sees the rounding of the product: 29 of 100 is 28 percent *)
Example percent_29_of_100 : Float64.percent 100 29 = 28%Z.
Proof. vm_compute. reflexivity. Qed.

Example percent_of_7 :
  map (Float64.percent 7) (seq 0 7) = [0; 14; 28; 42; 57; 71; 85]%Z.
Proof. vm_compute. reflexivity. Qed.

(** ** Standard output *)
Section StdoutFacts.
Import Stdout.

Lemma encodable_app (a b : pystr) :
  encodable (a ++ b) = encodable a && encodable b.
Proof. apply forallb_app. Qed.

Lemma encodable_py (s : string) : encodable (py s) = true.
Proof.
  unfold encodable, py. apply forallb_forall. intros c Hc.
  apply in_map_iff in Hc as (a & <- & _).
  pose proof (Ascii.N_ascii_bounded a) as Ha.
  unfold surrogate.
  destruct (N.leb_spec 55296 (Ascii.N_of_ascii a)); [lia|reflexivity].
Qed.

Lemma encodable_str_of_int (z : Z) : encodable (str_of_int z) = true.
Proof. apply encodable_py. Qed.

Lemma encodable_take (n : nat) (text : pystr) :
  encodable text = true -> encodable (take n text) = true.
Proof.
  unfold encodable. rewrite !forallb_forall. intros H c Hc.
  apply H. apply list_elem_of_In. apply list_elem_of_In in Hc.
  apply elem_of_take in Hc as (i & Hi & _).
  apply list_elem_of_lookup. eauto.
Qed.

Lemma print_return (text : pystr) :
  print text = Return tt <-> encodable text = true.
Proof.
  unfold print. destruct (encodable text); split; congruence.
Qed.

Lemma print_raise (text : pystr) (e : exn) :
  print text = Raise e <->
  encodable text = false /\ e = UnicodeEncodeError text.
Proof.
  unfold print. destruct (encodable text); split.
  - discriminate.
  - intros [H _]. discriminate.
  - intros [= <-]. auto.
  - intros [_ ->]. reflexivity.
Qed.

End StdoutFacts.

(** ** The probe executor *)
Section ProbeFacts.
Import Stdout StreamChecker.
Variable utf8_decode_ignore : list Byte.byte -> pystr.
Variable b64encode : list Byte.byte -> pystr.

Local Notation "'probe_of'" := (check_stream_visual utf8_decode_ignore b64encode).
Local Notation "'guarded_of'" := (guarded utf8_decode_ignore b64encode).

Lemma usable_file_spec (f : option (list Byte.byte)) :
  usable_file f = true <-> exists img, f = Some img /\ 0 < length img.
Proof.
  split.
  - destruct f as [[|b img]|]; simpl; intros H; try discriminate.
    exists (b :: img). split; [reflexivity|simpl; lia].
  - intros (img & -> & Hlen). destruct img; simpl in *; [lia|reflexivity].
Qed.

(** the command can be printed exactly when the path of the tool, the URL
    and the name of the temporary file can *)
Lemma command_line_encodable (exe url tmp : pystr) :
  encodable (command_line (cmd exe url tmp))
  = encodable exe && encodable url && encodable tmp.
Proof.
  unfold command_line, cmd. cbn [join_space].
  rewrite !encodable_app, !encodable_py.
  change (encodable [25191; 34892; 25130; 22270; 21629; 20196]%N) with true.
  destruct (encodable exe), (encodable url), (encodable tmp); reflexivity.
Qed.

(** the set-up returns exactly when the world gives a path and a file name
    and the command can be printed *)
Lemma setup_return (url : pystr) (w : tool_world) (c : list pystr) :
  setup url w = Return c <->
  exists exe tmp,
    ffmpeg_exe w = Return exe /\ temp_filename w = Return tmp
    /\ encodable exe = true /\ encodable url = true /\ encodable tmp = true
    /\ c = cmd exe url tmp.
Proof.
  unfold setup, print, mbind, outcome_bind.
  destruct (ffmpeg_exe w) as [exe|e1].
  2:{ split; [discriminate|]. intros (? & ? & H & _). discriminate. }
  destruct (temp_filename w) as [tmp|e2].
  2:{ split; [discriminate|]. intros (? & ? & _ & H & _). discriminate. }
  rewrite command_line_encodable.
  split.
  - destruct (encodable exe) eqn:E1; [|discriminate].
    destruct (encodable url) eqn:E2; [|discriminate].
    destruct (encodable tmp) eqn:E3; [|discriminate].
    simpl. intros [= <-]. exists exe, tmp.
    repeat split; assumption || reflexivity.
  - intros (exe' & tmp' & [= <-] & [= <-] & -> & -> & -> & ->). reflexivity.
Qed.

Lemma probe_unfold (url : pystr) (w : tool_world) :
  probe_of url w = (_ ← setup url w; guarded_of url w).
Proof. reflexivity. Qed.

(** the probe returns a dict exactly when the set-up returns and the
    guarded block returns that dict *)
Lemma probe_return (url : pystr) (w : tool_world) (r : probe_dict) :
  probe_of url w = Return r <->
  (exists c, setup url w = Return c) /\ guarded_of url w = Return r.
Proof.
  rewrite probe_unfold. destruct (setup url w) as [c|e]; simpl; split.
  - intros H. split; [eauto|exact H].
  - intros [_ H]. exact H.
  - discriminate.
  - intros [[c H] _]. discriminate.
Qed.

(** how the guarded block ends, by how the run of the tool ends *)
Lemma guarded_completed (url : pystr) (w : tool_world) (cp : CompletedProcess) :
  run_ffmpeg w = Return cp ->
  exists r, guarded_of url w = Return r /\ p_url r = url
    /\ (p_status r = true <->
        returncode cp = 0%Z /\ usable_file (temp_file w) = true)
    /\ (p_status r = true ->
        p_image r
        = Some (py "data:image/jpeg;base64," ++ b64encode (default [] (temp_file w)))
        /\ p_error r = None)
    /\ (p_status r = false ->
        p_image r = None /\ exists m, p_error r = Some m /\ length m <= 100).
Proof.
  intros E. unfold guarded. rewrite E. simpl.
  destruct (returncode cp =? 0)%Z eqn:Erc; simpl.
  - apply Z.eqb_eq in Erc.
    destruct (usable_file (temp_file w)) eqn:Ef; eexists;
      (split; [reflexivity|]); (split; [reflexivity|]); simpl.
    + split; [tauto|]. split; [auto|discriminate].
    + split; [split; [discriminate|intros [_ H]; discriminate]|].
      split; [discriminate|]. intros _. split; [reflexivity|].
      eexists. split; [reflexivity|]. rewrite length_take. lia.
  - apply Z.eqb_neq in Erc. eexists.
    split; [reflexivity|]. split; [reflexivity|]. simpl.
    split; [split; [discriminate|intros [H _]; contradiction]|].
    split; [discriminate|]. intros _. split; [reflexivity|].
    eexists. split; [reflexivity|]. rewrite length_take. lia.
Qed.

Lemma guarded_timeout (url : pystr) (w : tool_world) :
  run_ffmpeg w = Raise TimeoutExpired ->
  guarded_of url w
  = Return {| p_url := url; p_status := false; p_image := None;
              p_error := Some (py "Detection Timeout") |}.
Proof. intros E. unfold guarded. rewrite E. reflexivity. Qed.

Lemma guarded_exception (url : pystr) (w : tool_world) (msg : pystr) :
  run_ffmpeg w = Raise (OtherException msg) ->
  guarded_of url w
  = if encodable msg
    then Return {| p_url := url; p_status := false; p_image := None;
                   p_error := Some msg |}
    else Raise (UnicodeEncodeError (exception_line msg)).
Proof.
  intros E. unfold guarded. rewrite E. simpl. unfold print, exception_line.
  rewrite !encodable_app, !encodable_py.
  change (encodable [36816; 34892; 24322; 24120]%N) with true. simpl.
  destruct (encodable msg); reflexivity.
Qed.

(** the guarded block raises only from the print of its second handler *)
Lemma guarded_raise (url : pystr) (w : tool_world) (e : exn) :
  guarded_of url w = Raise e <->
  exists msg, run_ffmpeg w = Raise (OtherException msg)
              /\ encodable msg = false
              /\ e = UnicodeEncodeError (exception_line msg).
Proof.
  destruct (run_ffmpeg w) as [cp|[|msg]] eqn:E.
  - destruct (guarded_completed url w cp E) as (r & -> & _).
    split; [discriminate|]. intros (msg & H & _). discriminate.
  - rewrite (guarded_timeout url w E).
    split; [discriminate|]. intros (msg & H & _). discriminate.
  - rewrite (guarded_exception url w msg E).
    destruct (encodable msg) eqn:Em; split.
    + discriminate.
    + intros (msg' & [= <-] & H & _). congruence.
    + intros [= <-]. eauto.
    + intros (msg' & [= <-] & _ & ->). reflexivity.
Qed.

(** a dict that the probe returns has the shape the writeback relies on *)
Lemma guarded_shape (url : pystr) (w : tool_world) (r : probe_dict) :
  guarded_of url w = Return r ->
  p_url r = url
  /\ if p_status r then is_Some (p_image r) /\ p_error r = None
     else p_image r = None /\ is_Some (p_error r).
Proof.
  destruct (run_ffmpeg w) as [cp|[|msg]] eqn:E.
  - destruct (guarded_completed url w cp E) as (r' & -> & Hu & _ & Hs & Hf).
    intros [= <-]. split; [exact Hu|].
    destruct (p_status r'); [destruct (Hs eq_refl) as [-> ->]; eauto|].
    destruct (Hf eq_refl) as (-> & m & -> & _). eauto.
  - rewrite (guarded_timeout url w E). intros [= <-]. simpl. eauto.
  - rewrite (guarded_exception url w msg E).
    destruct (encodable msg); [|discriminate]. intros [= <-]. simpl. eauto.
Qed.

End ProbeFacts.

(** C5: the probe executor turns every outcome of the run of the tool into a
    dict, but only from its [try] on.  What the statements before the [try]
    raise (the call of [get_ffmpeg_path], the name of the temporary file, the
    print of the command) reaches the caller.  Once they have gone through,
    the probe returns a dict that says success exactly when the tool exited
    with code zero and left a non-empty output file, and then carries the
    file's bytes as a [data:] image; a timeout of the run gives a failure
    with the fixed message "Detection Timeout"; any other exception gives a
    failure with the exception's own message, unless that message cannot be
    printed, in which case the print of the handler raises to the caller.
    The URL of one lone surrogate U+DC80 makes the print of the command
    raise [UnicodeEncodeError], with a tool that would have captured a
    frame. *)
Theorem C5_setup_raises_to_the_caller
    (utf8_decode_ignore b64encode : list Byte.byte -> pystr)
    (url : pystr) (w : StreamChecker.tool_world) :
  (forall e, StreamChecker.setup url w = Raise e ->
     StreamChecker.check_stream_visual utf8_decode_ignore b64encode url w
     = Raise e)
  /\ (forall c, StreamChecker.setup url w = Return c ->
      (forall msg, StreamChecker.run_ffmpeg w = Raise (OtherException msg) ->
                   Stdout.encodable msg = true) ->
      exists r : StreamChecker.probe_dict,
        StreamChecker.check_stream_visual utf8_decode_ignore b64encode url w
        = Return r
        /\ StreamChecker.p_url r = url
        /\ (StreamChecker.p_status r = true <->
            exists cp img,
              StreamChecker.run_ffmpeg w = Return cp
              /\ StreamChecker.returncode cp = 0%Z
              /\ StreamChecker.temp_file w = Some img /\ 0 < length img)
        /\ (StreamChecker.p_status r = true ->
            exists img,
              StreamChecker.temp_file w = Some img
              /\ StreamChecker.p_image r
                 = Some (py "data:image/jpeg;base64," ++ b64encode img)
              /\ StreamChecker.p_error r = None)
        /\ (StreamChecker.run_ffmpeg w = Raise TimeoutExpired ->
            StreamChecker.p_status r = false
            /\ StreamChecker.p_image r = None
            /\ StreamChecker.p_error r = Some (py "Detection Timeout"))
        /\ (forall msg,
              StreamChecker.run_ffmpeg w = Raise (OtherException msg) ->
              StreamChecker.p_status r = false
              /\ StreamChecker.p_image r = None
              /\ StreamChecker.p_error r = Some msg))
  /\ (forall c msg,
        StreamChecker.setup url w = Return c ->
        StreamChecker.run_ffmpeg w = Raise (OtherException msg) ->
        Stdout.encodable msg = false ->
        StreamChecker.check_stream_visual utf8_decode_ignore b64encode url w
        = Raise (Stdout.UnicodeEncodeError (StreamChecker.exception_line msg)))
  /\ StreamChecker.check_stream_visual utf8_decode_ignore b64encode
       [56448]%N Samples.frame_ok
     = Raise (OtherException
                (py "'utf-8' codec can't encode character '\udc80' in position 91: surrogates not allowed")).
Proof.
  split; [|split; [|split]].
  - intros e E. rewrite probe_unfold, E. reflexivity.
  - intros c E Hmsg. rewrite probe_unfold, E.
    change (_ ← Return c; ?k) with k.
    destruct (StreamChecker.run_ffmpeg w) as [cp|[|msg]] eqn:Erun.
    + destruct (guarded_completed utf8_decode_ignore b64encode url w cp Erun)
        as (r & Hr & Hu & Hs & Himg & Hf).
      exists r. split; [exact Hr|]. split; [exact Hu|]. split; [|split].
      * rewrite Hs, usable_file_spec. split.
        -- intros (Hrc & img & Hi & Hl). exists cp, img. auto.
        -- intros (cp' & img & [= <-] & Hrc & Hi & Hl). eauto.
      * intros Ht. destruct (Himg Ht) as [Hi He].
        apply Hs in Ht as [_ Hf']. apply usable_file_spec in Hf' as (img & Ei & _).
        exists img. rewrite Ei in Hi. auto.
      * split; [discriminate|]. intros msg H. discriminate.
    + rewrite (guarded_timeout utf8_decode_ignore b64encode url w Erun).
      eexists. split; [reflexivity|]. split; [reflexivity|]. simpl.
      split; [split; [discriminate|intros (? & ? & H & _); discriminate]|].
      split; [discriminate|]. split; [auto|]. intros msg H. discriminate.
    + rewrite (guarded_exception utf8_decode_ignore b64encode url w msg Erun).
      rewrite (Hmsg msg eq_refl).
      eexists. split; [reflexivity|]. split; [reflexivity|]. simpl.
      split; [split; [discriminate|intros (? & ? & H & _); discriminate]|].
      split; [discriminate|]. split; [discriminate|].
      intros msg' [= <-]. auto.
  - intros c msg E Erun Hm. rewrite probe_unfold, E.
    change (_ ← Return c; ?k) with k.
    rewrite (guarded_exception utf8_decode_ignore b64encode url w msg Erun), Hm.
    reflexivity.
  - vm_compute. reflexivity.
Qed.

(** C8: a failure dict of the probe executor carries a bounded message on
    the paths where the run completed (no usable output, crash: at most 100
    code points) and on the timeout path (the fixed 17 code points); on the
    path of any other exception the message is [str(e)] whole: an exception
    whose text has 150 code points yields an error of 150 code points.  The
    dicts are those of a probe whose statements before the [try] have gone
    through, as they do for the URL "http://a". *)
Theorem C8_exception_message_not_truncated
    (utf8_decode_ignore b64encode : list Byte.byte -> pystr) (url : pystr) :
  (forall w cp r m,
      StreamChecker.run_ffmpeg w = Return cp ->
      StreamChecker.check_stream_visual utf8_decode_ignore b64encode url w
      = Return r ->
      StreamChecker.p_error r = Some m -> length m <= 100)
  /\ (forall w c,
        StreamChecker.setup url w = Return c ->
        StreamChecker.run_ffmpeg w = Raise TimeoutExpired ->
        exists r m,
          StreamChecker.check_stream_visual utf8_decode_ignore b64encode url w
          = Return r
          /\ StreamChecker.p_error r = Some m /\ length m = 17)
  /\ (forall w c,
        StreamChecker.setup url w = Return c ->
        StreamChecker.run_ffmpeg w
        = Raise (OtherException (replicate 150 120%N)) ->
        exists r m,
          StreamChecker.check_stream_visual utf8_decode_ignore b64encode url w
          = Return r
          /\ StreamChecker.p_status r = false
          /\ StreamChecker.p_error r = Some m /\ length m = 150)
  /\ (exists r m,
        StreamChecker.check_stream_visual utf8_decode_ignore b64encode
          (py "http://a")
          {| StreamChecker.ffmpeg_exe := Return (py "ffmpeg");
             StreamChecker.temp_filename := Return (py "/tmp/capture_1.jpg");
             StreamChecker.run_ffmpeg :=
               Raise (OtherException (replicate 150 120%N));
             StreamChecker.temp_file := None |} = Return r
        /\ StreamChecker.p_status r = false
        /\ StreamChecker.p_error r = Some m /\ length m = 150).
Proof.
  split; [|split; [|split]].
  - intros w cp r m Erun Hr Hm.
    apply probe_return in Hr as [_ Hr].
    destruct (guarded_completed utf8_decode_ignore b64encode url w cp Erun)
      as (r' & Hr' & _ & _ & Hs & Hf).
    rewrite Hr' in Hr. injection Hr as <-.
    destruct (StreamChecker.p_status r') eqn:Es.
    + destruct (Hs eq_refl) as [_ He]. congruence.
    + destruct (Hf eq_refl) as (_ & m' & He & Hl). congruence.
  - intros w c E Erun. rewrite probe_unfold, E.
    change (_ ← Return c; ?k) with k.
    rewrite (guarded_timeout utf8_decode_ignore b64encode url w Erun).
    eexists _, _. split; [reflexivity|]. split; reflexivity.
  - intros w c E Erun. rewrite probe_unfold, E.
    change (_ ← Return c; ?k) with k.
    rewrite (guarded_exception utf8_decode_ignore b64encode url w _ Erun).
    assert (Hx : Stdout.encodable (replicate 150 120%N) = true)
      by (vm_compute; reflexivity).
    rewrite Hx.
    eexists _, _. split; [reflexivity|]. split; [reflexivity|].
    split; [reflexivity|]. apply length_replicate.
  - eexists _, _. split; [vm_compute; reflexivity|].
    split; [reflexivity|]. split; [reflexivity|]. vm_compute. reflexivity.
Qed.

(** ** The tasks of one batch *)
Section BatchFacts.
Import StreamChecker.
Variable utf8_decode_ignore : list Byte.byte -> pystr.
Variable b64encode : list Byte.byte -> pystr.
Variable total : nat.
Variable task_id : option pystr.
Variable world : nat -> task_world.

Local Notation "'probe_of'" := (check_stream_visual utf8_decode_ignore b64encode).
Local Notation "'tasks_of'" :=
  (run_tasks utf8_decode_ignore b64encode total task_id world).

(** the first step of a task, spelled out *)
Lemma bounded_check_eq (i : nat) (ch : Channel) (w : task_world)
    (st : runner_state) :
  _bounded_check utf8_decode_ignore b64encode total task_id i ch w st
  = if should_report (last_of task_id st) (Float64.percent total i)
    then ({| attrs := <[attr_name task_id := Float64.percent total i]> (attrs st);
             sent := sent st ++ [report_of total i ch] |},
          calls_probe total i ch (sink w),
          probe_and_return utf8_decode_ignore b64encode total i ch w (sink w))
    else (st, calls_probe total i ch (Return tt),
          probe_and_return utf8_decode_ignore b64encode total i ch w (Return tt)).
Proof.
  unfold _bounded_check, last_of.
  destruct (should_report _ _); reflexivity.
Qed.

Lemma run_tasks_cons (i : nat) (ch : Channel) (rest : list (nat * Channel))
    (st : runner_state) :
  tasks_of ((i, ch) :: rest) st
  = let b := _bounded_check utf8_decode_ignore b64encode total task_id i ch
               (world i) st in
    let rest_end := tasks_of rest b.1.1 in
    {| shared := shared rest_end;
       probing := (if b.1.2 then [i] else []) ++ probing rest_end;
       outcomes := b.2 :: outcomes rest_end |}.
Proof.
  simpl.
  destruct (_bounded_check _ _ _ _ _ _ _ _) as [[st1 probes] o]. reflexivity.
Qed.

Lemma last_of_reported (st : runner_state) (p : Z) (rs : list report) :
  last_of task_id {| attrs := <[attr_name task_id := p]> (attrs st); sent := rs |} = p.
Proof. unfold last_of. simpl. rewrite lookup_insert_eq. reflexivity. Qed.

(** the calls made to the sink are those of [throttle] *)
Lemma run_tasks_sent (tasks : list (nat * Channel)) (st : runner_state) :
  sent (shared (tasks_of tasks st))
  = sent st ++ throttle total (last_of task_id st) tasks.
Proof.
  revert st. induction tasks as [|[i ch] rest IH]; intros st.
  - simpl. rewrite app_nil_r. reflexivity.
  - rewrite run_tasks_cons. cbv zeta. cbn [shared].
    rewrite IH, bounded_check_eq. simpl throttle.
    destruct (should_report (last_of task_id st) (Float64.percent total i)).
    + cbn [fst]. rewrite last_of_reported. simpl sent.
      rewrite <- app_assoc. reflexivity.
    + reflexivity.
Qed.

(** the tasks change no attribute but the batch's own *)
Lemma run_tasks_attrs (tasks : list (nat * Channel)) (st : runner_state)
    (a : pystr) :
  a <> attr_name task_id ->
  attrs (shared (tasks_of tasks st)) !! a = attrs st !! a.
Proof.
  intros Ha. revert st. induction tasks as [|[i ch] rest IH]; intros st.
  - reflexivity.
  - rewrite run_tasks_cons. cbv zeta. cbn [shared].
    rewrite IH, bounded_check_eq.
    destruct (should_report _ _); [|reflexivity].
    simpl. rewrite lookup_insert_ne by congruence. reflexivity.
Qed.

Lemma run_tasks_length (tasks : list (nat * Channel)) (st : runner_state) :
  length (outcomes (tasks_of tasks st)) = length tasks.
Proof.
  revert st. induction tasks as [|[i ch] rest IH]; intros st.
  - reflexivity.
  - rewrite run_tasks_cons. cbv zeta. cbn [outcomes length].
    rewrite IH. reflexivity.
Qed.

End BatchFacts.

(** ** The progress throttle *)
Section ThrottleFacts.
Import StreamChecker.
Variable total : nat.

Lemma should_report_spec (last_progress progress : Z) :
  should_report last_progress progress = true <->
  progress = 0%Z \/ progress = 100%Z \/ (last_progress + 2 <= progress)%Z.
Proof.
  unfold should_report.
  destruct (Z.eqb_spec progress 0), (Z.eqb_spec progress 100),
    (Z.leb_spec 2 (progress - last_progress)); simpl;
    split; intros Hyp; try reflexivity; try discriminate; lia.
Qed.

Lemma last_after_cons (l : Z) (r : report) (rs : list report) :
  last_after l (r :: rs) = last_after (r_progress r) rs.
Proof.
  unfold last_after. simpl map. rewrite last_cons.
  destruct (last (map r_progress rs)); reflexivity.
Qed.

Lemma throttle_app (xs ys : list (nat * Channel)) (l : Z) :
  throttle total l (xs ++ ys)
  = throttle total l xs
    ++ throttle total (last_after l (throttle total l xs)) ys.
Proof.
  revert l. induction xs as [|[i ch] xs IH]; intros l.
  - reflexivity.
  - simpl. destruct (should_report l (Float64.percent total i)).
    + rewrite last_after_cons. simpl. rewrite IH. reflexivity.
    + apply IH.
Qed.

(** a report comes from a task, and carries that task's percentage *)
Lemma throttle_elem (tasks : list (nat * Channel)) (l : Z) (r : report) :
  r ∈ throttle total l tasks ->
  r_progress r = Float64.percent total (r_index r)
  /\ exists ch, (r_index r, ch) ∈ tasks.
Proof.
  revert l. induction tasks as [|[i ch] rest IH]; intros l; simpl.
  - intros H. apply elem_of_nil in H. contradiction.
  - destruct (should_report l (Float64.percent total i)).
    + intros [->|H]%elem_of_cons.
      * split; [reflexivity|]. exists ch. left.
      * destruct (IH _ H) as (Hp & ch' & Hin).
        split; [exact Hp|]. exists ch'. right. exact Hin.
    + intros H. destruct (IH _ H) as (Hp & ch' & Hin).
      split; [exact Hp|]. exists ch'. right. exact Hin.
Qed.

(** tasks in the order of their indices report non-decreasing percentages *)
Lemma throttle_sorted (tasks : list (nat * Channel)) (l : Z) :
  StronglySorted (fun a b => a.1 <= b.1) tasks ->
  StronglySorted Z.le (map r_progress (throttle total l tasks)).
Proof.
  intros Hs. revert l. induction Hs as [|[i ch] rest Hs IH Hall]; intros l; simpl.
  - constructor.
  - destruct (should_report l (Float64.percent total i)); [|apply IH].
    simpl. constructor; [apply IH|].
    apply Forall_forall. intros p Hp.
    apply list_elem_of_fmap in Hp as (r & -> & Hr).
    apply throttle_elem in Hr as (-> & ch' & Hin).
    apply percent_mono.
    rewrite Forall_forall in Hall.
    apply (Hall (r_index r, ch')), Hin.
Qed.

(** while the percentage is 0 every task reports *)
Lemma throttle_zeros (tasks : list (nat * Channel)) (l : Z) :
  Forall (fun t => Float64.percent total t.1 = 0%Z) tasks ->
  length (throttle total l tasks) = length tasks
  /\ (tasks <> [] -> last_after l (throttle total l tasks) = 0%Z).
Proof.
  intros H. revert l. induction H as [|[i ch] rest Hi Hrest IH]; intros l.
  - split; [reflexivity|congruence].
  - simpl in *. rewrite Hi. simpl.
    destruct (IH 0%Z) as [IH1 IH2].
    split; [rewrite IH1; reflexivity|]. intros _.
    rewrite last_after_cons. simpl.
    destruct rest as [|t rest']; [reflexivity|].
    apply IH2. congruence.
Qed.

(** between 1 and 99 percent every report is at least 2 points above the one
    before *)
Lemma throttle_advance_bound (tasks : list (nat * Channel)) (l : Z) :
  Forall (fun t => (1 <= Float64.percent total t.1 <= 99)%Z) tasks ->
  (l <= 99)%Z ->
  (2 * Z.of_nat (length (throttle total l tasks)) <= 99 - l)%Z.
Proof.
  intros H. revert l. induction H as [|[i ch] rest Hi Hrest IH]; intros l Hl.
  - simpl. lia.
  - simpl in *.
    destruct (should_report l (Float64.percent total i)) eqn:E.
    + apply should_report_spec in E.
      specialize (IH (Float64.percent total i)). simpl length. lia.
    + apply IH, Hl.
Qed.

End ThrottleFacts.

(** ** The reports of one batch *)
Section ReportFacts.
Import StreamChecker.

Lemma enumerate_from_app {A : Type} (k : nat) (l1 l2 : list A) :
  enumerate_from k (l1 ++ l2)
  = enumerate_from k l1 ++ enumerate_from (k + length l1) l2.
Proof.
  revert k. induction l1 as [|x l1 IH]; intros k; simpl.
  - rewrite Nat.add_0_r. reflexivity.
  - rewrite IH. replace (S k + length l1) with (k + S (length l1)) by lia.
    reflexivity.
Qed.

Lemma length_enumerate_from {A : Type} (k : nat) (l : list A) :
  length (enumerate_from k l) = length l.
Proof. revert k. induction l as [|x l IH]; intros k; simpl; [|rewrite IH]; reflexivity. Qed.

Lemma enumerate_from_elem {A : Type} (k : nat) (l : list A) (j : nat) (x : A) :
  (j, x) ∈ enumerate_from k l -> k <= j < k + length l.
Proof.
  revert k. induction l as [|y l IH]; intros k; simpl.
  - intros H. apply elem_of_nil in H. contradiction.
  - intros [[= -> ->]|H]%elem_of_cons; [lia|].
    apply IH in H. lia.
Qed.

Lemma enumerate_from_sorted {A : Type} (k : nat) (l : list A) :
  StronglySorted (fun a b : nat * A => a.1 <= b.1) (enumerate_from k l).
Proof.
  revert k. induction l as [|x l IH]; intros k; simpl; constructor.
  - apply IH.
  - apply Forall_forall. intros [j y] H. apply enumerate_from_elem in H.
    simpl. lia.
Qed.

Variable utf8_decode_ignore : list Byte.byte -> pystr.
Variable b64encode : list Byte.byte -> pystr.

Local Notation "'batch'" := (run_batch_check utf8_decode_ignore b64encode).

(** the reports of a batch are those of the throttle over the enumerated
    channels, started from the attribute's value at the call *)
Lemma batch_reports_throttle (st : runner_state) (db : gmap Z Channel)
    (channels : list Channel) (source : pystr) (task_id : option pystr)
    (world : nat -> task_world) (utcnow : nat -> Z) :
  batch_reports st (batch st db channels source task_id world utcnow)
  = throttle (length channels) (last_of task_id st) (enumerate channels).
Proof.
  unfold batch_reports, run_batch_check.
  destruct channels as [|c channels].
  - simpl. apply drop_all.
  - set (chs := c :: channels).
    pose proof (run_tasks_sent utf8_decode_ignore b64encode (length chs)
                  task_id world (enumerate chs) st) as Hsent.
    cbv zeta.
    destruct (gather _ _); cbn [final_state sent]; rewrite Hsent;
      apply drop_app_length.
Qed.

End ReportFacts.

(** C7: within one batch the percentages sent to the progress sink never
    decrease: the list of the percentages of the reports, in the order in
    which they are sent, is sorted. *)
Theorem C7_progress_reports_non_decreasing
    (utf8_decode_ignore b64encode : list Byte.byte -> pystr)
    (st : StreamChecker.runner_state) (db : gmap Z Channel)
    (channels : list Channel) (source : pystr) (task_id : option pystr)
    (world : nat -> StreamChecker.task_world) (utcnow : nat -> Z) :
  StronglySorted Z.le
    (map StreamChecker.r_progress
       (StreamChecker.batch_reports st
          (StreamChecker.run_batch_check utf8_decode_ignore b64encode
             st db channels source task_id world utcnow))).
Proof.
  rewrite batch_reports_throttle.
  apply throttle_sorted, enumerate_from_sorted.
Qed.

(** C9: on the empty channel sequence the batch runner returns at once: it
    sends no progress report, leaves the shared state as it was, and writes
    nothing back (the storage is unchanged). *)
Theorem C9_empty_batch_is_a_no_op
    (utf8_decode_ignore b64encode : list Byte.byte -> pystr)
    (st : StreamChecker.runner_state) (db : gmap Z Channel)
    (source : pystr) (task_id : option pystr)
    (world : nat -> StreamChecker.task_world) (utcnow : nat -> Z) :
  let b := StreamChecker.run_batch_check utf8_decode_ignore b64encode
             st db [] source task_id world utcnow in
  StreamChecker.returned b = Return tt
  /\ StreamChecker.batch_reports st b = []
  /\ StreamChecker.final_state b = st
  /\ StreamChecker.storage b = db.
Proof.
  simpl. repeat split. unfold StreamChecker.batch_reports. simpl. apply drop_all.
Qed.

(** ** Which tasks report, and how many *)
Section ThrottleCount.
Import StreamChecker.
Variable total : nat.

Lemma filter_keep_all {A : Type} (P : A -> Prop) `{!forall x, Decision (P x)}
    (l : list A) :
  Forall P l -> filter P l = l.
Proof.
  induction 1 as [|x l Hx Hl IH]; [reflexivity|].
  rewrite filter_cons_True by exact Hx. rewrite IH. reflexivity.
Qed.

Lemma filter_drop_all {A : Type} (P : A -> Prop) `{!forall x, Decision (P x)}
    (l : list A) :
  Forall (fun x => ~ P x) l -> filter P l = [].
Proof.
  induction 1 as [|x l Hx Hl IH]; [reflexivity|].
  rewrite filter_cons_False by exact Hx. exact IH.
Qed.

Lemma throttle_index_range (k : nat) (chs : list Channel) (l : Z) :
  Forall (fun r => k <= r_index r < k + length chs)
         (throttle total l (enumerate_from k chs)).
Proof.
  apply Forall_forall. intros r Hr.
  apply throttle_elem in Hr as (_ & ch & Hin).
  apply enumerate_from_elem in Hin. exact Hin.
Qed.

(** the first task always reports: its percentage is 0 *)
Lemma throttle_first (c : Channel) (chs : list Channel) (l : Z) :
  throttle total l (enumerate_from 0 (c :: chs))
  = report_of total 0 c :: throttle total 0 (enumerate_from 1 chs).
Proof.
  simpl. rewrite percent_first. reflexivity.
Qed.

Lemma throttle_exact (channels : list Channel) (l0 : Z) (i : nat) :
  i < length channels ->
  let rs := throttle total l0 (enumerate channels) in
  (exists r, r ∈ rs /\ r_index r = i) <->
  (Float64.percent total i = 0%Z \/ Float64.percent total i = 100%Z
   \/ exists l, last_reported_before i rs = Some l
                /\ (l + 2 <= Float64.percent total i)%Z).
Proof.
  intros Hi rs.
  destruct (lookup_lt_is_Some_2 channels i Hi) as [ch Hch].
  apply list_elem_of_split_length in Hch as (pre & post & Hsplit & Hlen).
  set (p := Float64.percent total i).
  set (R1 := throttle total l0 (enumerate_from 0 pre)).
  set (l1 := last_after l0 R1).
  assert (F1 : Forall (fun r => r_index r < i) R1).
  { eapply Forall_impl; [apply throttle_index_range|].
    simpl. intros r Hr. lia. }
  assert (F3 : forall l, Forall (fun r => ~ r_index r < i /\ r_index r <> i)
                           (throttle total l (enumerate_from (S i) post))).
  { intros l. eapply Forall_impl; [apply throttle_index_range|].
    simpl. intros r Hr. lia. }
  assert (Hrs : rs = R1 ++ (if should_report l1 p then [report_of total i ch] else [])
                        ++ throttle total (if should_report l1 p then p else l1)
                             (enumerate_from (S i) post)).
  { unfold rs, enumerate. rewrite Hsplit, enumerate_from_app, throttle_app.
    fold R1 l1. f_equal. simpl. rewrite <- Hlen. fold p.
    destruct (should_report l1 p); reflexivity. }
  assert (Hbefore : last_reported_before i rs = last (map r_progress R1)).
  { unfold last_reported_before. rewrite Hrs, !filter_app.
    rewrite (filter_keep_all _ R1 F1).
    rewrite (filter_drop_all _ (throttle _ _ _)).
    2:{ eapply Forall_impl; [apply F3|]. simpl. intros r [H _]. exact H. }
    rewrite (filter_drop_all _ (if should_report l1 p then _ else _)).
    2:{ destruct (should_report l1 p); repeat constructor. simpl. lia. }
    rewrite !app_nil_r. reflexivity. }
  assert (Hrep : (exists r, r ∈ rs /\ r_index r = i) <-> should_report l1 p = true).
  { rewrite Hrs. split.
    - intros (r & Hr & Hri).
      apply elem_of_app in Hr as [Hr|Hr].
      { rewrite Forall_forall in F1. apply F1 in Hr. lia. }
      apply elem_of_app in Hr as [Hr|Hr].
      + destruct (should_report l1 p); [reflexivity|].
        apply elem_of_nil in Hr. contradiction.
      + pose proof (F3 (if should_report l1 p then p else l1)) as F.
        rewrite Forall_forall in F. apply F in Hr. lia.
    - intros ->. exists (report_of total i ch). split; [|reflexivity].
      apply elem_of_app. right. apply elem_of_app. left. left. }
  rewrite Hrep, Hbefore, should_report_spec. fold p.
  unfold l1, last_after.
  destruct (last (map r_progress R1)) as [l|] eqn:El; simpl.
  - split.
    + intros [H|[H|H]]; eauto.
    + intros [H|[H|(l' & [= <-] & H)]]; auto.
  - assert (Hzero : p = 0%Z).
    { destruct pre as [|c pre].
      - unfold p. rewrite Hlen. simpl. apply percent_first.
      - unfold R1 in El. rewrite throttle_first in El. simpl in El.
        rewrite last_cons in El. destruct (last _); discriminate. }
    split; [auto|]. intros _. auto.
Qed.

End ThrottleCount.

Lemma ceil_div_100 (N : nat) :
  100 * ((N + 99) / 100) <= N + 99 /\ N < 100 * ((N + 99) / 100) + 1.
Proof.
  pose proof (Nat.div_mod_eq (N + 99) 100).
  pose proof (Nat.mod_upper_bound (N + 99) 100). lia.
Qed.

(** the tasks at 0 percent all report, the later ones at most 49 times *)
Lemma throttle_count (channels : list Channel) (l0 : Z) :
  0 < length channels -> (Z.of_nat (length channels) <= 2 ^ 53)%Z ->
  (length channels + 99) / 100
  <= length (StreamChecker.throttle (length channels) l0
               (StreamChecker.enumerate channels))
  <= (length channels + 99) / 100 + 49.
Proof.
  intros Hpos Hb.
  set (N := length channels). set (z := (N + 99) / 100).
  pose proof (ceil_div_100 N) as Hz. fold z in Hz.
  assert (HzN : z <= N) by lia.
  assert (Hlt : length (take z channels) = z) by (rewrite length_take; lia).
  set (A := StreamChecker.enumerate_from 0 (take z channels)).
  set (B := StreamChecker.enumerate_from z (drop z channels)).
  assert (HlA : length A = z)
    by (unfold A; rewrite length_enumerate_from; exact Hlt).
  assert (HA : Forall (fun t => Float64.percent N t.1 = 0%Z) A).
  { apply Forall_forall. intros [j c] Hj. apply enumerate_from_elem in Hj.
    simpl. apply percent_zero_iff; [exact Hpos|exact Hb|]. lia. }
  assert (HB : Forall (fun t => (1 <= Float64.percent N t.1 <= 99)%Z) B).
  { apply Forall_forall. intros [j c] Hj. apply enumerate_from_elem in Hj.
    rewrite length_drop in Hj. simpl. split.
    - pose proof (percent_nonneg N j).
      assert (Float64.percent N j <> 0%Z).
      { intros E. apply percent_zero_iff in E; [|exact Hpos|exact Hb]. lia. }
      lia.
    - apply percent_le_99; [exact Hb|]. fold N in Hj. lia. }
  destruct (throttle_zeros N A l0 HA) as [HlenA HlastA].
  assert (E : length (StreamChecker.throttle N l0 (StreamChecker.enumerate channels))
              = z + length (StreamChecker.throttle N 0 B)).
  { unfold StreamChecker.enumerate.
    rewrite <- (take_drop z channels) at 1.
    rewrite enumerate_from_app, throttle_app, length_app, Hlt. simpl.
    fold A B. rewrite HlenA, HlastA, HlA; [reflexivity|].
    intros E. apply (f_equal length) in E. rewrite HlA in E. simpl in E. lia. }
  rewrite E.
  pose proof (throttle_advance_bound N B 0 HB).
  lia.
Qed.

(** the tasks whose percentage is 0 all report, and no task is at 100 *)
Lemma zero_percent_reports (channels : list Channel) (l0 : Z) :
  (Z.of_nat (length channels) <= 2 ^ 53)%Z ->
  let rs := StreamChecker.throttle (length channels) l0
              (StreamChecker.enumerate channels) in
  (forall i, 100 * i < length channels ->
     exists r, r ∈ rs /\ StreamChecker.r_index r = i
               /\ StreamChecker.r_progress r = 0%Z)
  /\ (forall r, r ∈ rs -> StreamChecker.r_progress r <> 100%Z).
Proof.
  intros Hb rs. split.
  - intros i Hi.
    assert (Hlt : i < length channels) by lia.
    assert (Hz : Float64.percent (length channels) i = 0%Z)
      by (apply percent_zero_iff; [lia|exact Hb|exact Hi]).
    destruct (proj2 (throttle_exact (length channels) channels l0 i Hlt)
                (or_introl Hz)) as (r & Hr & Hidx).
    exists r. split; [exact Hr|]. split; [exact Hidx|].
    apply throttle_elem in Hr as [Hp _]. rewrite Hp, Hidx. exact Hz.
  - intros r Hr. apply throttle_elem in Hr as (-> & ch & Hin).
    apply enumerate_from_elem in Hin.
    pose proof (percent_le_99 (length channels) (StreamChecker.r_index r) Hb).
    lia.
Qed.

(** C2: what the throttle of [_bounded_check] does.  A task reports exactly
    when its percentage [int((i / total) * 100)] is 0, is 100, or is at
    least 2 above the percentage of the last report of the batch, and a
    report carries the percentage of its task.  For a batch of N channels (N
    at most 2^53) every task of the first hundredth of the batch is at 0
    percent and reports, no task is at 100 percent, and the number of
    reports lies between ceil(N/100) and ceil(N/100) + 49: it grows with the
    batch.  A batch of 10000 channels sends between 100 and 149 reports, of
    which the tasks 0 to 99 send one each, all at 0 percent. *)
Theorem C2_zero_percent_tasks_all_report
    (utf8_decode_ignore b64encode : list Byte.byte -> pystr)
    (st : StreamChecker.runner_state) (db : gmap Z Channel)
    (channels : list Channel) (source : pystr) (task_id : option pystr)
    (world : nat -> StreamChecker.task_world) (utcnow : nat -> Z) :
  let total := length channels in
  let rs := StreamChecker.batch_reports st
              (StreamChecker.run_batch_check utf8_decode_ignore b64encode
                 st db channels source task_id world utcnow) in
  let ten_thousand :=
    StreamChecker.batch_reports Samples.fresh
      (StreamChecker.run_batch_check Samples.latin1 Samples.latin1
         Samples.fresh ∅ (replicate (100 * 100) (Samples.channel 1 "a"))
         (py "manual") None (fun _ => Samples.quiet Samples.frame_ok)
         Samples.clock) in
  (forall i, i < total ->
     (exists r, r ∈ rs /\ StreamChecker.r_index r = i) <->
     (Float64.percent total i = 0%Z \/ Float64.percent total i = 100%Z
      \/ exists l, StreamChecker.last_reported_before i rs = Some l
                   /\ (l + 2 <= Float64.percent total i)%Z))
  /\ (forall r, r ∈ rs ->
       StreamChecker.r_progress r
       = Float64.percent total (StreamChecker.r_index r))
  /\ (0 < total -> (Z.of_nat total <= 2 ^ 53)%Z ->
      (total + 99) / 100 <= length rs <= (total + 99) / 100 + 49)
  /\ ((Z.of_nat total <= 2 ^ 53)%Z ->
      (forall i, 100 * i < total ->
         exists r, r ∈ rs /\ StreamChecker.r_index r = i
                   /\ StreamChecker.r_progress r = 0%Z)
      /\ (forall r, r ∈ rs -> StreamChecker.r_progress r <> 100%Z))
  /\ (100 <= length ten_thousand <= 149
      /\ forall i, i < 100 ->
           exists r, r ∈ ten_thousand /\ StreamChecker.r_index r = i
                     /\ StreamChecker.r_progress r = 0%Z).
Proof.
  intros total rs ten. unfold rs, ten. rewrite !batch_reports_throttle.
  split; [|split; [|split; [|split]]].
  - intros i Hi. apply (throttle_exact total channels _ i Hi).
  - intros r Hr. apply throttle_elem in Hr as [Hp _]. exact Hp.
  - apply throttle_count.
  - apply zero_percent_reports.
  - set (chs := replicate (100 * 100) (Samples.channel 1 "a")).
    assert (Hlen : length chs = 100 * 100) by apply length_replicate.
    assert (Hb : (Z.of_nat (length chs) <= 2 ^ 53)%Z)
      by (rewrite Hlen; vm_compute; discriminate).
    pose proof (throttle_count chs (StreamChecker.last_of None Samples.fresh))
      as Hcount.
    pose proof (zero_percent_reports chs
                  (StreamChecker.last_of None Samples.fresh) Hb) as [Hzero _].
    assert (E : (100 * 100 + 99) / 100 = 100) by (vm_compute; reflexivity).
    destruct Hcount as [Hlow Hhigh]; [rewrite Hlen; lia|exact Hb|].
    replace ((length chs + 99) / 100) with 100 in Hlow, Hhigh
      by (rewrite Hlen; symmetry; exact E).
    split.
    + split; [exact Hlow|exact Hhigh].
    + intros i Hi. apply Hzero. rewrite Hlen. lia.
Qed.

(** ** The permits *)
Section PoolFacts.
Import Pool.

Lemma in_flight_cons (t : pc) (ts : list pc) (n : nat) :
  in_flight {| permits := n; tasks := t :: ts |}
  = probing_weight t + in_flight {| permits := n; tasks := ts |}.
Proof.
  unfold in_flight, probing_weight. simpl tasks.
  rewrite filter_cons. destruct (decide (t = Probing)); reflexivity.
Qed.

(** overwriting one task changes the count by the difference of the weights *)
Lemma in_flight_insert (ts : list pc) (i : nat) (old new : pc) (n m : nat) :
  ts !! i = Some old ->
  in_flight {| permits := n; tasks := <[i := new]> ts |} + probing_weight old
  = in_flight {| permits := m; tasks := ts |} + probing_weight new.
Proof.
  revert i. induction ts as [|t ts IH]; intros i Hi.
  - discriminate.
  - destruct i as [|i]; simpl in Hi |- *.
    + injection Hi as ->. rewrite !in_flight_cons.
      unfold in_flight. simpl. lia.
    + rewrite !in_flight_cons. specialize (IH i Hi).
      unfold in_flight in *. simpl in *. lia.
Qed.

(** no event changes the sum of the free permits and the running probes *)
Lemma fire_balance (ev : event) (p p' : pool) :
  fire ev p = Some p' -> in_flight p' + permits p' = in_flight p + permits p.
Proof.
  destruct p as [n ts]. destruct ev as [i raises|i|i success]; simpl.
  - destruct (ts !! i) as [[| | | |]|] eqn:E; try discriminate.
    intros [= <-]. simpl.
    pose proof (in_flight_insert ts i Created (if raises then Raised else Waiting)
                  n n E) as H.
    destruct raises; unfold probing_weight in H; simpl in H; lia.
  - destruct (ts !! i) as [[| | | |]|] eqn:E; try discriminate.
    destruct n as [|k]; [discriminate|].
    intros [= <-]. simpl.
    pose proof (in_flight_insert ts i Waiting Probing k (S k) E) as H.
    unfold probing_weight in H; simpl in H. lia.
  - destruct (ts !! i) as [[| | | |]|] eqn:E; try discriminate.
    intros [= <-]. simpl.
    pose proof (in_flight_insert ts i Probing (Done success) (S n) n E) as H.
    unfold probing_weight in H; simpl in H. lia.
Qed.

Lemma run_balance (evs : list event) (p p' : pool) :
  run evs p = Some p' -> in_flight p' + permits p' = in_flight p + permits p.
Proof.
  revert p. induction evs as [|ev evs IH]; intros p; simpl.
  - intros [= ->]. reflexivity.
  - destruct (fire ev p) as [q|] eqn:E; [|discriminate].
    intros H. rewrite (IH _ H). exact (fire_balance ev p q E).
Qed.

Lemma in_flight_init (concurrency n : nat) : in_flight (init concurrency n) = 0.
Proof.
  unfold in_flight, init. simpl. induction n as [|n IH]; [reflexivity|].
  simpl. rewrite filter_cons_False by discriminate. exact IH.
Qed.

(** a schedule that leads somewhere leads through each of its prefixes *)
Lemma run_app (evs1 evs2 : list event) (p q : pool) :
  run (evs1 ++ evs2) p = Some q ->
  exists m, run evs1 p = Some m /\ run evs2 m = Some q.
Proof.
  revert p. induction evs1 as [|ev evs1 IH]; intros p; simpl.
  - eauto.
  - destruct (fire ev p) as [p1|]; [apply IH|discriminate].
Qed.

End PoolFacts.

(** C6: whatever the schedule of a batch over [n] tasks with [concurrency]
    permits, at every instant (after every prefix of the schedule) the number
    of probes executing plus the number of free permits is [concurrency], so
    at most [concurrency] probes execute at once; a probe starts only by
    taking a permit, and its end, with a success or a failure, gives the
    permit back. *)
Theorem C6_at_most_concurrency_probes_in_flight
    (concurrency n : nat) (before after : list Pool.event) (final : Pool.pool) :
  Pool.run (before ++ after) (Pool.init concurrency n) = Some final ->
  exists now,
    Pool.run before (Pool.init concurrency n) = Some now
    /\ Pool.in_flight now + Pool.permits now = concurrency
    /\ Pool.in_flight now <= concurrency
    /\ (forall i p', Pool.fire (Pool.Acquire i) now = Some p' ->
          Pool.in_flight p' = S (Pool.in_flight now)
          /\ S (Pool.permits p') = Pool.permits now)
    /\ (forall i success p', Pool.fire (Pool.Finish i success) now = Some p' ->
          S (Pool.in_flight p') = Pool.in_flight now
          /\ Pool.permits p' = S (Pool.permits now)).
Proof.
  intros Hrun. apply run_app in Hrun as (now & Hnow & _).
  exists now. split; [exact Hnow|].
  pose proof (run_balance _ _ _ Hnow) as Hbal.
  rewrite in_flight_init in Hbal. simpl in Hbal.
  split; [lia|]. split; [lia|]. split.
  - intros i p' Hf. pose proof (fire_balance _ _ _ Hf) as Hb.
    simpl in Hf. destruct (Pool.tasks now !! i) as [[| | | |]|]; try discriminate.
    destruct (Pool.permits now) as [|k] eqn:Ek; [discriminate|].
    injection Hf as <-. simpl in *. lia.
  - intros i success p' Hf. pose proof (fire_balance _ _ _ Hf) as Hb.
    simpl in Hf. destruct (Pool.tasks now !! i) as [[| | | |]|]; try discriminate.
    injection Hf as <-. simpl in *. lia.
Qed.

(** C6, a schedule of three tasks over two permits: when the third task
    waits, two probes run and no permit is free. *)
Lemma C6_three_tasks_two_permits :
  exists now,
    Pool.run [Pool.Start 0 false; Pool.Start 1 false; Pool.Start 2 false;
              Pool.Acquire 0; Pool.Acquire 1] (Pool.init 2 3) = Some now
    /\ Pool.in_flight now = 2 /\ Pool.permits now = 0
    /\ Pool.fire (Pool.Acquire 2) now = None.
Proof.
  destruct (C6_at_most_concurrency_probes_in_flight 2 3
              [Pool.Start 0 false; Pool.Start 1 false; Pool.Start 2 false;
               Pool.Acquire 0; Pool.Acquire 1]
              [Pool.Finish 0 true; Pool.Acquire 2; Pool.Finish 1 false;
               Pool.Finish 2 true]
              {| Pool.permits := 2;
                 Pool.tasks := [Pool.Done true; Pool.Done false; Pool.Done true] |}
              eq_refl) as (now & Hnow & _).
  exists now. split; [exact Hnow|].
  vm_compute in Hnow. injection Hnow as <-.
  repeat split.
Defined.

(** ** The writeback *)
Section WritebackFacts.
Import StreamChecker.
Variable source : pystr.
Variable utcnow : nat -> Z.

Lemma same_row_refl (a : Channel) : same_row a a.
Proof. repeat split. Qed.

Lemma same_row_trans (a b c : Channel) :
  same_row a b -> same_row b c -> same_row a c.
Proof. unfold same_row. intuition congruence. Qed.

Lemma record_check_same_row (now : Z) (ch : Channel) (r : result_dict) :
  same_row ch (record_check source now ch r).
Proof. repeat split. Qed.

(** one result touches no row but the one of its identifier *)
Lemma write_result_other (now : Z) (db : gmap Z Channel) (r : result_dict)
    (c : Z) :
  ch_id r <> Some c -> write_result source now db r !! c = db !! c.
Proof.
  intros Hne. unfold write_result.
  destruct (ch_id r) as [cid|]; [|reflexivity].
  destruct (cid =? 0)%Z; [reflexivity|].
  destruct (db !! cid); [|reflexivity].
  apply lookup_insert_ne. congruence.
Qed.

Lemma write_result_zero (now : Z) (db : gmap Z Channel) (r : result_dict) :
  write_result source now db r !! 0%Z = db !! 0%Z.
Proof.
  unfold write_result.
  destruct (ch_id r) as [cid|]; [|reflexivity].
  destruct (Z.eqb_spec cid 0); [reflexivity|].
  destruct (db !! cid); [|reflexivity].
  apply lookup_insert_ne. exact n.
Qed.

Lemma write_result_hit (now : Z) (db : gmap Z Channel) (r : result_dict)
    (c : Z) (ch : Channel) :
  ch_id r = Some c -> c <> 0%Z -> db !! c = Some ch ->
  write_result source now db r !! c = Some (record_check source now ch r).
Proof.
  intros Hid Hc Hdb. unfold write_result. rewrite Hid.
  destruct (Z.eqb_spec c 0); [contradiction|].
  rewrite Hdb. apply lookup_insert_eq.
Qed.

Lemma write_result_miss (now : Z) (db : gmap Z Channel) (r : result_dict)
    (c : Z) :
  ch_id r = Some c -> db !! c = None -> write_result source now db r = db.
Proof.
  intros Hid Hdb. unfold write_result. rewrite Hid, Hdb.
  destruct (c =? 0)%Z; reflexivity.
Qed.

(** a row stays a row, with the same identity; a missing row stays missing *)
Lemma write_result_row (now : Z) (db : gmap Z Channel) (r : result_dict)
    (c : Z) :
  match db !! c with
  | Some ch => exists ch', write_result source now db r !! c = Some ch'
                           /\ same_row ch ch'
  | None => write_result source now db r !! c = None
  end.
Proof.
  destruct (decide (ch_id r = Some c)) as [Hid|Hne].
  - destruct (db !! c) as [ch|] eqn:Hdb.
    + destruct (Z.eq_dec c 0%Z) as [->|Hc].
      * exists ch. rewrite write_result_zero. split; [exact Hdb|apply same_row_refl].
      * eexists. split; [apply write_result_hit; eassumption|].
        apply record_check_same_row.
    + rewrite (write_result_miss now db r c Hid Hdb). exact Hdb.
  - rewrite write_result_other by exact Hne.
    destruct (db !! c) as [ch|]; [|reflexivity].
    exists ch. split; [reflexivity|apply same_row_refl].
Qed.

Lemma writeback_from_app (k : nat) (db : gmap Z Channel)
    (rs1 rs2 : list result_dict) :
  writeback_from k source utcnow db (rs1 ++ rs2)
  = writeback_from (k + length rs1) source utcnow
      (writeback_from k source utcnow db rs1) rs2.
Proof.
  revert k db. induction rs1 as [|r rs1 IH]; intros k db; simpl.
  - rewrite Nat.add_0_r. reflexivity.
  - rewrite IH. f_equal. lia.
Qed.

Lemma writeback_from_other (k : nat) (db : gmap Z Channel)
    (rs : list result_dict) (c : Z) :
  (forall r, r ∈ rs -> ch_id r <> Some c) ->
  writeback_from k source utcnow db rs !! c = db !! c.
Proof.
  revert k db. induction rs as [|r rs IH]; intros k db Hall; simpl.
  - reflexivity.
  - rewrite IH.
    + apply write_result_other, Hall. left.
    + intros r' Hr'. apply Hall. right. exact Hr'.
Qed.

Lemma writeback_from_zero (k : nat) (db : gmap Z Channel)
    (rs : list result_dict) :
  writeback_from k source utcnow db rs !! 0%Z = db !! 0%Z.
Proof.
  revert k db. induction rs as [|r rs IH]; intros k db; simpl.
  - reflexivity.
  - rewrite IH. apply write_result_zero.
Qed.

Lemma writeback_from_row (k : nat) (db : gmap Z Channel)
    (rs : list result_dict) (c : Z) :
  match db !! c with
  | Some ch => exists ch', writeback_from k source utcnow db rs !! c = Some ch'
                           /\ same_row ch ch'
  | None => writeback_from k source utcnow db rs !! c = None
  end.
Proof.
  revert k db. induction rs as [|r rs IH]; intros k db; simpl.
  - destruct (db !! c) as [ch|]; [|reflexivity].
    exists ch. split; [reflexivity|apply same_row_refl].
  - pose proof (write_result_row (utcnow k) db r c) as H1.
    pose proof (IH (S k) (write_result source (utcnow k) db r)) as H2.
    destruct (db !! c) as [ch|].
    + destruct H1 as (ch1 & E1 & S1). rewrite E1 in H2.
      destruct H2 as (ch2 & E2 & S2).
      exists ch2. split; [exact E2|]. eapply same_row_trans; eassumption.
    + rewrite H1 in H2. exact H2.
Qed.

(** the last result for an identifier decides the row *)
Lemma writeback_last_wins (db : gmap Z Channel)
    (pre post : list result_dict) (r : result_dict) (c : Z) (ch : Channel) :
  ch_id r = Some c -> c <> 0%Z -> db !! c = Some ch ->
  (forall r', r' ∈ post -> ch_id r' <> Some c) ->
  exists before,
    same_row ch before
    /\ writeback source utcnow db (pre ++ r :: post) !! c
       = Some (record_check source (utcnow (length pre)) before r).
Proof.
  intros Hid Hc Hdb Hpost. unfold writeback.
  rewrite writeback_from_app. simpl.
  rewrite writeback_from_other by exact Hpost.
  pose proof (writeback_from_row 0 db pre c) as Hrow. rewrite Hdb in Hrow.
  destruct Hrow as (before & Hbefore & Hsame).
  exists before. split; [exact Hsame|].
  apply write_result_hit; assumption.
Qed.

End WritebackFacts.

(** ** How a batch ends *)
(** ** [asyncio.gather] *)
Section GatherFacts.
Import StreamChecker.
Context {A : Type}.
Variable instant : nat -> nat.

Lemma first_raised_none (k : nat) (ts : list (outcome A)) :
  first_raised instant k ts = None <->
  forall n e, ts !! n <> Some (Raise e).
Proof.
  revert k. induction ts as [|t ts IH]; intros k; simpl.
  - split; [intros _ n e; rewrite lookup_nil; discriminate|reflexivity].
  - destruct t as [a|e0].
    + rewrite IH. split.
      * intros H [|n] e; [discriminate|apply H].
      * intros H n e. apply (H (S n) e).
    + split.
      * destruct (first_raised instant (S k) ts) as [[j e']|];
          [destruct (instant j <? instant k)|]; discriminate.
      * intros H. destruct (H 0 e0 eq_refl).
Qed.

(** the exception taken is one of the list, and no awaitable of the list
    raises at an earlier instant *)
Lemma first_raised_some (k : nat) (ts : list (outcome A)) (j : nat) (e : exn) :
  first_raised instant k ts = Some (j, e) ->
  exists n, j = k + n /\ ts !! n = Some (Raise e)
    /\ forall m e', ts !! m = Some (Raise e') -> instant j <= instant (k + m).
Proof.
  revert k j e. induction ts as [|t ts IH]; intros k j e; simpl; [discriminate|].
  destruct t as [a|e0].
  - intros H. destruct (IH _ _ _ H) as (n & -> & Hn & Hmin).
    exists (S n). split; [lia|]. split; [exact Hn|].
    intros [|m] e'; [discriminate|]. simpl. intros Hm.
    replace (k + S m) with (S k + m) by lia. eapply Hmin, Hm.
  - destruct (first_raised instant (S k) ts) as [[j' e']|] eqn:El.
    + destruct (IH _ _ _ El) as (n & -> & Hn & Hmin).
      destruct (Nat.ltb_spec (instant (S k + n)) (instant k)) as [Hlt|Hge].
      * intros [= <- <-]. exists (S n). split; [lia|]. split; [exact Hn|].
        intros [|m] e''; simpl; change (S (k + n)) with (S k + n).
        -- intros _. rewrite Nat.add_0_r. lia.
        -- intros Hm. replace (k + S m) with (S k + m) by lia.
           eapply Hmin, Hm.
      * intros [= <- <-]. exists 0. split; [lia|]. split; [reflexivity|].
        intros [|m] e''; simpl.
        -- intros _. rewrite Nat.add_0_r. lia.
        -- intros Hm. replace (k + S m) with (S k + m) by lia.
           specialize (Hmin m e'' Hm). lia.
    + intros [= <- <-]. exists 0. split; [lia|]. split; [reflexivity|].
      intros [|m] e''; simpl.
      * intros _. rewrite Nat.add_0_r. lia.
      * intros Hm. destruct (proj1 (first_raised_none _ _) El m e'' Hm).
Qed.

Lemma returns_all (ts : list (outcome A)) :
  (forall n e, ts !! n <> Some (Raise e)) ->
  Forall2 (fun t r => t = Return r) ts (returns ts).
Proof.
  induction ts as [|t ts IH]; intros H; simpl.
  - constructor.
  - destruct t as [a|e0]; [|destruct (H 0 e0 eq_refl)].
    constructor; [reflexivity|]. apply IH. intros n e. apply (H (S n) e).
Qed.

Lemma gather_return (ts : list (outcome A)) (rs : list A) :
  gather instant ts = Return rs <-> Forall2 (fun t r => t = Return r) ts rs.
Proof.
  unfold gather. split.
  - destruct (first_raised instant 0 ts) as [[j e]|] eqn:E; [discriminate|].
    intros [= <-]. apply returns_all. exact (proj1 (first_raised_none 0 ts) E).
  - intros HF.
    assert (Hnone : forall n e, ts !! n <> Some (Raise e)).
    { intros n e Hn.
      destruct (Forall2_lookup_l _ _ _ _ _ HF Hn) as (r & _ & Hr).
      discriminate. }
    rewrite (proj2 (first_raised_none 0 ts) Hnone). f_equal.
    clear Hnone. induction HF as [|t r ts rs Ht HF IH]; [reflexivity|].
    subst t. simpl. f_equal. exact IH.
Qed.

Lemma gather_raise (ts : list (outcome A)) (e : exn) :
  gather instant ts = Raise e ->
  exists n, ts !! n = Some (Raise e)
    /\ forall m e', ts !! m = Some (Raise e') -> instant n <= instant m.
Proof.
  unfold gather.
  destruct (first_raised instant 0 ts) as [[j e']|] eqn:E; [|discriminate].
  intros [= <-]. apply first_raised_some in E as (n & -> & Hn & Hmin).
  exists n. split; [exact Hn|]. exact Hmin.
Qed.

Lemma gather_raises (ts : list (outcome A)) (n : nat) (e : exn) :
  ts !! n = Some (Raise e) -> exists e', gather instant ts = Raise e'.
Proof.
  intros Hn. unfold gather.
  destruct (first_raised instant 0 ts) as [[j e']|] eqn:E; [eauto|].
  destruct (proj1 (first_raised_none _ _) E n e Hn).
Qed.

End GatherFacts.

(** ** How the tasks of a batch end *)
Section TaskEnds.
Import Stdout StreamChecker.
Variable utf8_decode_ignore : list Byte.byte -> pystr.
Variable b64encode : list Byte.byte -> pystr.
Variable total : nat.
Variable task_id : option pystr.
Variable world : nat -> task_world.

Local Notation "'probe_of'" := (check_stream_visual utf8_decode_ignore b64encode).
Local Notation "'tasks_of'" :=
  (run_tasks utf8_decode_ignore b64encode total task_id world).
Local Notation "'end_of'" :=
  (task_end utf8_decode_ignore b64encode total world).

Lemma check_line_encodable (i : nat) (ch : Channel) :
  encodable (check_line i total ch) = encodable (take 20 (name ch)).
Proof.
  unfold check_line.
  rewrite !encodable_app, !encodable_py, !encodable_str_of_int.
  reflexivity.
Qed.

Lemma calls_probe_true (i : nat) (ch : Channel) (rep : outcome unit) :
  calls_probe total i ch rep = true <->
  rep = Return tt /\ encodable (take 20 (name ch)) = true.
Proof.
  unfold calls_probe, print. rewrite check_line_encodable.
  destruct rep as [[]|e]; simpl.
  - destruct (encodable (take 20 (name ch))); split;
      [auto|reflexivity|discriminate|intros [_ H]; discriminate].
  - split; [discriminate|intros [H _]; discriminate].
Qed.

(** a task returns exactly when its call of the sink returns, the name can
    be printed and the probe returns *)
Lemma probe_and_return_return (i : nat) (ch : Channel) (w : task_world)
    (rep : outcome unit) (r : result_dict) :
  probe_and_return utf8_decode_ignore b64encode total i ch w rep = Return r <->
  rep = Return tt /\ encodable (take 20 (name ch)) = true
  /\ probe_of (url ch) (tool w) = Return (probe r) /\ ch_id r = id ch.
Proof.
  unfold probe_and_return, print. rewrite check_line_encodable.
  destruct rep as [[]|e]; simpl.
  2:{ split; [discriminate|intros [H _]; discriminate]. }
  destruct (encodable (take 20 (name ch))); simpl.
  2:{ split; [discriminate|intros (_ & H & _); discriminate]. }
  destruct (probe_of (url ch) (tool w)) as [res|e]; simpl.
  - split.
    + intros [= <-]. auto.
    + intros (_ & _ & [= ->] & Hid). destruct r as [p c]. simpl in *.
      subst c. reflexivity.
  - split; [discriminate|intros (_ & _ & H & _); discriminate].
Qed.

(** a task raises from its call of the sink, from the print of the name, or
    from the probe *)
Lemma probe_and_return_raise (i : nat) (ch : Channel) (w : task_world)
    (rep : outcome unit) (e : exn) :
  probe_and_return utf8_decode_ignore b64encode total i ch w rep = Raise e <->
  rep = Raise e
  \/ (rep = Return tt /\ print (check_line i total ch) = Raise e)
  \/ (rep = Return tt /\ print (check_line i total ch) = Return tt
      /\ probe_of (url ch) (tool w) = Raise e).
Proof.
  unfold probe_and_return.
  destruct rep as [[]|e0]; simpl.
  2:{ split.
      - intros [= ->]. auto.
      - intros [[= ->]|[[H _]|[H _]]]; [reflexivity|discriminate..]. }
  destruct (print (check_line i total ch)) as [[]|e1]; simpl.
  2:{ split.
      - intros [= ->]. auto.
      - intros [H|[[_ [= ->]]|(_ & H & _)]]; [discriminate|reflexivity|discriminate]. }
  destruct (probe_of (url ch) (tool w)) as [res|e2]; simpl.
  - split; [discriminate|].
    intros [H|[[_ H]|(_ & _ & H)]]; discriminate.
  - split.
    + intros [= ->]. auto.
    + intros [H|[[_ H]|(_ & _ & [= ->])]]; [discriminate..|reflexivity].
Qed.

Lemma existsb_index_out (rs : list report) (i : nat) :
  Forall (fun r => r_index r <> i) rs ->
  existsb (fun r => r_index r =? i) rs = false.
Proof.
  induction 1 as [|r rs Hr _ IH]; [reflexivity|].
  simpl. rewrite IH. apply Nat.eqb_neq in Hr. rewrite Hr. reflexivity.
Qed.

Lemma throttle_from_above (k i : nat) (chs : list Channel) (l : Z) :
  i < k ->
  existsb (fun r => r_index r =? i) (throttle total l (enumerate_from k chs))
  = false.
Proof.
  intros Hi. apply existsb_index_out.
  eapply Forall_impl; [apply throttle_index_range|]. simpl. intros r Hr. lia.
Qed.

Lemma run_tasks_probing_range (k0 : nat) (chs : list Channel)
    (st : runner_state) (i : nat) :
  i ∈ probing (tasks_of (enumerate_from k0 chs) st) ->
  k0 <= i < k0 + length chs.
Proof.
  revert k0 st. induction chs as [|c chs IH]; intros k0 st; simpl.
  - intros H. apply elem_of_nil in H. destruct H.
  - destruct (_bounded_check _ _ _ _ _ _ _ _) as [[st1 p] o]. simpl.
    intros [H|H]%elem_of_app.
    + destruct p; [|apply elem_of_nil in H; destruct H].
      apply list_elem_of_singleton in H. lia.
    + apply IH in H. lia.
Qed.

(** the task of the channel at position [n] ends as [task_end] says, and
    calls the probe as [calls_probe] says *)
Lemma run_tasks_at (k0 : nat) (chs : list Channel) (st : runner_state)
    (n : nat) (ch : Channel) :
  chs !! n = Some ch ->
  let rs := throttle total (last_of task_id st) (enumerate_from k0 chs) in
  outcomes (tasks_of (enumerate_from k0 chs) st) !! n
  = Some (end_of rs (k0 + n) ch)
  /\ (k0 + n ∈ probing (tasks_of (enumerate_from k0 chs) st) <->
      calls_probe total (k0 + n) ch (reported world rs (k0 + n)) = true).
Proof.
  revert k0 st n. induction chs as [|c chs IH]; intros k0 st n Hn;
    [discriminate|].
  cbn [enumerate_from]. rewrite run_tasks_cons. cbv zeta.
  cbn [outcomes probing]. rewrite bounded_check_eq. cbn [throttle].
  assert (Hout : forall l,
            existsb (fun r => r_index r =? k0)
                    (throttle total l (enumerate_from (S k0) chs)) = false)
    by (intros l; apply throttle_from_above; lia).
  assert (Hnot : forall st', k0 ∉ probing (tasks_of (enumerate_from (S k0) chs) st')).
  { intros st' H. apply run_tasks_probing_range in H. lia. }
  destruct n as [|n].
  - injection Hn as ->. rewrite Nat.add_0_r. unfold task_end, reported.
    destruct (should_report (last_of task_id st) (Float64.percent total k0));
      cbn [fst snd lookup list_lookup existsb]; cbn [r_index].
    + rewrite Nat.eqb_refl. cbn [orb]. split; [reflexivity|].
      destruct (calls_probe total k0 ch (sink (world k0))).
      * split; [reflexivity|]. intros _. apply elem_of_app. left. left.
      * split; [|discriminate]. intros [H|H]%elem_of_app.
        -- apply elem_of_nil in H. destruct H.
        -- destruct (Hnot _ H).
    + rewrite Hout. split; [reflexivity|].
      destruct (calls_probe total k0 ch (Return tt)).
      * split; [reflexivity|]. intros _. apply elem_of_app. left. left.
      * split; [|discriminate]. intros [H|H]%elem_of_app.
        -- apply elem_of_nil in H. destruct H.
        -- destruct (Hnot _ H).
  - simpl in Hn. replace (k0 + S n) with (S k0 + n) by lia.
    assert (Hne : (k0 =? S k0 + n) = false) by (apply Nat.eqb_neq; lia).
    assert (Hhead : forall p : bool,
              S k0 + n ∈ (if p then [k0] else []) ++
                          probing (tasks_of (enumerate_from (S k0) chs)
                                     (if should_report (last_of task_id st)
                                           (Float64.percent total k0)
                                      then {| attrs := <[attr_name task_id :=
                                                Float64.percent total k0]> (attrs st);
                                              sent := sent st ++ [report_of total k0 c] |}
                                      else st)) <->
              S k0 + n ∈ probing (tasks_of (enumerate_from (S k0) chs)
                                     (if should_report (last_of task_id st)
                                           (Float64.percent total k0)
                                      then {| attrs := <[attr_name task_id :=
                                                Float64.percent total k0]> (attrs st);
                                              sent := sent st ++ [report_of total k0 c] |}
                                      else st))).
    { intros p. rewrite elem_of_app. split; [|auto].
      intros [H|H]; [|exact H]. destruct p.
      - apply list_elem_of_singleton in H. lia.
      - apply elem_of_nil in H. destruct H. }
    destruct (should_report (last_of task_id st) (Float64.percent total k0));
      cbn [fst snd lookup list_lookup].
    + rewrite Hhead.
      destruct (IH (S k0)
                  {| attrs := <[attr_name task_id := Float64.percent total k0]>
                                (attrs st);
                     sent := sent st ++ [report_of total k0 c] |} n Hn)
        as [Ho Hp].
      cbv zeta in Ho, Hp. rewrite last_of_reported in Ho, Hp.
      unfold task_end, reported in *. cbn [existsb r_index].
      rewrite Hne. cbn [orb]. split; [exact Ho|exact Hp].
    + rewrite Hhead.
      destruct (IH (S k0) st n Hn) as [Ho Hp]. cbv zeta in Ho, Hp.
      split; [exact Ho|exact Hp].
Qed.


End TaskEnds.

(** ** How a batch ends *)
Section BatchEnd.
Import Stdout StreamChecker.
Variable utf8_decode_ignore : list Byte.byte -> pystr.
Variable b64encode : list Byte.byte -> pystr.
Variable st : runner_state.
Variable db : gmap Z Channel.
Variable channels : list Channel.
Variable source : pystr.
Variable task_id : option pystr.
Variable world : nat -> task_world.
Variable utcnow : nat -> Z.

Local Notation "'the_batch'" :=
  (run_batch_check utf8_decode_ignore b64encode st db channels source task_id
     world utcnow).
Local Notation "'the_tasks'" :=
  (run_tasks utf8_decode_ignore b64encode (length channels) task_id world
     (enumerate channels) st).
Local Notation "'the_end'" :=
  (task_end utf8_decode_ignore b64encode (length channels) world
     (batch_reports st the_batch)).

Lemma batch_unfold :
  channels <> [] ->
  the_batch
  = match gather (fun k => ended_at (world k)) (outcomes the_tasks) with
    | Raise e =>
        {| final_state := shared the_tasks; storage := db;
           probed := probing the_tasks; returned := Raise e |}
    | Return results =>
        {| final_state :=
             {| attrs := delete (attr_name task_id) (attrs (shared the_tasks));
                sent := sent (shared the_tasks) |};
           storage := writeback source utcnow db results;
           probed := probing the_tasks;
           returned := Return tt |}
    end.
Proof.
  intros Hne. unfold run_batch_check.
  destruct channels as [|c chs]; [congruence|]. reflexivity.
Qed.

(** each task of the batch ends as [task_end] says *)
Lemma batch_task (k : nat) (ch : Channel) :
  channels !! k = Some ch ->
  outcomes the_tasks !! k = Some (the_end k ch).
Proof.
  intros Hk. rewrite batch_reports_throttle.
  exact (proj1 (run_tasks_at utf8_decode_ignore b64encode (length channels)
                  task_id world 0 channels st k ch Hk)).
Qed.

Lemma batch_task_inv (k : nat) (o : outcome result_dict) :
  outcomes the_tasks !! k = Some o ->
  exists ch, channels !! k = Some ch /\ o = the_end k ch.
Proof.
  intros Ho.
  assert (Hlt : k < length channels).
  { apply lookup_lt_Some in Ho.
    rewrite run_tasks_length in Ho. unfold enumerate in Ho.
    rewrite length_enumerate_from in Ho. exact Ho. }
  destruct (lookup_lt_is_Some_2 channels k Hlt) as [ch Hch].
  exists ch. split; [exact Hch|].
  rewrite (batch_task k ch Hch) in Ho. congruence.
Qed.

(** a batch that raises has written nothing, and raises what one of its
    tasks raised: the first to do so *)
Lemma batch_raised (e : exn) :
  returned the_batch = Raise e ->
  storage the_batch = db
  /\ exists k ch,
       channels !! k = Some ch /\ the_end k ch = Raise e
       /\ forall j c' e', channels !! j = Some c' -> the_end j c' = Raise e' ->
                          ended_at (world k) <= ended_at (world j).
Proof.
  destruct channels as [|c chs] eqn:Ech; [discriminate|].
  rewrite <- Ech in *.
  assert (Hne : channels <> []) by (rewrite Ech; discriminate).
  pose proof batch_task as Htask. pose proof batch_task_inv as Hinv.
  rewrite batch_unfold in * by exact Hne.
  destruct (gather _ (outcomes the_tasks)) as [results|e'] eqn:Eg;
    cbn [returned storage]; [discriminate|].
  intros [= ->]. split; [reflexivity|].
  apply gather_raise in Eg as (k & Hk & Hmin).
  destruct (Hinv k _ Hk) as (ch & Hch & He).
  exists k, ch. split; [exact Hch|]. split; [congruence|].
  intros j c' e' Hj He'. apply (Hmin j e'). rewrite (Htask j c' Hj), He'.
  reflexivity.
Qed.

(** a task that raises makes the batch raise *)
Lemma batch_raises (k : nat) (ch : Channel) (e : exn) :
  channels !! k = Some ch -> the_end k ch = Raise e ->
  exists e', returned the_batch = Raise e' /\ storage the_batch = db.
Proof.
  intros Hk He.
  assert (Hne : channels <> []) by (intros E; rewrite E in Hk; discriminate).
  pose proof (batch_task k ch Hk) as Htask. rewrite He in Htask.
  rewrite batch_unfold in * by exact Hne.
  destruct (gather_raises (fun k => ended_at (world k)) _ _ _ Htask)
    as (e' & Eg).
  rewrite Eg in *. cbn [returned storage]. eauto.
Qed.

Lemma batch_results (results : list result_dict) :
  Forall2 (fun t r => t = Return r) (outcomes the_tasks) results ->
  Forall2 (result_for utf8_decode_ignore b64encode world)
          (enumerate channels) results.
Proof.
  intros HF. apply Forall2_same_length_lookup. split.
  - apply Forall2_length in HF.
    rewrite run_tasks_length in HF. exact HF.
  - intros n [i ch] r Hn Hr.
    assert (Hch : channels !! n = Some ch /\ i = n).
    { clear -Hn. unfold enumerate in Hn.
      assert (G : forall k0 l m, enumerate_from k0 l !! m = Some (i, ch) ->
                                 l !! m = Some ch /\ i = k0 + m).
      { clear. intros k0 l. revert k0. induction l as [|x l IH]; intros k0 m;
          [discriminate|].
        destruct m as [|m]; simpl.
        - intros [= <- <-]. split; [reflexivity|lia].
        - intros H. apply IH in H as [H1 H2]. split; [exact H1|lia]. }
      apply G in Hn as [H1 H2]. split; [exact H1|lia]. }
    destruct Hch as [Hch ->].
    pose proof (batch_task n ch Hch) as Ho.
    destruct (Forall2_lookup_r _ _ _ _ _ HF Hr) as (o & Ho' & Hret).
    rewrite Ho in Ho'. injection Ho' as <-.
    unfold task_end in Hret. apply probe_and_return_return in Hret.
    destruct Hret as (_ & _ & Hp & Hid). split; assumption.
Qed.

(** when no task raises, the batch returns and has written back one dict per
    channel, in the order of the channels *)
Lemma batch_completed :
  (forall k ch, channels !! k = Some ch -> exists r, the_end k ch = Return r) ->
  returned the_batch = Return tt
  /\ exists results,
       Forall2 (result_for utf8_decode_ignore b64encode world)
               (enumerate channels) results
       /\ storage the_batch = writeback source utcnow db results.
Proof.
  destruct channels as [|c chs] eqn:Ech.
  { intros _. simpl. split; [reflexivity|].
    exists []. split; [constructor|reflexivity]. }
  rewrite <- Ech in *.
  assert (Hne : channels <> []) by (rewrite Ech; discriminate).
  pose proof batch_task_inv as Hinv. pose proof batch_results as Hres.
  rewrite batch_unfold in * by exact Hne.
  intros Hall.
  destruct (gather _ (outcomes the_tasks)) as [results|e] eqn:Eg;
    cbn [returned storage].
  - split; [reflexivity|]. exists results. split; [|reflexivity].
    apply Hres. exact (proj1 (gather_return _ _ _) Eg).
  - exfalso. apply gather_raise in Eg as (k & Hk & _).
    destruct (Hinv k _ Hk) as (ch & Hch & He).
    destruct (Hall k ch Hch) as (r & Hr). congruence.
Qed.

(** a batch that returns has written back the dicts of its channels, and
    has removed its attribute *)
Lemma batch_returned :
  channels <> [] -> returned the_batch = Return tt ->
  exists results,
    Forall2 (result_for utf8_decode_ignore b64encode world)
            (enumerate channels) results
    /\ storage the_batch = writeback source utcnow db results
    /\ attrs (final_state the_batch)
       = delete (attr_name task_id) (attrs (shared the_tasks)).
Proof.
  intros Hne. pose proof batch_results as Hres.
  rewrite batch_unfold in * by exact Hne.
  destruct (gather _ (outcomes the_tasks)) as [results|e] eqn:Eg;
    cbn [returned storage final_state attrs]; [|discriminate].
  intros _. exists results. split; [|split; reflexivity].
  apply Hres. exact (proj1 (gather_return _ _ _) Eg).
Qed.

(** whatever happens, the row of identifier 0 is left alone *)
Lemma batch_zero : storage the_batch !! 0%Z = db !! 0%Z.
Proof.
  destruct channels as [|c chs] eqn:Ech; [reflexivity|].
  rewrite <- Ech. rewrite batch_unfold by (rewrite Ech; discriminate).
  destruct (gather _ _); cbn [storage]; [|reflexivity].
  apply writeback_from_zero.
Qed.

(** a task calls the probe exactly when its own call of the sink returns
    and its own name can be printed, whatever the other tasks do *)
Lemma batch_probed (k : nat) :
  k ∈ probed the_batch <->
  exists ch, channels !! k = Some ch
    /\ reported world (batch_reports st the_batch) k = Return tt
    /\ encodable (take 20 (name ch)) = true.
Proof.
  destruct channels as [|c chs] eqn:Ech.
  { simpl. split; [intros H; apply elem_of_nil in H; destruct H|].
    intros (ch & H & _). discriminate. }
  rewrite <- Ech in *.
  assert (Hne : channels <> []) by (rewrite Ech; discriminate).
  rewrite batch_reports_throttle.
  assert (Hp : probed the_batch = probing the_tasks).
  { rewrite batch_unfold by exact Hne. destruct (gather _ _); reflexivity. }
  rewrite Hp. split.
  - intros Hin.
    pose proof (run_tasks_probing_range utf8_decode_ignore b64encode
                  (length channels) task_id world 0 channels st k Hin) as Hr.
    destruct (lookup_lt_is_Some_2 channels k) as [ch Hch]; [lia|].
    exists ch. split; [exact Hch|].
    apply (calls_probe_true (length channels) k ch).
    apply (run_tasks_at utf8_decode_ignore b64encode (length channels)
             task_id world 0 channels st k ch Hch). exact Hin.
  - intros (ch & Hch & Hrep & Hname).
    apply (run_tasks_at utf8_decode_ignore b64encode (length channels)
             task_id world 0 channels st k ch Hch).
    apply calls_probe_true. split; assumption.
Qed.

End BatchEnd.

(** C1 (as the code has it): the batch runner does not abort the sibling
    tasks of a task that raises, but it does not isolate that task either.
    A task raises when its call of the progress sink raises, when the print
    of its channel's name raises, or when its probe raises (from the
    statements before the probe's [try], or from the print of its handler);
    a failure of the tool itself never raises, it becomes a failure dict.
    Every task whose own call of the sink returns and whose own name can be
    printed calls the probe, whatever the other tasks do: [asyncio.gather]
    cancels none.  But [gather] hands the first exception raised to
    [run_batch_check], which raises it to its caller: no dict is made for
    the task that raised, and nothing is written back, for any channel.  Only
    when no task raises does the batch return, and then it has written back
    one result per channel, in the order of the channels. *)
Theorem C1_raising_task_aborts_the_batch
    (utf8_decode_ignore b64encode : list Byte.byte -> pystr)
    (st : StreamChecker.runner_state) (db : gmap Z Channel)
    (channels : list Channel) (source : pystr) (task_id : option pystr)
    (world : nat -> StreamChecker.task_world) (utcnow : nat -> Z) :
  let b := StreamChecker.run_batch_check utf8_decode_ignore b64encode
             st db channels source task_id world utcnow in
  let rs := StreamChecker.batch_reports st b in
  let total := length channels in
  let ends := StreamChecker.task_end utf8_decode_ignore b64encode total
                world rs in
  (forall k ch e,
      channels !! k = Some ch -> ends k ch = Raise e ->
      exists e', StreamChecker.returned b = Raise e'
                 /\ StreamChecker.storage b = db)
  /\ (forall e,
        StreamChecker.returned b = Raise e ->
        StreamChecker.storage b = db
        /\ exists k ch,
             channels !! k = Some ch /\ ends k ch = Raise e
             /\ forall j c' e',
                  channels !! j = Some c' -> ends j c' = Raise e' ->
                  StreamChecker.ended_at (world k)
                  <= StreamChecker.ended_at (world j))
  /\ (forall k ch e,
        channels !! k = Some ch ->
        (ends k ch = Raise e <->
         StreamChecker.reported world rs k = Raise e
         \/ (StreamChecker.reported world rs k = Return tt
             /\ Stdout.print (StreamChecker.check_line k total ch) = Raise e)
         \/ (StreamChecker.reported world rs k = Return tt
             /\ Stdout.print (StreamChecker.check_line k total ch) = Return tt
             /\ StreamChecker.check_stream_visual utf8_decode_ignore b64encode
                  (url ch) (StreamChecker.tool (world k)) = Raise e)))
  /\ (forall k,
        k ∈ StreamChecker.probed b <->
        exists ch, channels !! k = Some ch
          /\ StreamChecker.reported world rs k = Return tt
          /\ Stdout.encodable (take 20 (name ch)) = true)
  /\ ((forall k ch, channels !! k = Some ch -> exists r, ends k ch = Return r) ->
      StreamChecker.returned b = Return tt
      /\ exists results,
           Forall2 (StreamChecker.result_for utf8_decode_ignore b64encode world)
                   (StreamChecker.enumerate channels) results
           /\ StreamChecker.storage b
              = StreamChecker.writeback source utcnow db results).
Proof.
  intros b rs total ends. split; [|split; [|split; [|split]]].
  - intros k ch e. apply batch_raises.
  - intros e. apply batch_raised.
  - intros k ch e _. apply probe_and_return_raise.
  - intros k. apply batch_probed.
  - apply batch_completed.
Qed.

(** C1, against the isolation of a raising task: in a batch of two channels
    whose first task raises from the progress sink, the batch raises that
    exception, and neither channel is written back, although the second
    task calls its probe and that probe succeeds. *)
Lemma C1_counterexample_sink_raises_no_writeback :
  let db : gmap Z Channel :=
    <[1%Z := Samples.channel 1 "a"]> (<[2%Z := Samples.channel 2 "b"]> ∅) in
  let world := fun i : nat =>
    if Nat.eqb i 0 then Samples.sink_down Samples.frame_ok
    else Samples.quiet Samples.frame_ok in
  let b := StreamChecker.run_batch_check Samples.latin1 Samples.latin1
             Samples.fresh db [Samples.channel 1 "a"; Samples.channel 2 "b"]
             (py "manual") (Some (py "t1")) world Samples.clock in
  StreamChecker.returned b = Raise (OtherException (py "database is locked"))
  /\ StreamChecker.storage b = db
  /\ (check_status <$> StreamChecker.storage b !! 1%Z) = Some None
  /\ (check_status <$> StreamChecker.storage b !! 2%Z) = Some None
  /\ StreamChecker.probed b = [1]
  /\ (StreamChecker.p_status <$>
        match StreamChecker.check_stream_visual Samples.latin1 Samples.latin1
                (py "b") Samples.frame_ok with
        | Return r => Some r
        | Raise _ => None
        end) = Some true.
Proof.
  cbv zeta. repeat split; vm_compute; reflexivity.
Qed.

(** C1, a batch of two channels whose second probe fails while no task
    raises: the batch returns and both channels are written back. *)
Lemma C1_probe_failure_is_written_back :
  let db : gmap Z Channel :=
    <[1%Z := Samples.channel 1 "a"]> (<[2%Z := Samples.channel 2 "b"]> ∅) in
  let world := fun i : nat =>
    if Nat.eqb i 0 then Samples.quiet Samples.frame_ok
    else Samples.quiet Samples.no_output in
  let b := StreamChecker.run_batch_check Samples.latin1 Samples.latin1
             Samples.fresh db [Samples.channel 1 "a"; Samples.channel 2 "b"]
             (py "manual") (Some (py "t1")) world Samples.clock in
  StreamChecker.returned b = Return tt
  /\ (check_status <$> StreamChecker.storage b !! 1%Z) = Some (Some true)
  /\ (check_status <$> StreamChecker.storage b !! 2%Z) = Some (Some false).
Proof.
  cbv zeta. split.
  - refine (proj1 (proj2 (proj2 (proj2 (proj2
              (C1_raising_task_aborts_the_batch
                 Samples.latin1 Samples.latin1 Samples.fresh _ _ _ _ _ _))))
              _)).
    intros [|[|k]] ch Hk; [| |discriminate]; injection Hk as <-;
      eexists; vm_compute; reflexivity.
  - split; vm_compute; reflexivity.
Defined.

(** C3 (as the code has it): when the writeback loop reaches a result whose
    channel identifier is truthy (neither [None] nor 0) and resolves to a row
    of the storage, it sets the row's check-success flag and enabled flag to
    the probe's success flag, the check timestamp to the clock, the artifact
    to the probe's image, the check error to the probe's message exactly when
    the probe failed ([None] on success) and the source tag, and leaves the
    other fields alone; the row is committed like this unless a later result
    of the batch carries the same identifier.  A result whose identifier does
    not resolve changes nothing, and no row is invented for it. *)
Theorem C3_writeback_sets_check_fields
    (source : pystr) (utcnow : nat -> Z) (db : gmap Z Channel) :
  (forall pre r c ch,
      StreamChecker.ch_id r = Some c -> c <> 0%Z -> db !! c = Some ch ->
      exists row,
        StreamChecker.writeback source utcnow db (pre ++ [r]) !! c = Some row
        /\ check_status row = Some (StreamChecker.p_status (StreamChecker.probe r))
        /\ check_date row = Some (utcnow (length pre))
        /\ check_image row = StreamChecker.p_image (StreamChecker.probe r)
        /\ check_error row
           = (if StreamChecker.p_status (StreamChecker.probe r) then None
              else StreamChecker.p_error (StreamChecker.probe r))
        /\ check_source row = Some source
        /\ is_enabled row = StreamChecker.p_status (StreamChecker.probe r)
        /\ StreamChecker.same_row ch row
        /\ forall post,
             (forall r', r' ∈ post -> StreamChecker.ch_id r' <> Some c) ->
             StreamChecker.writeback source utcnow db (pre ++ r :: post) !! c
             = Some row)
  /\ (forall now db' r c,
        StreamChecker.ch_id r = Some c -> db' !! c = None ->
        StreamChecker.write_result source now db' r = db')
  /\ (forall rs c,
        db !! c = None ->
        StreamChecker.writeback source utcnow db rs !! c = None).
Proof.
  split; [|split].
  - intros pre r c ch Hid Hc Hdb.
    unfold StreamChecker.writeback.
    pose proof (writeback_from_row source utcnow 0 db pre c) as Hrow.
    rewrite Hdb in Hrow. destruct Hrow as (before & Hbefore & Hsame).
    exists (StreamChecker.record_check source (utcnow (length pre)) before r).
    assert (Hstep : forall post,
               (forall r', r' ∈ post -> StreamChecker.ch_id r' <> Some c) ->
               StreamChecker.writeback_from 0 source utcnow db (pre ++ r :: post) !! c
               = Some (StreamChecker.record_check source (utcnow (length pre))
                         before r)).
    { intros post Hpost. rewrite writeback_from_app. simpl.
      rewrite writeback_from_other by exact Hpost.
      apply write_result_hit; assumption. }
    split.
    { apply Hstep. intros r' Hr'. apply elem_of_nil in Hr'. contradiction. }
    simpl. destruct (StreamChecker.p_status (StreamChecker.probe r)); simpl;
      repeat (split; [reflexivity|]);
      (split; [|exact Hstep]);
      (eapply same_row_trans; [exact Hsame|apply record_check_same_row]).
  - intros now db' r c. apply write_result_miss.
  - intros rs c Hdb.
    pose proof (writeback_from_row source utcnow 0 db rs c) as Hrow.
    rewrite Hdb in Hrow. exact Hrow.
Qed.

(** C3, against the claim for a row whose identifier is 0: the identifier
    resolves, the probe succeeded, and yet the writeback leaves the row as it
    was. *)
Lemma C3_counterexample_identifier_zero :
  let db : gmap Z Channel := <[0%Z := Samples.channel 0 "a"]> ∅ in
  let r := {| StreamChecker.probe :=
                {| StreamChecker.p_url := py "a"; StreamChecker.p_status := true;
                   StreamChecker.p_image := Some (py "data:image/jpeg;base64,/w==");
                   StreamChecker.p_error := None |};
              StreamChecker.ch_id := Some 0%Z |} in
  db !! 0%Z = Some (Samples.channel 0 "a")
  /\ StreamChecker.writeback (py "manual") Samples.clock db [r] !! 0%Z
     = Some (Samples.channel 0 "a")
  /\ check_status (Samples.channel 0 "a") = None.
Proof.
  cbv zeta. repeat split; vm_compute; reflexivity.
Qed.

(** C3, a batch of two results, the second for a channel that is gone: the
    first channel gets the failure and is disabled, nothing else changes. *)
Lemma C3_failed_probe_written_back :
  let db : gmap Z Channel := <[7%Z := Samples.channel 7 "a"]> ∅ in
  let rs := [Samples.failure 7; Samples.failure 8] in
  exists row,
    StreamChecker.writeback (py "auto") Samples.clock db rs !! 7%Z = Some row
    /\ is_enabled row = false /\ check_status row = Some false
    /\ check_error row = Some (py "404") /\ check_date row = Some 1700000000%Z
    /\ StreamChecker.writeback (py "auto") Samples.clock db rs !! 8%Z = None.
Proof.
  cbv zeta.
  destruct (C3_writeback_sets_check_fields (py "auto") Samples.clock
              (<[7%Z := Samples.channel 7 "a"]> ∅)) as (Hset & _ & Hnone).
  destruct (Hset [] (Samples.failure 7) 7%Z (Samples.channel 7 "a"))
    as (row & _ & Hst & Hdate & _ & Herr & _ & Hen & _ & Hpost);
    [reflexivity|discriminate|reflexivity|].
  exists row. split.
  - apply (Hpost [Samples.failure 8]).
    intros r' Hr'. apply list_elem_of_singleton in Hr' as ->. discriminate.
  - repeat (split; [assumption|]). apply Hnone. reflexivity.
Defined.

(** C10: the writeback skips a result whose channel identifier is [None] or
    0 before it looks the identifier up, so that neither the writeback loop
    nor a whole batch ever changes the row of identifier 0, also when that
    row exists. *)
Theorem C10_falsy_identifier_is_skipped
    (utf8_decode_ignore b64encode : list Byte.byte -> pystr)
    (st : StreamChecker.runner_state) (db : gmap Z Channel)
    (channels : list Channel) (source : pystr) (task_id : option pystr)
    (world : nat -> StreamChecker.task_world) (utcnow : nat -> Z) :
  (forall now p,
      StreamChecker.write_result source now db
        {| StreamChecker.probe := p; StreamChecker.ch_id := None |} = db
      /\ StreamChecker.write_result source now db
           {| StreamChecker.probe := p; StreamChecker.ch_id := Some 0%Z |} = db)
  /\ (forall rs, StreamChecker.writeback source utcnow db rs !! 0%Z = db !! 0%Z)
  /\ StreamChecker.storage
       (StreamChecker.run_batch_check utf8_decode_ignore b64encode
          st db channels source task_id world utcnow) !! 0%Z
     = db !! 0%Z.
Proof.
  split; [|split].
  - intros now p. split; reflexivity.
  - intros rs. apply writeback_from_zero.
  - apply batch_zero.
Qed.

(** ** The refresh merge *)
Section MergeFacts.
Import Subscriptions.

(** the dict holds, for a URL, the state of the last old row with that URL *)
Lemma channel_states_lookup (old_channels : list Channel) (u : pystr) :
  channel_states old_channels !! u
  = state_of <$> last (filter (fun c => url c = u) old_channels).
Proof.
  unfold channel_states.
  induction old_channels as [|c l IH] using rev_ind.
  - reflexivity.
  - rewrite foldl_snoc, filter_app.
    destruct (decide (url c = u)) as [E|E].
    + rewrite filter_cons_True by exact E. rewrite filter_nil, last_snoc.
      simpl. rewrite E. apply lookup_insert_eq.
    + rewrite filter_cons_False by exact E.
      rewrite filter_nil, app_nil_r, lookup_insert_ne by exact E. exact IH.
Qed.

Lemma last_filter_elem (old_channels : list Channel) (u : pystr) (c : Channel) :
  last (filter (fun c => url c = u) old_channels) = Some c ->
  c ∈ old_channels /\ url c = u.
Proof.
  intros H. apply last_Some_elem_of in H.
  apply list_elem_of_filter in H as [Hu Hin]. split; assumption.
Qed.

Lemma last_filter_none (old_channels : list Channel) (u : pystr) :
  last (filter (fun c => url c = u) old_channels) = None <->
  forall c, c ∈ old_channels -> url c <> u.
Proof.
  rewrite last_None. split.
  - intros H c Hin Hu.
    assert (Hc : c ∈ filter (fun c => url c = u) old_channels)
      by (apply list_elem_of_filter; split; assumption).
    rewrite H in Hc. apply elem_of_nil in Hc. exact Hc.
  - intros H. destruct (filter _ _) as [|c l] eqn:E; [reflexivity|].
    assert (Hc : c ∈ filter (fun c => url c = u) old_channels)
      by (rewrite E; left).
    apply list_elem_of_filter in Hc as [Hu Hin]. destruct (H c Hin Hu).
Qed.

(** the state restored for a URL is that of any old row with that URL, when
    the old rows with that URL agree *)
Lemma channel_states_agree (old_channels : list Channel) (c : Channel) :
  c ∈ old_channels ->
  (forall c', c' ∈ old_channels -> url c' = url c -> state_of c' = state_of c) ->
  channel_states old_channels !! url c = Some (state_of c).
Proof.
  intros Hin Hagree. rewrite channel_states_lookup.
  destruct (last (filter _ old_channels)) as [c'|] eqn:El.
  - apply last_filter_elem in El as [Hc' Hu]. simpl. f_equal.
    apply Hagree; assumption.
  - destruct (proj1 (last_filter_none _ _) El c Hin eq_refl).
Qed.

End MergeFacts.


(* ===================================================================== *)
(** * Part III: further properties of the code *)
(* ===================================================================== *)

(** ** How far the float percentage is from the exact one *)
Section PercentAccuracy.
Import Float64.
Local Open Scope Q_scope.

Lemma rhe_error (y : Q) :
  y - (1 # 2) <= inject_Z (round_half_even y)
  /\ inject_Z (round_half_even y) <= y + (1 # 2).
Proof.
  unfold round_half_even.
  pose proof (Qfloor_le y) as Hlo. pose proof (Qlt_floor y) as Hhi.
  rewrite inject_Z_plus in Hhi. change (inject_Z 1) with 1 in Hhi.
  destruct (Qcompare (y - inject_Z (Qfloor y)) (1 # 2)) eqn:C.
  - rewrite <- Qeq_alt in C.
    destruct (Z.even (Qfloor y)).
    + split; lra.
    + rewrite inject_Z_plus. change (inject_Z 1) with 1. split; lra.
  - rewrite <- Qlt_alt in C. split; lra.
  - rewrite <- Qgt_alt in C. rewrite inject_Z_plus.
    change (inject_Z 1) with 1. split; lra.
Qed.

(** rounding to 53 bits moves a positive number by at most [2^-53] of it *)
Lemma round53_pos_error (x : Q) :
  0 < x ->
  x - x * 2 ^ (-53) <= round53_pos x /\ round53_pos x <= x + x * 2 ^ (-53).
Proof.
  intros Hx. unfold round53_pos. rewrite Qred_correct.
  destruct (ilog2_spec x Hx) as [X1 _].
  set (k := (ilog2 x - 52)%Z) in *.
  pose proof (two_pow_pos k) as Pk.
  destruct (rhe_error (x / 2 ^ k)) as [E1 E2].
  set (m := inject_Z (round_half_even (x / 2 ^ k))) in *.
  assert (Ex : x / 2 ^ k * 2 ^ k == x) by (field; lra).
  assert (Hulp : 2 ^ k * (1 # 2) <= x * 2 ^ (-53)).
  { assert (E : 2 ^ k * (1 # 2) == 2 ^ ilog2 x * 2 ^ (-53)).
    { replace (ilog2 x) with (k + 52)%Z by (unfold k; lia).
      rewrite Qpower_plus by discriminate.
      change (2 ^ 52) with (inject_Z (2 ^ 52)).
      change (2 ^ (-53)) with (1 # 9007199254740992).
      change (inject_Z (2 ^ 52)) with (4503599627370496 # 1).
      field. }
    rewrite E. apply Qmult_le_compat_r; [exact X1|discriminate]. }
  assert (M1 : (x / 2 ^ k - (1 # 2)) * 2 ^ k <= m * 2 ^ k)
    by (apply Qmult_le_compat_r; lra).
  assert (M2 : m * 2 ^ k <= (x / 2 ^ k + (1 # 2)) * 2 ^ k)
    by (apply Qmult_le_compat_r; lra).
  split; lra.
Qed.

Lemma round53_error (x : Q) :
  0 <= x ->
  x - x * 2 ^ (-53) <= round53 x /\ round53 x <= x + x * 2 ^ (-53).
Proof.
  intros Hx. unfold round53.
  destruct (Qcompare x 0) eqn:C.
  - rewrite <- Qeq_alt in C. rewrite C. split; lra.
  - rewrite <- Qlt_alt in C. lra.
  - rewrite <- Qgt_alt in C. apply round53_pos_error, C.
Qed.

(** a batch of up to [2^45] channels: the percentage shown is the exact
    [floor(100 * i / total)] or one below it *)
Lemma percent_accuracy (total i : nat) :
  (0 < total)%nat -> (Z.of_nat total <= 2 ^ 45)%Z -> (i < total)%nat ->
  ((100 * Z.of_nat i) / Z.of_nat total - 1 <= percent total i
   <= (100 * Z.of_nat i) / Z.of_nat total)%Z.
Proof.
  intros Hpos Hb Hi. change (2 ^ 45)%Z with 35184372088832%Z in Hb.
  set (n := Z.of_nat total) in *. set (j := Z.of_nat i).
  assert (Hn : (0 < n)%Z) by (unfold n; lia).
  assert (Hj : (0 <= j < n)%Z) by (unfold j, n; lia).
  set (e := (100 * j / n)%Z).
  assert (He : (n * e <= 100 * j < n * (e + 1))%Z).
  { unfold e. pose proof (Z.mul_div_le (100 * j) n Hn).
    pose proof (Z.mul_succ_div_gt (100 * j) n Hn). lia. }
  set (x := inject_Z j / inject_Z n).
  assert (Pn : 0 < inject_Z n) by (rewrite <- (Zlt_Qlt 0); exact Hn).
  assert (Hx0 : 0 <= x) by (apply quot_nonneg).
  assert (Hx1 : x <= 1).
  { apply Qle_shift_div_r; [exact Pn|]. rewrite Qmult_1_l, <- Zle_Qle. lia. }
  assert (Hlo : inject_Z e <= 100 * x).
  { unfold x.
    assert (H1 : inject_Z e * inject_Z n <= 100 * inject_Z j).
    { change 100 with (inject_Z 100). rewrite <- !inject_Z_mult, <- Zle_Qle. lia. }
    assert (H2 : inject_Z e <= 100 * inject_Z j / inject_Z n)
      by (apply Qle_shift_div_l; assumption).
    assert (E : 100 * (inject_Z j / inject_Z n) == 100 * inject_Z j / inject_Z n)
      by (field; lra).
    rewrite E. exact H2. }
  assert (Hhi : 100 * x <= inject_Z e + 1 - 1 / inject_Z n).
  { unfold x.
    assert (H0 : 100 * inject_Z j + 1 <= (inject_Z e + 1) * inject_Z n).
    { change 100 with (inject_Z 100). change 1 with (inject_Z 1).
      rewrite <- !inject_Z_plus, <- !inject_Z_mult, <- inject_Z_plus, <- Zle_Qle.
      lia. }
    assert (H1 : 100 * inject_Z j <= (inject_Z e + 1) * inject_Z n - 1) by lra.
    assert (E : 100 * (inject_Z j / inject_Z n)
                == 100 * inject_Z j / inject_Z n) by (field; lra).
    assert (E2 : inject_Z e + 1 - 1 / inject_Z n
                 == ((inject_Z e + 1) * inject_Z n - 1) / inject_Z n)
      by (field; lra).
    rewrite E, E2. apply Qmult_le_compat_r; [exact H1|].
    apply Qlt_le_weak, Qinv_lt_0_compat, Pn. }
  assert (Hinv : 201 * 2 ^ (-53) < 1 / inject_Z n).
  { apply Qlt_shift_div_l; [exact Pn|].
    change (2 ^ (-53)) with (1 # 9007199254740992).
    assert (inject_Z n <= 35184372088832) by
      (change 35184372088832 with (inject_Z 35184372088832);
       rewrite <- Zle_Qle; exact Hb).
    lra. }
  destruct (round53_error x Hx0) as [A1 A2].
  set (a := round53 x) in *.
  assert (Ha0 : 0 <= a) by (apply round53_nonneg, Hx0).
  assert (Ha : 0 <= 100 * a) by lra.
  destruct (round53_error (a * 100)) as [B1 B2]; [lra|].
  set (u := 2 ^ (-53)) in *.
  assert (Hu : 0 < u) by reflexivity.
  assert (Hu1 : u <= 1 # 100) by (unfold u; discriminate).
  assert (Hxu : x * u <= u) by nra.
  assert (Hau : a * 100 * u <= 101 * u) by nra.
  fold (fmul a 100) in B1, B2.
  unfold percent, truediv. fold j n x a.
  assert (Hb0 : 0 <= fmul a 100) by (apply round53_nonneg; lra).
  assert (Hint : py_int (fmul a 100) = Qfloor (fmul a 100)).
  { unfold py_int. destruct (Qcompare (fmul a 100) 0) eqn:C; try reflexivity.
    rewrite <- Qlt_alt in C. lra. }
  rewrite Hint. split.
  - assert (H : inject_Z (e - 1) <= fmul a 100).
    { replace (e - 1)%Z with (e + -1)%Z by lia.
      rewrite inject_Z_plus. change (inject_Z (-1)) with (-1). lra. }
    apply Qfloor_resp_le in H. rewrite Qfloor_Z in H. exact H.
  - assert (H : fmul a 100 < inject_Z (e + 1)).
    { rewrite inject_Z_plus. change (inject_Z 1) with 1. lra. }
    pose proof (Qfloor_le (fmul a 100)) as Hf.
    assert (H' : inject_Z (Qfloor (fmul a 100)) < inject_Z (e + 1)) by lra.
    rewrite <- Zlt_Qlt in H'. lia.
Qed.

End PercentAccuracy.

(** X1: for a batch of up to [2^45] channels, the percentage the code
    computes with floats, [int((i / total) * 100)], is the exact
    [floor(100 * i / total)] or one below it, and never above it. *)
Theorem percent_is_exact_or_one_below (total i : nat) :
  0 < total -> (Z.of_nat total <= 2 ^ 45)%Z -> i < total ->
  ((100 * Z.of_nat i) / Z.of_nat total - 1 <= Float64.percent total i
   <= (100 * Z.of_nat i) / Z.of_nat total)%Z.
Proof. apply percent_accuracy. Qed.

(** X1, channel 29 of 100: the exact percentage is 29, the code shows 28. *)
Lemma percent_is_exact_or_one_below_at_29_of_100 :
  ((100 * 29) / 100 - 1 <= Float64.percent 100 29 <= (100 * 29) / 100)%Z
  /\ Float64.percent 100 29 = 28%Z.
Proof.
  split; [|vm_compute; reflexivity].
  apply (percent_is_exact_or_one_below 100 29); [lia|vm_compute; discriminate|lia].
Defined.

(** ** The tool path *)
Section ResolverFacts.
Import StreamChecker Resolver.



End ResolverFacts.


(** ** The endpoints of routers/tools.py *)
Section ToolsFacts.
Import Tools.

Lemma channel_ids_elem (req : CheckRequest) (i : Z) :
  i ∈ channel_ids req <->
  i <> 0%Z /\ exists it, it ∈ items req /\ item_id it = Some i.
Proof.
  unfold channel_ids. rewrite list_elem_of_omap. split.
  - intros (it & Hin & Hid).
    destruct (item_id it) as [j|] eqn:E; [|discriminate].
    destruct (Z.eqb_spec j 0); [discriminate|].
    injection Hid as ->. split; [assumption|]. exists it. split; assumption.
  - intros (Hne & it & Hin & Hid). exists it. split; [exact Hin|].
    rewrite Hid. destruct (Z.eqb_spec i 0); [contradiction|reflexivity].
Qed.

Lemma channel_ids_nil (req : CheckRequest) :
  channel_ids req = [] <->
  forall it, it ∈ items req -> item_id it = None \/ item_id it = Some 0%Z.
Proof.
  split.
  - intros Hnil it Hin.
    destruct (item_id it) as [j|] eqn:E; [|left; reflexivity].
    destruct (Z.eq_dec j 0%Z) as [->|Hj]; [right; reflexivity|].
    assert (H : j ∈ channel_ids req)
      by (apply channel_ids_elem; split; [exact Hj|exists it; split; assumption]).
    rewrite Hnil in H. apply elem_of_nil in H. contradiction.
  - intros Hall. destruct (channel_ids req) as [|j l] eqn:E; [reflexivity|].
    assert (H : j ∈ channel_ids req) by (rewrite E; left).
    apply channel_ids_elem in H as (Hj & it & Hin & Hid).
    destruct (Hall it Hin) as [H|H]; congruence.
Qed.

Lemma item_urls_return (its : list item) (us : list pystr) :
  item_urls its = Return us <-> map item_url its = map Some us.
Proof.
  revert us. induction its as [|it its IH]; intros us; simpl.
  - split.
    + intros [= <-]. reflexivity.
    + destruct us; [reflexivity|discriminate].
  - destruct (item_url it) as [u|].
    + destruct (item_urls its) as [us'|e] eqn:E; simpl.
      * split.
        -- intros [= <-]. simpl. f_equal. apply IH. reflexivity.
        -- destruct us as [|u0 us0]; [discriminate|]. simpl.
           intros [= -> H]. apply IH in H. congruence.
      * split; [discriminate|].
        destruct us as [|u0 us0]; [discriminate|]. simpl.
        intros [= -> H]. apply IH in H. discriminate.
    + split; [discriminate|]. destruct us; discriminate.
Qed.

Lemma item_urls_raise (its : list item) (e : exn) :
  item_urls its = Raise e ->
  e = OtherException (py "'url'") /\ exists it, it ∈ its /\ item_url it = None.
Proof.
  induction its as [|it its IH]; simpl; [discriminate|].
  destruct (item_url it) as [u|] eqn:Eu.
  - destruct (item_urls its) as [us'|e'] eqn:E; simpl; [discriminate|].
    intros [= ->]. destruct (IH eq_refl) as (He & it' & Hin & Hnone).
    split; [exact He|]. exists it'. split; [right; exact Hin|exact Hnone].
  - intros [= <-]. split; [reflexivity|]. exists it. split; [left|exact Eu].
Qed.

Lemma gather_map_return {A B : Type} (instant : nat -> nat)
    (f : A -> outcome B) (l : list A) (rs : list B) :
  StreamChecker.gather instant (map f l) = Return rs <->
  Forall2 (fun a r => f a = Return r) l rs.
Proof.
  rewrite gather_return. change (map f l) with (f <$> l).
  rewrite Forall2_fmap_l. reflexivity.
Qed.

End ToolsFacts.

(** X3: [POST /check-stream-visual] hands to the broker exactly the
    identifiers of the request's items that are neither missing nor 0, with
    the source tag "manual", and records the task as pending at 0 percent
    under the identifier it answers with, leaving every other task record
    alone; when no item carries such an identifier it answers with an error,
    records nothing and starts nothing. *)
Theorem visual_check_request_keeps_truthy_ids
    (req : Tools.CheckRequest) (task_id : pystr)
    (records : gmap pystr Tools.TaskRecord) :
  let '(answer, records', started) :=
    Tools.check_stream_visual req task_id records in
  (forall i, i ∈ Tools.channel_ids req <->
             i <> 0%Z /\ exists it, it ∈ Tools.items req
                                    /\ Tools.item_id it = Some i)
  /\ match started with
     | Some d =>
         Tools.d_channel_ids d = Tools.channel_ids req
         /\ Tools.d_channel_ids d <> []
         /\ Tools.d_source d = py "manual"
         /\ Tools.d_task_id d = task_id
         /\ answer = Tools.Success task_id
                       [24050; 22312; 21518; 21488; 21551; 21160; 28145; 24230;
                        26816; 27979; 20219; 21153]%N
         /\ (exists rec, records' !! task_id = Some rec
                         /\ Tools.tr_status rec = py "pending"
                         /\ Tools.tr_progress rec = 0%Z)
         /\ (forall k, k <> task_id -> records' !! k = records !! k)
     | None =>
         (forall it, it ∈ Tools.items req ->
                     Tools.item_id it = None \/ Tools.item_id it = Some 0%Z)
         /\ records' = records
         /\ exists message, answer = Tools.Error message
     end.
Proof.
  unfold Tools.check_stream_visual.
  destruct (Tools.channel_ids req) as [|i ids] eqn:E.
  - split; [intros i; rewrite <- E; apply channel_ids_elem|].
    split; [apply channel_ids_nil, E|]. split; [reflexivity|eauto].
  - split; [intros j; rewrite <- E; apply channel_ids_elem|].
    simpl. repeat (split; [reflexivity || discriminate|]).
    split.
    + eexists. rewrite lookup_insert_eq. split; [reflexivity|].
      split; reflexivity.
    + intros k Hk. apply lookup_insert_ne. congruence.
Qed.

(** X4: [POST /check-connectivity] checks the URLs of [req.urls] when there
    are any, and then ignores the items altogether; otherwise it checks the
    URLs of the items, and raises [KeyError('url')] without checking anything
    as soon as one item has no URL.  When it answers, the answer holds one
    result per URL checked, in the order of the URLs, each the result of the
    check of that URL. *)
Theorem connectivity_check_targets
    (Result : Type) (check_url : pystr -> outcome Result)
    (instant : nat -> nat) (req : Tools.CheckRequest) :
  (Tools.urls req <> [] -> Tools.target_urls req = Return (Tools.urls req))
  /\ (Tools.urls req = [] ->
      (forall us, Tools.target_urls req = Return us <->
                  map Tools.item_url (Tools.items req) = map Some us)
      /\ ((exists it, it ∈ Tools.items req /\ Tools.item_url it = None) ->
          Tools.check_connectivity Result check_url instant req
          = Raise (OtherException (py "'url'"))))
  /\ (forall rs,
        Tools.check_connectivity Result check_url instant req = Return rs <->
        exists us, Tools.target_urls req = Return us
                   /\ Forall2 (fun u r => check_url u = Return r) us rs).
Proof.
  split; [|split].
  - unfold Tools.target_urls. destruct (Tools.urls req); [congruence|reflexivity].
  - intros Hnil. unfold Tools.check_connectivity, Tools.target_urls.
    rewrite Hnil. split; [intros us; apply item_urls_return|].
    intros (it & Hin & Hnone).
    destruct (Tools.item_urls (Tools.items req)) as [us|e] eqn:E.
    + apply item_urls_return in E.
      apply list_elem_of_lookup in Hin as [k Hk].
      assert (H : map Tools.item_url (Tools.items req) !! k = Some None).
      { change (map ?f ?l) with (f <$> l). rewrite list_lookup_fmap, Hk.
        simpl. rewrite Hnone. reflexivity. }
      rewrite E in H. change (map ?f ?l) with (f <$> l) in H.
      rewrite list_lookup_fmap in H. destruct (us !! k); discriminate.
    + simpl. apply item_urls_raise in E as [-> _]. reflexivity.
  - intros rs. unfold Tools.check_connectivity.
    destruct (Tools.target_urls req) as [us|e]; simpl.
    + rewrite gather_map_return. split.
      * intros H. exists us. split; [reflexivity|exact H].
      * intros (us' & [= <-] & H). exact H.
    + split; [discriminate|]. intros (us' & H & _). discriminate.
Qed.

(** ** The subscription endpoints *)
Section StoreFacts.
Import Stdout Store.

Lemma get_in_range {A : Type} (table : gmap Z A) (key : Z) :
  Sqlite.integer key = true -> Sqlite.get table key = Return (table !! key).
Proof. intros H. unfold Sqlite.get, Sqlite.bind_int. rewrite H. reflexivity. Qed.

Lemma get_out_of_range {A : Type} (table : gmap Z A) (key : Z) :
  Sqlite.integer key = false -> Sqlite.get table key = Raise Sqlite.OverflowError.
Proof. intros H. unfold Sqlite.get, Sqlite.bind_int. rewrite H. reflexivity. Qed.

Lemma channels_of_lookup (sub_id : Z) (t : tables) (k : Z) (c : Channel) :
  channels_of sub_id t !! k = Some c <->
  channels t !! k = Some c /\ subscription_id c = Some sub_id.
Proof. unfold channels_of. rewrite map_lookup_filter_Some. reflexivity. Qed.

Lemma delete_subscription_ok (sub_id : Z) (t t' : tables) :
  delete_subscription sub_id t = Ok t' ->
  Sqlite.integer sub_id = true
  /\ (exists sub, subscriptions t !! sub_id = Some sub
                  /\ encodable (sub_name sub) = true)
  /\ subscriptions t' = delete sub_id (subscriptions t)
  /\ channels t'
     = filter (fun kc => subscription_id kc.2 <> Some sub_id) (channels t).
Proof.
  unfold delete_subscription.
  destruct (Sqlite.integer sub_id) eqn:Ei.
  2:{ rewrite get_out_of_range by exact Ei. discriminate. }
  rewrite get_in_range by exact Ei.
  destruct (subscriptions t !! sub_id) as [s|] eqn:E; [|discriminate].
  destruct (print _) as [[]|e] eqn:Ep; [|discriminate].
  intros [= <-]. split; [reflexivity|]. split; [|split; reflexivity].
  exists s. split; [reflexivity|].
  apply print_return in Ep. unfold delete_line in Ep.
  rewrite !encodable_app in Ep.
  apply andb_true_iff in Ep as [_ Ep]. apply andb_true_iff in Ep as [Ep _].
  exact Ep.
Qed.

Lemma delete_line_encodable (sub_name : pystr) (sub_id : Z) :
  encodable (delete_line sub_name sub_id) = encodable sub_name.
Proof.
  unfold delete_line.
  rewrite !encodable_app, !encodable_py, encodable_str_of_int.
  change (encodable [91; 65; 99; 116; 105; 111; 110; 93; 32; 21024; 38500;
                     35746; 38405; 58; 32]%N) with true.
  simpl. rewrite !andb_true_r. reflexivity.
Qed.

(** the channels of another subscription are the same before and after *)
Lemma delete_keeps_other_channels (sub_id other : Z) (t t' : tables) :
  delete_subscription sub_id t = Ok t' -> other <> sub_id ->
  channels_of other t' = channels_of other t.
Proof.
  intros Hdel Hne. apply delete_subscription_ok in Hdel as (_ & _ & _ & Hch).
  apply map_eq. intros k. apply option_eq. intros c.
  rewrite !channels_of_lookup, Hch, map_lookup_filter_Some. simpl.
  split.
  - intros [[H1 _] H2]. split; assumption.
  - intros [H1 H2]. split; [split; [exact H1|]|exact H2].
    rewrite H2. congruence.
Qed.



End StoreFacts.

(** X5: [DELETE /subscriptions/{sub_id}] raises [OverflowError] (a 500) when
    [sub_id] is not a 64-bit number, and answers 404 when it is one and
    there is no such subscription (rows of the channel table that name a
    missing subscription are not looked at).  When the subscription exists
    but its name cannot be printed, the print raises and nothing is deleted.
    Otherwise the subscription is gone, the other subscriptions are
    unchanged, and the channels left are exactly the old channels that belong
    to another subscription or to none, each unchanged. *)
Theorem delete_subscription_removes_its_channels (sub_id : Z) (t : Store.tables) :
  (Sqlite.integer sub_id = false ->
   Store.delete_subscription sub_id t = Store.Unhandled Sqlite.OverflowError)
  /\ (Sqlite.integer sub_id = true ->
      Store.subscriptions t !! sub_id = None ->
      Store.delete_subscription sub_id t = Store.not_found)
  /\ (forall s,
        Sqlite.integer sub_id = true ->
        Store.subscriptions t !! sub_id = Some s ->
        Stdout.encodable (Store.sub_name s) = false ->
        Store.delete_subscription sub_id t
        = Store.Unhandled
            (Stdout.UnicodeEncodeError
               (Store.delete_line (Store.sub_name s) sub_id)))
  /\ (forall s,
        Sqlite.integer sub_id = true ->
        Store.subscriptions t !! sub_id = Some s ->
        Stdout.encodable (Store.sub_name s) = true ->
        exists t',
          Store.delete_subscription sub_id t = Store.Ok t'
          /\ Store.subscriptions t' !! sub_id = None
          /\ (forall k, k <> sub_id ->
                Store.subscriptions t' !! k = Store.subscriptions t !! k)
          /\ (forall k c,
                Store.channels t' !! k = Some c <->
                Store.channels t !! k = Some c
                /\ subscription_id c <> Some sub_id)
          /\ Store.channels_of sub_id t' = ∅).
Proof.
  unfold Store.delete_subscription. split; [|split; [|split]].
  - intros Ei. rewrite get_out_of_range by exact Ei. reflexivity.
  - intros Ei E. rewrite get_in_range by exact Ei. rewrite E. reflexivity.
  - intros s Ei E Hn. rewrite get_in_range by exact Ei. rewrite E.
    unfold Stdout.print. rewrite delete_line_encodable, Hn. reflexivity.
  - intros s Ei E Hn. rewrite get_in_range by exact Ei. rewrite E.
    unfold Stdout.print. rewrite delete_line_encodable, Hn.
    eexists. split; [reflexivity|]. simpl.
    split; [apply lookup_delete_eq|].
    split; [intros k Hk; apply lookup_delete_ne; congruence|].
    split.
    + intros k c. rewrite map_lookup_filter_Some. reflexivity.
    + apply map_eq. intros k. rewrite lookup_empty.
      apply eq_None_not_Some. intros [c Hc].
      apply channels_of_lookup in Hc as [Hc Hsub]. simpl in Hc.
      apply map_lookup_filter_Some in Hc as [_ Hne]. simpl in Hne. contradiction.
Qed.

(** X6: after a subscription has been deleted, asking for its channels or
    deleting it again answers 404, while the channel list of every other
    subscription is answered as before the deletion. *)
Theorem deleted_subscription_is_gone (sub_id : Z) (t t' : Store.tables) :
  Store.delete_subscription sub_id t = Store.Ok t' ->
  Store.get_subscription_channels sub_id t' = Store.not_found
  /\ Store.delete_subscription sub_id t' = Store.not_found
  /\ forall other, other <> sub_id ->
       Store.get_subscription_channels other t'
       = Store.get_subscription_channels other t.
Proof.
  intros Hdel.
  pose proof (delete_subscription_ok _ _ _ Hdel) as (Hi & _ & Hsubs & _).
  unfold Store.get_subscription_channels, Store.delete_subscription.
  rewrite !get_in_range by exact Hi.
  rewrite Hsubs, lookup_delete_eq. split; [reflexivity|]. split; [reflexivity|].
  intros other Hne.
  destruct (Sqlite.integer other) eqn:Eo.
  2:{ rewrite !get_out_of_range by exact Eo. reflexivity. }
  rewrite !get_in_range by exact Eo.
  rewrite lookup_delete_ne by congruence.
  destruct (Store.subscriptions t !! other); [|reflexivity].
  f_equal. apply (delete_keeps_other_channels _ _ _ _ Hdel Hne).
Qed.

(** X6, run on a storage with one subscription and one channel of it. *)
Lemma deleted_subscription_is_gone_at_one :
  let sub := {| Store.sub_name := py "s"; Store.sub_url := py "http://s";
                Store.user_agent := None; Store.headers := None;
                Store.auto_update_minutes := 0; Store.sub_is_enabled := true;
                Store.last_updated := None;
                Store.last_update_status := None |} in
  let t := {| Store.subscriptions := <[1%Z := sub]> ∅;
              Store.channels := <[1%Z := Samples.channel 1 "a"]> ∅ |} in
  exists t', Store.delete_subscription 1 t = Store.Ok t'
             /\ Store.get_subscription_channels 1 t' = Store.not_found
             /\ Store.delete_subscription 1 t' = Store.not_found.
Proof.
  intros sub t.
  assert (Hdel : exists t', Store.delete_subscription 1 t = Store.Ok t').
  { unfold Store.delete_subscription.
    rewrite get_in_range by reflexivity.
    unfold t at 1. cbn [Store.subscriptions]. rewrite lookup_insert_eq.
    unfold Stdout.print. rewrite delete_line_encodable.
    unfold sub at 1. cbn [Store.sub_name]. rewrite encodable_py.
    eexists. reflexivity. }
  destruct Hdel as [t' Hdel]. exists t'. split; [exact Hdel|].
  destruct (deleted_subscription_is_gone 1 t t' Hdel) as (H1 & H2 & _).
  split; [exact H1|exact H2].
Defined.


(** ** More on the batch *)
Section BatchMore.
Import StreamChecker.
Variable utf8_decode_ignore : list Byte.byte -> pystr.
Variable b64encode : list Byte.byte -> pystr.

Local Notation "'probe_of'" := (check_stream_visual utf8_decode_ignore b64encode).

(** a dict of the probe has an image or an error, never both, never none *)
Lemma probe_dict_shape (u : pystr) (w : tool_world) (r : probe_dict) :
  probe_of u w = Return r ->
  if p_status r then is_Some (p_image r) /\ p_error r = None
  else p_image r = None /\ is_Some (p_error r).
Proof.
  intros H. apply probe_return in H as [_ H].
  exact (proj2 (guarded_shape _ _ _ _ _ H)).
Qed.

(** the attribute of the batch after the tasks' first steps *)
Lemma run_tasks_own_attr (total : nat) (task_id : option pystr)
    (world : nat -> task_world) (tasks : list (nat * Channel))
    (st : runner_state) :
  attrs (shared (run_tasks utf8_decode_ignore b64encode total task_id world
                   tasks st))
    !! attr_name task_id
  = match last (throttle total (last_of task_id st) tasks) with
    | Some r => Some (r_progress r)
    | None => attrs st !! attr_name task_id
    end.
Proof.
  revert st. induction tasks as [|[i ch] rest IH]; intros st.
  - reflexivity.
  - rewrite run_tasks_cons. cbv zeta. cbn [shared].
    rewrite IH, bounded_check_eq. simpl throttle.
    destruct (should_report (last_of task_id st) (Float64.percent total i)).
    + cbn [fst]. rewrite last_of_reported. rewrite last_cons. simpl attrs.
      rewrite lookup_insert_eq.
      destruct (last (throttle total (Float64.percent total i) rest));
        reflexivity.
    + reflexivity.
Qed.

Lemma enumerate_from_lookup {A : Type} (k0 : nat) (l : list A) (k : nat) (x : A) :
  l !! k = Some x -> enumerate_from k0 l !! k = Some (k0 + k, x).
Proof.
  revert k0 k. induction l as [|y l IH]; intros k0 [|k]; simpl; try discriminate.
  - intros [= ->]. rewrite Nat.add_0_r. reflexivity.
  - intros H. rewrite (IH (S k0) k H). f_equal. f_equal. lia.
Qed.

(** the dicts written back carry the identifiers of the channels, in order *)
Lemma results_ids (world : nat -> task_world) (k0 : nat)
    (chs : list Channel) (results : list result_dict) :
  Forall2 (result_for utf8_decode_ignore b64encode world)
          (enumerate_from k0 chs) results ->
  map ch_id results = map id chs.
Proof.
  revert k0 results. induction chs as [|c chs IH]; intros k0 results H; simpl in H.
  - inversion H. reflexivity.
  - inversion H as [|t r ts rs [_ Hid] Hrest]; subst. simpl in *.
    rewrite Hid. f_equal. eapply IH, Hrest.
Qed.

End BatchMore.

Section BatchMoreEnd.
Import StreamChecker.
Variable utf8_decode_ignore : list Byte.byte -> pystr.
Variable b64encode : list Byte.byte -> pystr.
Variable st : runner_state.
Variable db : gmap Z Channel.
Variable channels : list Channel.
Variable source : pystr.
Variable task_id : option pystr.
Variable world : nat -> task_world.
Variable utcnow : nat -> Z.

Local Notation "'probe_of'" := (check_stream_visual utf8_decode_ignore b64encode).
Local Notation "'the_batch'" :=
  (run_batch_check utf8_decode_ignore b64encode st db channels source task_id
     world utcnow).
Local Notation "'the_tasks'" :=
  (run_tasks utf8_decode_ignore b64encode (length channels) task_id world
     (enumerate channels) st).

(** the storage of a batch is the old one or a writeback of the dicts of its
    channels *)
Lemma batch_storage :
  storage the_batch = db
  \/ exists results,
       map ch_id results = map id channels
       /\ storage the_batch = writeback source utcnow db results.
Proof.
  destruct channels as [|c chs] eqn:Ech; [left; reflexivity|].
  rewrite <- Ech.
  assert (Hne : channels <> []) by (rewrite Ech; discriminate).
  destruct (returned the_batch) as [[]|e] eqn:Er.
  - right.
    destruct (batch_returned utf8_decode_ignore b64encode st db channels
                source task_id world utcnow Hne Er) as (results & HF & Hst & _).
    exists results. split; [|exact Hst].
    eapply results_ids, HF.
  - left. apply batch_raised in Er as [Hst _]. exact Hst.
Qed.

End BatchMoreEnd.

(** X8: a batch over at least one channel that returns leaves no trace on
    the class: the attribute [_last_p_<task_id>] it used for the throttle is
    removed.  A batch that raises does not clean up: the attribute stays,
    holding the percentage of the last report.  In both cases every other
    attribute is as before. *)
Theorem batch_removes_its_progress_attribute
    (utf8_decode_ignore b64encode : list Byte.byte -> pystr)
    (st : StreamChecker.runner_state) (db : gmap Z Channel)
    (c : Channel) (cs : list Channel) (source : pystr)
    (task_id : option pystr) (world : nat -> StreamChecker.task_world)
    (utcnow : nat -> Z) :
  let b := StreamChecker.run_batch_check utf8_decode_ignore b64encode
             st db (c :: cs) source task_id world utcnow in
  let own := StreamChecker.attr_name task_id in
  (StreamChecker.returned b = Return tt ->
   StreamChecker.attrs (StreamChecker.final_state b) !! own = None)
  /\ (forall e, StreamChecker.returned b = Raise e ->
      exists r, last (StreamChecker.batch_reports st b) = Some r
                /\ StreamChecker.attrs (StreamChecker.final_state b) !! own
                   = Some (StreamChecker.r_progress r))
  /\ (forall a, a <> own ->
        StreamChecker.attrs (StreamChecker.final_state b) !! a
        = StreamChecker.attrs st !! a).
Proof.
  intros b own. unfold b, own. clear b own.
  assert (Hne : c :: cs <> []) by discriminate.
  assert (Hlast : exists r,
             last (StreamChecker.throttle (length (c :: cs))
                     (StreamChecker.last_of task_id st)
                     (StreamChecker.enumerate (c :: cs))) = Some r).
  { unfold StreamChecker.enumerate. rewrite throttle_first, last_cons.
    destruct (last (StreamChecker.throttle _ 0 _)) as [r|]; eauto. }
  pose proof (run_tasks_own_attr utf8_decode_ignore b64encode (length (c :: cs))
                task_id world (StreamChecker.enumerate (c :: cs)) st) as Hown.
  pose proof (run_tasks_attrs utf8_decode_ignore b64encode (length (c :: cs))
                task_id world (StreamChecker.enumerate (c :: cs)) st) as Hother.
  rewrite batch_reports_throttle.
  rewrite (batch_unfold _ _ _ _ _ _ _ _ _ Hne).
  set (chs := c :: cs) in *. clearbody chs.
  destruct (StreamChecker.gather _ _) as [results|e];
    cbn [StreamChecker.final_state StreamChecker.attrs StreamChecker.returned].
  - split; [intros _; apply lookup_delete_eq|].
    split; [discriminate|].
    intros a Ha. rewrite lookup_delete_ne by congruence.
    apply Hother. exact Ha.
  - split; [discriminate|]. split.
    + intros e' _. rewrite Hown.
      destruct Hlast as (r & ->). eauto.
    + intros a Ha. apply Hother. exact Ha.
Qed.

(** X9: a batch never adds or removes a row of the storage, leaves the name,
    the URL, the group, the logo and the subscription of every row alone, and
    leaves alone altogether every row whose identifier is not the identifier
    of one of its channels. *)
Theorem batch_touches_only_its_channels
    (utf8_decode_ignore b64encode : list Byte.byte -> pystr)
    (st : StreamChecker.runner_state) (db : gmap Z Channel)
    (channels : list Channel) (source : pystr) (task_id : option pystr)
    (world : nat -> StreamChecker.task_world) (utcnow : nat -> Z) :
  let b := StreamChecker.run_batch_check utf8_decode_ignore b64encode
             st db channels source task_id world utcnow in
  (forall k, db !! k = None -> StreamChecker.storage b !! k = None)
  /\ (forall k row, db !! k = Some row ->
        exists row', StreamChecker.storage b !! k = Some row'
                     /\ StreamChecker.same_row row row')
  /\ (forall k, (forall ch, ch ∈ channels -> id ch <> Some k) ->
        StreamChecker.storage b !! k = db !! k).
Proof.
  intros b. unfold b.
  destruct (batch_storage utf8_decode_ignore b64encode st db channels source
              task_id world utcnow) as [->|(results & Hids & ->)].
  - split; [auto|]. split; [|reflexivity].
    intros k row H. exists row. split; [exact H|apply same_row_refl].
  - split; [|split].
    + intros k Hk.
      pose proof (writeback_from_row source utcnow 0 db results k) as H.
      rewrite Hk in H. exact H.
    + intros k row Hk.
      pose proof (writeback_from_row source utcnow 0 db results k) as H.
      rewrite Hk in H. exact H.
    + intros k Hk. apply writeback_from_other.
      intros r Hr Hid.
      assert (Hin : Some k ∈ map id channels).
      { rewrite <- Hids, <- Hid. apply list_elem_of_fmap. eauto. }
      apply list_elem_of_fmap in Hin as (ch & Hch & Hin).
      apply (Hk ch Hin). congruence.
Qed.

Section EndToEnd.
Import StreamChecker.
Variable utf8_decode_ignore : list Byte.byte -> pystr.
Variable b64encode : list Byte.byte -> pystr.
Variable source : pystr.
Variable world : nat -> task_world.
Variable utcnow : nat -> Z.

(** among dicts with pairwise different identifiers, the dict of channel [k]
    decides the row of that channel *)
Lemma writeback_own_result (db : gmap Z Channel) (chs : list Channel)
    (results : list result_dict) (k : nat) (c : Channel) (i : Z)
    (row : Channel) :
  Forall2 (result_for utf8_decode_ignore b64encode world)
          (enumerate chs) results ->
  NoDup (map id chs) ->
  chs !! k = Some c -> id c = Some i -> i <> 0%Z -> db !! i = Some row ->
  exists res before,
    check_stream_visual utf8_decode_ignore b64encode (url c) (tool (world k))
    = Return (probe res)
    /\ same_row row before
    /\ writeback source utcnow db results !! i
       = Some (record_check source (utcnow k) before res).
Proof.
  intros HF Hnd Hk Hid Hi Hdb.
  pose proof (results_ids _ _ _ _ _ _ HF) as Hids.
  pose proof (enumerate_from_lookup 0 chs k c Hk) as Hek. simpl in Hek.
  destruct (Forall2_lookup_l _ _ _ _ _ HF Hek) as (res & Hres & [Hprobe Hrid]).
  simpl in Hprobe, Hrid.
  apply list_elem_of_split_length in Hres as (pre & post & Hsplit & Hlen).
  assert (Hpost : forall r', r' ∈ post -> ch_id r' <> Some i).
  { intros r' Hr' Hid'.
    rewrite <- Hids, Hsplit, map_app in Hnd. simpl in Hnd.
    apply NoDup_app in Hnd as (_ & _ & Hnd).
    apply NoDup_cons in Hnd as [Hnotin _].
    apply Hnotin. rewrite Hrid, Hid, <- Hid'.
    apply list_elem_of_fmap. eauto. }
  destruct (writeback_last_wins source utcnow db pre post res i row)
    as (before & Hsame & Hw); try assumption; [congruence|].
  exists res, before. rewrite Hsplit.
  split; [exact Hprobe|]. split; [exact Hsame|]. rewrite Hlen. exact Hw.
Qed.

End EndToEnd.

(** X10: in a batch that returns, over channels with pairwise different
    identifiers, every channel whose identifier is not 0 and still in the
    storage is written with the outcome of its own probe: success flag and
    enabled flag are the probe's status, the timestamp is the clock at the
    channel's position, the source tag is the batch's, the frame is the
    probe's frame and the error is the probe's error; a success stores the
    frame and no error, a failure stores the error and no frame. *)
Theorem batch_writes_each_channel_its_own_probe
    (utf8_decode_ignore b64encode : list Byte.byte -> pystr)
    (st : StreamChecker.runner_state) (db : gmap Z Channel)
    (channels : list Channel) (source : pystr) (task_id : option pystr)
    (world : nat -> StreamChecker.task_world) (utcnow : nat -> Z)
    (k : nat) (c : Channel) (i : Z) (row : Channel) :
  let b := StreamChecker.run_batch_check utf8_decode_ignore b64encode
             st db channels source task_id world utcnow in
  StreamChecker.returned b = Return tt ->
  NoDup (map id channels) ->
  channels !! k = Some c -> id c = Some i -> i <> 0%Z -> db !! i = Some row ->
  exists r row',
    StreamChecker.check_stream_visual utf8_decode_ignore b64encode (url c)
      (StreamChecker.tool (world k)) = Return r
    /\ StreamChecker.storage b !! i = Some row'
    /\ check_status row' = Some (StreamChecker.p_status r)
    /\ is_enabled row' = StreamChecker.p_status r
    /\ check_date row' = Some (utcnow k)
    /\ check_source row' = Some source
    /\ check_image row' = StreamChecker.p_image r
    /\ check_error row' = StreamChecker.p_error r
    /\ (if StreamChecker.p_status r
        then is_Some (check_image row') /\ check_error row' = None
        else check_image row' = None /\ is_Some (check_error row'))
    /\ StreamChecker.same_row row row'.
Proof.
  intros b Hret Hnd Hk Hid Hi Hdb. unfold b in *. clear b.
  assert (Hne : channels <> []) by (intros ->; discriminate).
  destruct (batch_returned utf8_decode_ignore b64encode st db channels source
              task_id world utcnow Hne Hret) as (results & HF & Hst & _).
  destruct (writeback_own_result utf8_decode_ignore b64encode source world
              utcnow db channels results k c i row HF Hnd Hk Hid Hi Hdb)
    as (res & before & Hprobe & Hsame & Hw).
  exists (StreamChecker.probe res), (StreamChecker.record_check source (utcnow k) before res).
  split; [exact Hprobe|]. rewrite Hst. split; [exact Hw|].
  pose proof (probe_dict_shape _ _ _ _ _ Hprobe) as Hshape.
  simpl. repeat (split; [reflexivity|]).
  split; [|split].
  - destruct (StreamChecker.p_status (StreamChecker.probe res)); simpl;
      destruct Hshape as [H1 H2]; [symmetry; exact H2|reflexivity].
  - destruct (StreamChecker.p_status (StreamChecker.probe res)); simpl;
      destruct Hshape; split; assumption || reflexivity.
  - eapply same_row_trans; [exact Hsame|apply record_check_same_row].
Qed.

(** X10, run on a batch of two channels: the probe of the first gets a
    frame, the probe of the second fails with the text "404" on the tool's
    stderr, and each row holds the outcome of its own probe. *)
Lemma batch_writes_each_channel_its_own_probe_at_two :
  let db : gmap Z Channel :=
    <[1%Z := Samples.channel 1 "a"]> (<[2%Z := Samples.channel 2 "b"]> ∅) in
  let world := fun i : nat =>
    if Nat.eqb i 0 then Samples.quiet Samples.frame_ok
    else Samples.quiet Samples.no_output in
  let b := StreamChecker.run_batch_check Samples.latin1 Samples.latin1
             Samples.fresh db [Samples.channel 1 "a"; Samples.channel 2 "b"]
             (py "manual") (Some (py "t1")) world Samples.clock in
  (exists row',
     StreamChecker.storage b !! 2%Z = Some row'
     /\ check_status row' = Some false
     /\ check_date row' = Some (Samples.clock 1)
     /\ check_error row' = Some (py "404")
     /\ check_image row' = None)
  /\ (check_error <$> StreamChecker.storage b !! 1%Z) = Some None.
Proof.
  intros db world b. split.
  - destruct (batch_writes_each_channel_its_own_probe
                Samples.latin1 Samples.latin1 Samples.fresh db
                [Samples.channel 1 "a"; Samples.channel 2 "b"]
                (py "manual") (Some (py "t1")) world Samples.clock
                1 (Samples.channel 2 "b") 2%Z (Samples.channel 2 "b"))
      as (r & row' & Hr & Hrow & Hstat & _ & Hdate & _ & Himg & Herr & _).
    + vm_compute. reflexivity.
    + repeat constructor; [|intros H; apply elem_of_nil in H; exact H].
      intros H. apply list_elem_of_singleton in H. discriminate H.
    + reflexivity.
    + reflexivity.
    + discriminate.
    + reflexivity.
    + assert (Er : r = {| StreamChecker.p_url := py "b";
                          StreamChecker.p_status := false;
                          StreamChecker.p_image := None;
                          StreamChecker.p_error := Some (py "404") |}).
      { vm_compute in Hr. injection Hr as <-. reflexivity. }
      subst r. exists row'. fold b in Hrow.
      split; [exact Hrow|]. split; [exact Hstat|]. split; [exact Hdate|].
      split; [exact Herr|exact Himg].
  - vm_compute. reflexivity.
Defined.

(** ** The task *)
Section TaskFacts.
Import Stdout StreamChecker CheckTask.
Variable utf8_decode_ignore : list Byte.byte -> pystr.
Variable b64encode : list Byte.byte -> pystr.
Variable timeout_text : pystr.
Variable max_variables : nat.
Variable too_many_variables : list Z -> exn.

Lemma percent_le_100 (total i : nat) :
  i <= total -> (Float64.percent total i <= 100)%Z.
Proof.
  intros Hi. unfold Float64.percent, Float64.truediv.
  assert (C : Float64.py_int (Float64.fmul (Float64.round53 1) 100) = 100%Z)
    by (vm_compute; reflexivity).
  rewrite <- C. apply percent_chain; [apply quot_nonneg|].
  destruct total as [|n].
  - replace i with 0 by lia. discriminate.
  - apply Qle_shift_div_r.
    + rewrite <- (Zlt_Qlt 0). lia.
    + rewrite Qmult_1_l, <- Zle_Qle. lia.
Qed.

Lemma matching_elem (channel_ids : list Z) (table : list Channel) (c : Channel) :
  c ∈ matching channel_ids table <->
  c ∈ table /\ exists i, id c = Some i /\ i ∈ channel_ids.
Proof.
  unfold matching, id_in. rewrite !list_elem_of_In, filter_In.
  split.
  - intros [Hin Hc]. split; [exact Hin|].
    destruct (id c) as [i|]; [|discriminate].
    exists i. split; [reflexivity|]. apply bool_decide_eq_true in Hc. exact Hc.
  - intros [Hin (i & Hid & Hi)]. split; [exact Hin|].
    rewrite Hid. apply bool_decide_eq_true. exact Hi.
Qed.

Lemma matching_nodup (channel_ids : list Z) (table : list Channel) :
  NoDup (map id table) -> NoDup (map id (matching channel_ids table)).
Proof.
  induction table as [|c table IH]; simpl; [constructor|].
  intros [Hnotin Hnd]%NoDup_cons.
  destruct (id_in channel_ids c).
  - simpl. apply NoDup_cons. split; [|apply IH, Hnd].
    intros Hin. apply Hnotin.
    apply list_elem_of_fmap in Hin as (c' & Hc' & Hin).
    apply matching_elem in Hin as [Hin _].
    apply list_elem_of_fmap. eauto.
  - apply IH, Hnd.
Qed.

(** the query returns exactly when the statement is within the limit of
    bound parameters and every identifier is a 64-bit number *)
Lemma select_in_return (channel_ids : list Z) (table rows : list Channel) :
  select_in max_variables too_many_variables channel_ids table = Return rows <->
  length channel_ids <= max_variables
  /\ forallb Sqlite.integer channel_ids = true
  /\ rows = matching channel_ids table.
Proof.
  unfold select_in.
  destruct (Nat.ltb_spec max_variables (length channel_ids)).
  - split; [discriminate|]. intros [H' _]. lia.
  - destruct (forallb Sqlite.integer channel_ids); split.
    + intros [= <-]. auto.
    + intros (_ & _ & ->). reflexivity.
    + discriminate.
    + intros (_ & H' & _). discriminate.
Qed.

Lemma request_line_encodable (channel_ids : list Z) (source : pystr) :
  encodable (request_line channel_ids source) = encodable source.
Proof.
  unfold request_line.
  rewrite !encodable_app, !encodable_py, encodable_str_of_int.
  change (encodable [91; 84; 97; 115; 107; 93; 32; 25910; 21040; 28145; 24230;
                     26816; 27979; 35831; 27714; 58; 32]%N) with true.
  change (encodable [32; 20010; 39057; 36947; 32; 40; 26469; 28304; 58;
                     32]%N) with true.
  simpl. rewrite andb_true_r. reflexivity.
Qed.

Lemma interrupt_line_encodable (task_id text : pystr) :
  encodable (interrupt_line task_id text)
  = encodable task_id && encodable text.
Proof.
  unfold interrupt_line.
  rewrite !encodable_app, !encodable_py.
  change (encodable [91; 84; 97; 115; 107; 93; 32; 28145; 24230; 26816; 27979;
                     24322; 24120; 20013; 26029; 32; 40; 73; 68; 58;
                     32]%N) with true.
  reflexivity.
Qed.

(** the statements before the batch return the rows exactly when the sink
    works, the source can be printed and the query returns *)
Lemma selected_return (table : list Channel) (channel_ids : list Z)
    (source : pystr) (sinks : task_sinks) (rows : list Channel) :
  selected max_variables too_many_variables table channel_ids source sinks
  = Return rows <->
  on_running sinks = Return tt /\ encodable source = true
  /\ length channel_ids <= max_variables
  /\ forallb Sqlite.integer channel_ids = true
  /\ rows = matching channel_ids table.
Proof.
  unfold selected, print. rewrite request_line_encodable.
  destruct (on_running sinks) as [[]|e]; simpl.
  2:{ split; [discriminate|]. intros [H _]. discriminate. }
  destruct (encodable source); simpl.
  2:{ split; [discriminate|]. intros (_ & H & _). discriminate. }
  rewrite select_in_return. tauto.
Qed.

(** what they raise is what the sink, the print or the query raises *)
Lemma selected_raise (table : list Channel) (channel_ids : list Z)
    (source : pystr) (sinks : task_sinks) (e : exn) :
  selected max_variables too_many_variables table channel_ids source sinks
  = Raise e ->
  on_running sinks = Raise e
  \/ print (request_line channel_ids source) = Raise e
  \/ select_in max_variables too_many_variables channel_ids table = Raise e.
Proof.
  unfold selected.
  destruct (on_running sinks) as [[]|e0]; simpl;
    [|intros [= ->]; left; reflexivity].
  destruct (print _) as [[]|e1]; simpl; intros H.
  - right. right. exact H.
  - right. left. injection H as ->. reflexivity.
Qed.

Lemma omap_progress_reports (rs : list report) :
  omap s_progress (map call_of_report rs) = map r_progress rs.
Proof. induction rs as [|r rs IH]; [reflexivity|]. simpl. f_equal. exact IH. Qed.

Lemma sorted_snoc (l : list Z) (x : Z) :
  StronglySorted Z.le l -> Forall (fun y => (y <= x)%Z) l ->
  StronglySorted Z.le (l ++ [x]).
Proof.
  induction 1 as [|y l Hs IH Hy]; intros Hall; simpl.
  - repeat constructor.
  - apply Forall_cons in Hall as [Hyx Hall].
    constructor; [apply IH, Hall|].
    apply Forall_app. split; [exact Hy|]. repeat constructor. exact Hyx.
Qed.

(** the percentages of the reports of a batch lie between 0 and 100 *)
Lemma batch_reports_range (st : runner_state) (db : gmap Z Channel)
    (chs : list Channel) (source : pystr) (task_id : option pystr)
    (world : nat -> task_world) (utcnow : nat -> Z) :
  Forall (fun p => (0 <= p <= 100)%Z)
    (map r_progress
       (batch_reports st
          (run_batch_check utf8_decode_ignore b64encode st db chs source
             task_id world utcnow))).
Proof.
  rewrite batch_reports_throttle. apply Forall_forall. intros p Hp.
  apply list_elem_of_fmap in Hp as (r & -> & Hr).
  apply throttle_elem in Hr as (-> & ch & Hin).
  apply enumerate_from_elem in Hin. split; [apply percent_nonneg|].
  apply percent_le_100. lia.
Qed.

(** a call of the batch or of the start is not the "completed" call *)
Lemma completed_not_report (r : report) : call_completed <> call_of_report r.
Proof. intros H. apply (f_equal s_status) in H. discriminate H. Qed.

Lemma completed_not_running (channel_ids : list Z) :
  call_completed <> call_running channel_ids.
Proof. intros H. apply (f_equal s_status) in H. discriminate H. Qed.

Lemma completed_not_failure (e : exn) :
  call_completed <> call_failure timeout_text e.
Proof. intros H. apply (f_equal s_status) in H. discriminate H. Qed.

Lemma completed_not_nothing : call_completed <> call_nothing_to_check.
Proof. intros H. apply (f_equal s_message) in H. discriminate H. Qed.

Lemma completed_not_in_reports (channel_ids : list Z) (rs : list report) :
  call_completed ∉ [call_running channel_ids] ++ map call_of_report rs.
Proof.
  rewrite elem_of_app, list_elem_of_singleton, list_elem_of_fmap.
  intros [H|(r & H & _)].
  - exact (completed_not_running _ H).
  - exact (completed_not_report _ H).
Qed.

Section Run.
Variable st : runner_state.
Variable table : list Channel.
Variable db : gmap Z Channel.
Variable task_id : pystr.
Variable channel_ids : list Z.
Variable source : pystr.
Variable sinks : task_sinks.
Variable world : nat -> task_world.
Variable utcnow : nat -> Z.

Local Notation "'the_task'" :=
  (check_channels_task utf8_decode_ignore b64encode timeout_text max_variables
     too_many_variables st table db task_id channel_ids source sinks world
     utcnow).
Local Notation "'the_block'" :=
  (try_block utf8_decode_ignore b64encode max_variables too_many_variables st
     table db task_id channel_ids source sinks world utcnow).
Local Notation "'the_rows'" :=
  (selected max_variables too_many_variables table channel_ids source sinks).
Local Notation "'batch_of' chs" :=
  (run_batch_check utf8_decode_ignore b64encode st db chs source
     (Some task_id) world utcnow) (at level 10, chs at level 9).

(** the task ends as its [try] block and its handler end *)
Lemma task_of_block :
  end_state the_task = the_block.1.1.2
  /\ end_storage the_task = the_block.1.2
  /\ match the_block.2 with
     | Return _ =>
         calls the_task = the_block.1.1.1 /\ task_returned the_task = Return tt
     | Raise e =>
         if encodable task_id && encodable (str_of_exn timeout_text e)
         then calls the_task = the_block.1.1.1 ++ [call_failure timeout_text e]
              /\ task_returned the_task = on_failure sinks
         else calls the_task = the_block.1.1.1
              /\ task_returned the_task
                 = Raise (UnicodeEncodeError
                            (interrupt_line task_id (str_of_exn timeout_text e)))
     end.
Proof.
  unfold check_channels_task.
  destruct the_block as [[[made st'] db'] [[]|e]]; simpl; [auto|].
  unfold print. rewrite interrupt_line_encodable.
  destruct (encodable task_id && encodable (str_of_exn timeout_text e));
    simpl; auto.
Qed.

(** the four ways through the [try] block *)
Lemma block_cases :
  (exists e, the_rows = Raise e
             /\ the_block = ([call_running channel_ids], st, db, Raise e))
  \/ (the_rows = Return []
      /\ the_block
         = ([call_running channel_ids; call_nothing_to_check], st, db,
            on_success sinks))
  \/ (exists c cs, the_rows = Return (c :: cs)
        /\ ((exists e,
               returned (batch_of (c :: cs)) = Raise e
               /\ the_block
                  = (call_running channel_ids
                     :: map call_of_report
                          (batch_reports st (batch_of (c :: cs))),
                     final_state (batch_of (c :: cs)),
                     storage (batch_of (c :: cs)), Raise e))
            \/ (returned (batch_of (c :: cs)) = Return tt
                /\ the_block
                   = ((call_running channel_ids
                       :: map call_of_report
                            (batch_reports st (batch_of (c :: cs))))
                      ++ [call_completed],
                      final_state (batch_of (c :: cs)),
                      storage (batch_of (c :: cs)), on_success sinks)))).
Proof.
  unfold try_block.
  destruct the_rows as [[|c cs]|e].
  - right. left. split; reflexivity.
  - right. right. exists c, cs. split; [reflexivity|]. cbv zeta.
    destruct (returned _) as [[]|e] eqn:Er.
    + right. split; reflexivity.
    + left. exists e. split; reflexivity.
  - left. exists e. split; reflexivity.
Qed.

(** the calls of the task are those of the block, then the failure report
    when the handler makes it *)
Lemma task_calls :
  calls the_task = the_block.1.1.1
  \/ exists e, the_block.2 = Raise e
               /\ calls the_task = the_block.1.1.1 ++ [call_failure timeout_text e].
Proof.
  destruct task_of_block as (_ & _ & H).
  destruct (the_block.2) as [[]|e]; [left; exact (proj1 H)|].
  destruct (encodable task_id && encodable (str_of_exn timeout_text e)).
  - right. exists e. split; [reflexivity|exact (proj1 H)].
  - left. exact (proj1 H).
Qed.

(** the percentages sent by the block start at 0, never decrease and stay
    between 0 and 100 *)
Lemma block_progress :
  let sent_progress := omap s_progress (the_block.1.1.1) in
  head sent_progress = Some 0%Z
  /\ StronglySorted Z.le sent_progress
  /\ Forall (fun p => (0 <= p <= 100)%Z) sent_progress.
Proof.
  assert (S0 : StronglySorted Z.le [0%Z]) by repeat constructor.
  assert (S1 : StronglySorted Z.le [0%Z; 100%Z])
    by (repeat constructor; lia).
  assert (F0 : Forall (fun p => (0 <= p <= 100)%Z) [0%Z])
    by (repeat constructor; lia).
  assert (F1 : Forall (fun p => (0 <= p <= 100)%Z) [0%Z; 100%Z])
    by (repeat constructor; lia).
  destruct block_cases as [(e & _ & ->)|[[_ ->]|(c & cs & _ & Hb)]];
    [simpl; auto..|].
  set (b := batch_of (c :: cs)) in *.
  pose proof (Hsorted := throttle_sorted (length (c :: cs))
                (StreamChecker.enumerate (c :: cs))
                (StreamChecker.last_of (Some task_id) st)
                (enumerate_from_sorted 0 (c :: cs))).
  pose proof (batch_reports_range st db (c :: cs) source (Some task_id) world
                utcnow) as Hrange.
  pose proof (batch_reports_throttle utf8_decode_ignore b64encode st db
                (c :: cs) source (Some task_id) world utcnow) as Hthr.
  fold b in Hrange, Hthr. rewrite <- Hthr in Hsorted.
  set (ps := map StreamChecker.r_progress (StreamChecker.batch_reports st b))
    in *.
  assert (Hbody : StronglySorted Z.le (0%Z :: ps)).
  { constructor; [exact Hsorted|].
    eapply Forall_impl; [exact Hrange|]. simpl. intros p Hp. lia. }
  assert (Hfull : StronglySorted Z.le (0%Z :: ps ++ [100%Z])).
  { rewrite app_comm_cons. apply sorted_snoc; [exact Hbody|].
    constructor; [lia|].
    eapply Forall_impl; [exact Hrange|]. simpl. intros p Hp. lia. }
  assert (Frange : Forall (fun p => (0 <= p <= 100)%Z) (0%Z :: ps))
    by (constructor; [lia|exact Hrange]).
  assert (Ffull : Forall (fun p => (0 <= p <= 100)%Z) (0%Z :: ps ++ [100%Z])).
  { rewrite app_comm_cons. apply Forall_app. split; [exact Frange|].
    repeat constructor; lia. }
  destruct Hb as [(e & _ & ->)|[_ ->]]; cbn [fst snd];
    rewrite ?omap_app; simpl; rewrite ?omap_app, omap_progress_reports;
    simpl; rewrite ?app_nil_r; fold ps; auto.
Qed.

(** a block that raises has not reported "completed", unless the raise is
    that of the report itself *)
Lemma block_not_completed (e : exn) :
  the_block.2 = Raise e -> call_completed ∈ the_block.1.1.1 ->
  on_success sinks = Raise e.
Proof.
  destruct block_cases as [(e0 & _ & ->)|[[_ ->]|(c & cs & _ & Hb)]];
    cbn [fst snd].
  - intros _ H. apply list_elem_of_singleton in H.
    destruct (completed_not_running _ H).
  - intros He H. exfalso. rewrite !elem_of_cons in H.
    destruct H as [H|[H|H]].
    + exact (completed_not_running _ H).
    + exact (completed_not_nothing H).
    + apply elem_of_nil in H. exact H.
  - destruct Hb as [(e0 & _ & ->)|[_ ->]]; cbn [fst snd].
    + intros _ H. exfalso.
      exact (completed_not_in_reports channel_ids _ H).
    + intros He _. exact He.
Qed.

End Run.

End TaskFacts.

(** X11: how [check_channels_task] ends, by how its [try] block ends.  When
    the block returns, the task has made the calls of the block, the last of
    them reports "success" at 100 percent, and the task returns.  When the
    block raises [e], the handler prints the task's identifier and the text
    of [e]: if both can be encoded, the task makes one more call, which
    reports "failure" with the message "任务执行出错: " followed by the text
    of [e] and passes no progress, and the task ends as that call ends; if
    not, the task makes no further call and leaves with the encoding error
    of the print.  The exception [e] of the block is the one raised by the
    statements before the batch, by the batch, or by the report of
    success. *)
Theorem task_ends_with_a_terminal_report
    (utf8_decode_ignore b64encode : list Byte.byte -> pystr)
    (timeout_text : pystr) (max_variables : nat)
    (too_many_variables : list Z -> exn)
    (st : StreamChecker.runner_state) (table : list Channel)
    (db : gmap Z Channel) (task_id : pystr) (channel_ids : list Z)
    (source : pystr) (sinks : CheckTask.task_sinks)
    (world : nat -> StreamChecker.task_world) (utcnow : nat -> Z) :
  let t := CheckTask.check_channels_task utf8_decode_ignore b64encode
             timeout_text max_variables too_many_variables st table db task_id
             channel_ids source sinks world utcnow in
  let block := CheckTask.try_block utf8_decode_ignore b64encode max_variables
                 too_many_variables st table db task_id channel_ids source
                 sinks world utcnow in
  let rows := CheckTask.selected max_variables too_many_variables table
                channel_ids source sinks in
  let made := block.1.1.1 in
  match block.2 with
  | Return _ =>
      CheckTask.calls t = made /\ CheckTask.task_returned t = Return tt
      /\ exists c, last made = Some c
           /\ CheckTask.s_status c = Some (py "success")
           /\ CheckTask.s_progress c = Some 100%Z
  | Raise e =>
      let text := match e with
                  | TimeoutExpired => timeout_text
                  | OtherException msg => msg
                  end in
      (Stdout.encodable task_id && Stdout.encodable text = true ->
       CheckTask.task_returned t = CheckTask.on_failure sinks
       /\ exists c, CheckTask.calls t = made ++ [c]
            /\ CheckTask.s_status c = Some (py "failure")
            /\ CheckTask.s_progress c = None
            /\ CheckTask.s_message c
               = Some ([20219; 21153; 25191; 34892; 20986; 38169; 58; 32]%N
                       ++ text))
      /\ (Stdout.encodable task_id && Stdout.encodable text = false ->
          CheckTask.calls t = made
          /\ CheckTask.task_returned t
             = Raise (Stdout.UnicodeEncodeError
                        (CheckTask.interrupt_line task_id text)))
      /\ (rows = Raise e
          \/ CheckTask.on_success sinks = Raise e
          \/ exists c cs,
               rows = Return (c :: cs)
               /\ StreamChecker.returned
                    (StreamChecker.run_batch_check utf8_decode_ignore b64encode
                       st db (c :: cs) source (Some task_id) world utcnow)
                  = Raise e)
  end.
Proof.
  intros t block rows made.
  pose proof (task_of_block utf8_decode_ignore b64encode timeout_text
                max_variables too_many_variables st table db task_id
                channel_ids source sinks world utcnow) as (_ & _ & Hend).
  pose proof (block_cases utf8_decode_ignore b64encode max_variables
                too_many_variables st table db task_id channel_ids source
                sinks world utcnow) as Hcases.
  fold t block rows in Hend, Hcases. fold made in Hend.
  destruct (block.2) as [[]|e] eqn:Eb.
  - destruct Hend as [Hcalls Hret]. split; [exact Hcalls|].
    split; [exact Hret|]. unfold made.
    destruct Hcases as [(e & _ & Hb)|[[_ Hb]|(c & cs & _ & [(e & _ & Hb)|[_ Hb]])]];
      rewrite Hb in Eb |- *; cbn [fst snd] in *; try discriminate Eb.
    + exists CheckTask.call_nothing_to_check. auto.
    + exists CheckTask.call_completed. split; [apply last_snoc|]. auto.
  - cbv zeta.
    change (match e with
            | TimeoutExpired => timeout_text
            | OtherException msg => msg
            end) with (CheckTask.str_of_exn timeout_text e).
    split; [|split].
    + intros Henc. rewrite Henc in Hend. destruct Hend as [Hcalls Hret].
      split; [exact Hret|].
      exists (CheckTask.call_failure timeout_text e). auto.
    + intros Henc. rewrite Henc in Hend. exact Hend.
    + destruct Hcases as [(e0 & Hr & Hb)|[[_ Hb]|(c & cs & Hr & [(e0 & Er & Hb)|[_ Hb]])]];
        rewrite Hb in Eb; cbn [fst snd] in Eb.
      * injection Eb as ->. left. exact Hr.
      * right. left. exact Eb.
      * injection Eb as ->. right. right. exists c, cs.
        split; [exact Hr|exact Er].
      * right. left. exact Eb.
Qed.

(** X12: the percentages that one run of the task sends to the progress
    sink, in the order of the calls, start at 0, never decrease and stay
    between 0 and 100, whichever way the task ends. *)
Theorem task_progress_never_decreases
    (utf8_decode_ignore b64encode : list Byte.byte -> pystr)
    (timeout_text : pystr) (max_variables : nat)
    (too_many_variables : list Z -> exn)
    (st : StreamChecker.runner_state) (table : list Channel)
    (db : gmap Z Channel) (task_id : pystr) (channel_ids : list Z)
    (source : pystr) (sinks : CheckTask.task_sinks)
    (world : nat -> StreamChecker.task_world) (utcnow : nat -> Z) :
  let sent_progress :=
    omap CheckTask.s_progress
      (CheckTask.calls
         (CheckTask.check_channels_task utf8_decode_ignore b64encode
            timeout_text max_variables too_many_variables st table db task_id
            channel_ids source sinks world utcnow)) in
  head sent_progress = Some 0%Z
  /\ StronglySorted Z.le sent_progress
  /\ Forall (fun p => (0 <= p <= 100)%Z) sent_progress.
Proof.
  intros sp. unfold sp. clear sp.
  pose proof (block_progress utf8_decode_ignore b64encode max_variables
                too_many_variables st table db task_id channel_ids source
                sinks world utcnow) as Hblock.
  cbv zeta in Hblock.
  destruct (task_calls utf8_decode_ignore b64encode timeout_text
              max_variables too_many_variables st table db task_id
              channel_ids source sinks world utcnow) as [->|(e & _ & ->)].
  - exact Hblock.
  - rewrite omap_app. simpl. rewrite app_nil_r. exact Hblock.
Qed.

(** X13: a run of the task changes a row of the storage only when the row's
    identifier is one of the requested identifiers and is not 0, and only in
    a run that goes on to report "completed"; the changed row keeps its
    name, URL, group, logo and subscription.  Every other row, and every row
    in a run that ends before that report, is as it was. *)
Theorem task_writes_only_requested_rows
    (utf8_decode_ignore b64encode : list Byte.byte -> pystr)
    (timeout_text : pystr) (max_variables : nat)
    (too_many_variables : list Z -> exn)
    (st : StreamChecker.runner_state) (table : list Channel)
    (db : gmap Z Channel) (task_id : pystr) (channel_ids : list Z)
    (source : pystr) (sinks : CheckTask.task_sinks)
    (world : nat -> StreamChecker.task_world) (utcnow : nat -> Z) (i : Z) :
  let t := CheckTask.check_channels_task utf8_decode_ignore b64encode
             timeout_text max_variables too_many_variables st table db task_id
             channel_ids source sinks world utcnow in
  CheckTask.end_storage t !! i = db !! i
  \/ (i ∈ channel_ids /\ i <> 0%Z
      /\ CheckTask.call_completed ∈ CheckTask.calls t
      /\ exists row row',
           db !! i = Some row /\ CheckTask.end_storage t !! i = Some row'
           /\ StreamChecker.same_row row row').
Proof.
  intros t.
  pose proof (task_of_block utf8_decode_ignore b64encode timeout_text
                max_variables too_many_variables st table db task_id
                channel_ids source sinks world utcnow) as (_ & Hdb & _).
  pose proof (task_calls utf8_decode_ignore b64encode timeout_text
                max_variables too_many_variables st table db task_id
                channel_ids source sinks world utcnow) as Hcalls.
  fold t in Hdb, Hcalls. rewrite Hdb.
  destruct (block_cases utf8_decode_ignore b64encode max_variables
              too_many_variables st table db task_id channel_ids source
              sinks world utcnow)
    as [(e & _ & Hb)|[[_ Hb]|(c & cs & Hr & Hbatch)]];
    [rewrite Hb; left; reflexivity..|].
  apply selected_return in Hr as (_ & _ & _ & _ & Hrows).
  pose proof (batch_raised utf8_decode_ignore b64encode st db (c :: cs) source
                (Some task_id) world utcnow) as Hraised.
  pose proof (batch_returned utf8_decode_ignore b64encode st db (c :: cs)
                source (Some task_id) world utcnow) as Hreturned.
  pose proof (batch_zero utf8_decode_ignore b64encode st db (c :: cs) source
                (Some task_id) world utcnow) as Hzero.
  assert (Hne : c :: cs <> []) by discriminate.
  set (b := StreamChecker.run_batch_check _ _ _ _ _ _ _ _ _) in *.
  destruct Hbatch as [(e & Er & Hb)|[Er Hb]]; rewrite Hb in Hcalls |- *;
    cbn [fst snd] in *.
  { left. destruct (Hraised e Er) as [-> _]. reflexivity. }
  destruct (Hreturned Hne Er) as (results & HF & Hst & _).
  destruct (Z.eq_dec i 0%Z) as [->|Hi]; [left; exact Hzero|].
  destruct (decide (Some i ∈ map id (c :: cs))) as [Hin|Hnotin].
  - apply list_elem_of_fmap in Hin as (ch & Hid & Hin).
    rewrite Hrows in Hin.
    apply matching_elem in Hin as [_ (j & Hj & Hjin)].
    assert (j = i) by congruence. subst j.
    pose proof (writeback_from_row source utcnow 0 db results i) as Hrow.
    destruct (db !! i) as [row|] eqn:Edb.
    + right. split; [exact Hjin|]. split; [exact Hi|]. split.
      * assert (Hdone : forall tail,
                  CheckTask.call_completed
                  ∈ ((CheckTask.call_running channel_ids
                      :: map CheckTask.call_of_report
                           (StreamChecker.batch_reports st b))
                     ++ [CheckTask.call_completed]) ++ tail).
        { intros tail. apply elem_of_app. left. apply elem_of_app. right.
          apply list_elem_of_singleton. reflexivity. }
        destruct Hcalls as [->|(e & _ & ->)]; [|apply Hdone].
        specialize (Hdone []). rewrite app_nil_r in Hdone. exact Hdone.
      * destruct Hrow as (row' & Hrow' & Hsame).
        exists row, row'. rewrite Hst. auto.
    + left. rewrite Hst. exact Hrow.
  - left. rewrite Hst. apply writeback_from_other.
    intros r Hr Hid. apply Hnotin.
    rewrite <- (results_ids _ _ _ _ _ _ HF), <- Hid.
    apply list_elem_of_fmap. eauto.
Qed.

(** X14: when no row of the table carries a requested identifier (in
    particular when no identifier is requested), the task probes nothing:
    the storage and the class attributes are as before and "completed" is
    never reported.  When moreover the first call of the progress sink
    returns and the source can be printed, the task goes on to the query,
    and:
    - if the identifiers are within the limit of bound parameters and each
      is a signed 64-bit number, the task makes its second and last call,
      "success" at 100 percent with the message that there is no channel to
      check, and ends as that call ends when it returns;
    - if they are within the limit and one of them is not a signed 64-bit
      number, the query raises [OverflowError], and, the task's identifier
      being printable, the second and last call reports "failure" with that
      error's text; the task ends as that call ends. *)
Theorem task_without_matching_channel_checks_nothing
    (utf8_decode_ignore b64encode : list Byte.byte -> pystr)
    (timeout_text : pystr) (max_variables : nat)
    (too_many_variables : list Z -> exn)
    (st : StreamChecker.runner_state) (table : list Channel)
    (db : gmap Z Channel) (task_id : pystr) (channel_ids : list Z)
    (source : pystr) (sinks : CheckTask.task_sinks)
    (world : nat -> StreamChecker.task_world) (utcnow : nat -> Z) :
  (forall c i, c ∈ table -> id c = Some i -> i ∉ channel_ids) ->
  let t := CheckTask.check_channels_task utf8_decode_ignore b64encode
             timeout_text max_variables too_many_variables st table db task_id
             channel_ids source sinks world utcnow in
  CheckTask.end_storage t = db
  /\ CheckTask.end_state t = st
  /\ (CheckTask.call_completed ∉ CheckTask.calls t)
  /\ (CheckTask.on_running sinks = Return tt ->
      Stdout.encodable source = true ->
      length channel_ids <= max_variables ->
      (forallb Sqlite.integer channel_ids = true ->
       CheckTask.on_success sinks = Return tt ->
       CheckTask.calls t
       = [CheckTask.call_running channel_ids; CheckTask.call_nothing_to_check]
       /\ CheckTask.task_returned t = Return tt)
      /\ (forallb Sqlite.integer channel_ids = false ->
          Stdout.encodable task_id = true ->
          CheckTask.calls t
          = [CheckTask.call_running channel_ids;
             {| CheckTask.s_status := Some (py "failure");
                CheckTask.s_progress := None;
                CheckTask.s_message :=
                  Some ([20219; 21153; 25191; 34892; 20986; 38169; 58; 32]%N
                        ++ py "Python int too large to convert to SQLite INTEGER")
             |}]
          /\ CheckTask.task_returned t = CheckTask.on_failure sinks)).
Proof.
  intros Hnone t.
  pose proof (task_of_block utf8_decode_ignore b64encode timeout_text
                max_variables too_many_variables st table db task_id
                channel_ids source sinks world utcnow) as (Hst & Hdb & Hend).
  pose proof (task_calls utf8_decode_ignore b64encode timeout_text
                max_variables too_many_variables st table db task_id
                channel_ids source sinks world utcnow) as Hcalls.
  fold t in Hst, Hdb, Hend, Hcalls.
  assert (Hempty : CheckTask.matching channel_ids table = []).
  { destruct (CheckTask.matching channel_ids table) as [|c cs] eqn:E;
      [reflexivity|].
    assert (Hc : c ∈ CheckTask.matching channel_ids table)
      by (rewrite E; left).
    apply matching_elem in Hc as [Hin (i & Hid & Hi)].
    exfalso. exact (Hnone c i Hin Hid Hi). }
  assert (Hfail : forall e l,
            CheckTask.call_completed ∈ l ++ [CheckTask.call_failure timeout_text e]
            -> CheckTask.call_completed ∈ l).
  { intros e l H. apply elem_of_app in H as [H|H]; [exact H|].
    apply list_elem_of_singleton in H.
    destruct (completed_not_failure timeout_text e H). }
  destruct (block_cases utf8_decode_ignore b64encode max_variables
              too_many_variables st table db task_id channel_ids source
              sinks world utcnow)
    as [(e & Hr & Hb)|[[Hr Hb]|(c & cs & Hr & _)]].
  - rewrite Hb in Hst, Hdb, Hend, Hcalls. cbn [fst snd] in *.
    split; [exact Hdb|]. split; [exact Hst|]. split.
    + intros H.
      assert (H' : CheckTask.call_completed ∈ [CheckTask.call_running channel_ids]).
      { destruct Hcalls as [E|(e' & _ & E)]; rewrite E in H;
          [exact H|exact (Hfail _ _ H)]. }
      apply list_elem_of_singleton in H'.
      exact (completed_not_running _ H').
    + intros Hrun Hsrc Hlen. split.
      * intros Hint _. exfalso.
        assert (Hsel : CheckTask.selected max_variables too_many_variables
                         table channel_ids source sinks
                       = Return (CheckTask.matching channel_ids table))
          by (apply selected_return; auto).
        rewrite Hsel in Hr. discriminate Hr.
      * intros Hint Htid.
        assert (He : e = Sqlite.OverflowError).
        { unfold CheckTask.selected, CheckTask.select_in, Stdout.print in Hr.
          rewrite Hrun, request_line_encodable, Hsrc, Hint in Hr.
          simpl in Hr.
          destruct (Nat.ltb_spec max_variables (length channel_ids)); [lia|].
          injection Hr as <-. reflexivity. }
        subst e. rewrite Htid in Hend. simpl in Hend. exact Hend.
  - rewrite Hb in Hst, Hdb, Hend, Hcalls. cbn [fst snd] in *.
    split; [exact Hdb|]. split; [exact Hst|]. split.
    + intros H.
      assert (H' : CheckTask.call_completed
                   ∈ [CheckTask.call_running channel_ids;
                      CheckTask.call_nothing_to_check]).
      { destruct Hcalls as [E|(e' & _ & E)]; rewrite E in H;
          [exact H|exact (Hfail _ _ H)]. }
      rewrite !elem_of_cons in H'. destruct H' as [H'|[H'|H']].
      * exact (completed_not_running _ H').
      * exact (completed_not_nothing H').
      * apply elem_of_nil in H'. exact H'.
    + intros Hrun Hsrc Hlen. split.
      * intros _ Hsucc. rewrite Hsucc in Hend. exact Hend.
      * intros Hint _. exfalso.
        apply selected_return in Hr as (_ & _ & _ & H & _).
        rewrite H in Hint. discriminate Hint.
  - exfalso. apply selected_return in Hr as (_ & _ & _ & _ & H).
    rewrite Hempty in H. discriminate H.
Qed.

(** X14, run on a table whose only row has identifier 1 while identifiers 7
    and 2^63 are requested: the query raises and the task reports the
    failure. *)
Lemma task_without_matching_channel_at_unknown_id :
  let t := CheckTask.check_channels_task Samples.latin1 Samples.latin1
             (py "timed out") 999 (fun _ => OtherException (py "too many"))
             Samples.fresh [Samples.channel 1 "a"]
             (<[1%Z := Samples.channel 1 "a"]> ∅) (py "t1")
             [7%Z; (2 ^ 63)%Z] (py "manual")
             {| CheckTask.on_running := Return tt;
                CheckTask.on_success := Return tt;
                CheckTask.on_failure := Return tt |}
             (fun _ => Samples.quiet Samples.frame_ok) Samples.clock in
  CheckTask.end_storage t = <[1%Z := Samples.channel 1 "a"]> ∅
  /\ omap CheckTask.s_status (CheckTask.calls t)
     = [py "running"; py "failure"]
  /\ CheckTask.task_returned t = Return tt.
Proof.
  cbv zeta.
  destruct (task_without_matching_channel_checks_nothing
              Samples.latin1 Samples.latin1 (py "timed out") 999
              (fun _ => OtherException (py "too many")) Samples.fresh
              [Samples.channel 1 "a"] (<[1%Z := Samples.channel 1 "a"]> ∅)
              (py "t1") [7%Z; (2 ^ 63)%Z] (py "manual")
              {| CheckTask.on_running := Return tt;
                 CheckTask.on_success := Return tt;
                 CheckTask.on_failure := Return tt |}
              (fun _ => Samples.quiet Samples.frame_ok) Samples.clock)
    as (Hdb & _ & _ & Hcalls).
  - intros c i Hc Hid Hi.
    apply list_elem_of_singleton in Hc. subst c.
    injection Hid as <-.
    rewrite !elem_of_cons in Hi. destruct Hi as [Hi|[Hi|Hi]];
      [discriminate Hi|discriminate Hi|].
    apply elem_of_nil in Hi. exact Hi.
  - split; [exact Hdb|].
    destruct (Hcalls eq_refl eq_refl) as [_ Hfail]; [simpl; lia|].
    destruct (Hfail eq_refl eq_refl) as [-> ->]. split; reflexivity.
Defined.

(** X15: when the statements before the batch pass (the first call of the
    sink returns, the source can be printed, the identifiers are within the
    limit of bound parameters and are signed 64-bit numbers), a requested
    channel exists, and the progress sink raises on the report of the first
    channel (a report that is always made), the task writes nothing to the
    storage and never reports "completed".  The batch raises an exception
    [e'] which is the end of one of its tasks, the one that ends first among
    those that raise; the handler prints it, and when it can be printed the
    calls of the task are "running", the reports of the batch, then the
    "failure" report carrying the text of [e'], and the task ends as that
    last call ends.  When the first task ends before every other task, [e']
    is the exception that the sink raised on the first report. *)
Theorem task_reports_failure_when_the_sink_raises
    (utf8_decode_ignore b64encode : list Byte.byte -> pystr)
    (timeout_text : pystr) (max_variables : nat)
    (too_many_variables : list Z -> exn)
    (st : StreamChecker.runner_state) (table : list Channel)
    (db : gmap Z Channel) (task_id : pystr) (channel_ids : list Z)
    (source : pystr) (sinks : CheckTask.task_sinks)
    (world : nat -> StreamChecker.task_world) (utcnow : nat -> Z)
    (c : Channel) (i : Z) (e : exn) :
  CheckTask.on_running sinks = Return tt ->
  Stdout.encodable source = true ->
  length channel_ids <= max_variables ->
  forallb Sqlite.integer channel_ids = true ->
  c ∈ table -> id c = Some i -> i ∈ channel_ids ->
  StreamChecker.sink (world 0) = Raise e ->
  let t := CheckTask.check_channels_task utf8_decode_ignore b64encode
             timeout_text max_variables too_many_variables st table db task_id
             channel_ids source sinks world utcnow in
  let rows := CheckTask.matching channel_ids table in
  let b := StreamChecker.run_batch_check utf8_decode_ignore b64encode st db
             rows source (Some task_id) world utcnow in
  let ends := StreamChecker.task_end utf8_decode_ignore b64encode
                (length rows) world (StreamChecker.batch_reports st b) in
  CheckTask.end_storage t = db
  /\ (CheckTask.call_completed ∉ CheckTask.calls t)
  /\ exists e' k ch,
       StreamChecker.returned b = Raise e'
       /\ rows !! k = Some ch /\ ends k ch = Raise e'
       /\ (forall j c' e'', rows !! j = Some c' -> ends j c' = Raise e'' ->
             StreamChecker.ended_at (world k) <= StreamChecker.ended_at (world j))
       /\ ((forall j, j <> 0 ->
              StreamChecker.ended_at (world 0) < StreamChecker.ended_at (world j))
           -> e' = e)
       /\ (Stdout.encodable task_id
           && Stdout.encodable (CheckTask.str_of_exn timeout_text e') = true ->
           CheckTask.calls t
           = CheckTask.call_running channel_ids
             :: map CheckTask.call_of_report (StreamChecker.batch_reports st b)
             ++ [{| CheckTask.s_status := Some (py "failure");
                    CheckTask.s_progress := None;
                    CheckTask.s_message :=
                      Some ([20219; 21153; 25191; 34892; 20986; 38169; 58;
                             32]%N
                            ++ CheckTask.str_of_exn timeout_text e') |}]
           /\ CheckTask.task_returned t = CheckTask.on_failure sinks).
Proof.
  intros Hrun Hsrc Hlen Hint Hc Hid Hi Hsink. cbv zeta.
  pose proof (task_of_block utf8_decode_ignore b64encode timeout_text
                max_variables too_many_variables st table db task_id
                channel_ids source sinks world utcnow) as (_ & Hdb & Hend).
  pose proof (task_calls utf8_decode_ignore b64encode timeout_text
                max_variables too_many_variables st table db task_id
                channel_ids source sinks world utcnow) as Hcalls.
  set (t := CheckTask.check_channels_task _ _ _ _ _ _ _ _ _ _ _ _ _ _) in *.
  assert (Hsel : CheckTask.selected max_variables too_many_variables table
                   channel_ids source sinks
                 = Return (CheckTask.matching channel_ids table))
    by (apply selected_return; auto).
  assert (Hin : c ∈ CheckTask.matching channel_ids table)
    by (apply matching_elem; eauto).
  remember (CheckTask.matching channel_ids table) as rows eqn:Erows.
  destruct rows as [|c0 cs].
  { apply elem_of_nil in Hin. contradiction. }
  set (b := StreamChecker.run_batch_check utf8_decode_ignore b64encode st db
              (c0 :: cs) source (Some task_id) world utcnow).
  set (ends := StreamChecker.task_end utf8_decode_ignore b64encode
                 (length (c0 :: cs)) world (StreamChecker.batch_reports st b)).
  pose proof (batch_raised utf8_decode_ignore b64encode st db (c0 :: cs) source
                (Some task_id) world utcnow) as Hraised.
  pose proof (batch_raises utf8_decode_ignore b64encode st db (c0 :: cs) source
                (Some task_id) world utcnow 0 c0 e eq_refl) as Hraises.
  pose proof (batch_reports_throttle utf8_decode_ignore b64encode st db
                (c0 :: cs) source (Some task_id) world utcnow) as Hthr.
  unfold StreamChecker.enumerate in Hthr. rewrite throttle_first in Hthr.
  fold b in Hraised, Hraises, Hthr. fold ends in Hraised, Hraises.
  assert (Hfirst : ends 0 c0 = Raise e).
  { unfold ends, StreamChecker.task_end, StreamChecker.reported.
    rewrite Hthr. simpl. rewrite Hsink. reflexivity. }
  destruct (Hraises Hfirst) as (e' & Er & Hstore).
  destruct (Hraised e' Er) as (_ & k & ch & Hk & Hke & Hmin).
  destruct (block_cases utf8_decode_ignore b64encode max_variables
              too_many_variables st table db task_id channel_ids source
              sinks world utcnow)
    as [(e0 & Hr & _)|[[Hr _]|(c1 & cs1 & Hr & Hb)]];
    [rewrite Hsel in Hr; discriminate Hr..|].
  rewrite Hsel in Hr. injection Hr as <- <-. fold b in Hb.
  destruct Hb as [(e1 & Er1 & Hb)|[Er1 _]];
    [|rewrite Er in Er1; discriminate Er1].
  rewrite Er in Er1. injection Er1 as <-.
  rewrite Hb in Hdb, Hend, Hcalls. cbn [fst snd] in *.
  split; [rewrite Hdb; exact Hstore|]. split.
  - intros H.
    assert (H' : CheckTask.call_completed
                 ∈ [CheckTask.call_running channel_ids]
                   ++ map CheckTask.call_of_report
                        (StreamChecker.batch_reports st b)).
    { destruct Hcalls as [E|(e2 & _ & E)]; rewrite E in H; [exact H|].
      apply elem_of_app in H as [H|H]; [exact H|].
      apply list_elem_of_singleton in H.
      destruct (completed_not_failure timeout_text e2 H). }
    exact (completed_not_in_reports channel_ids _ H').
  - exists e', k, ch. split; [exact Er|]. split; [exact Hk|].
    split; [exact Hke|]. split; [exact Hmin|]. split.
    + intros Hearly.
      destruct (Nat.eq_dec k 0) as [->|Hk0].
      * injection Hk as <-. rewrite Hfirst in Hke. injection Hke as ->.
        reflexivity.
      * specialize (Hmin 0 c0 e eq_refl Hfirst). specialize (Hearly k Hk0).
        lia.
    + intros Henc. rewrite Henc in Hend. exact Hend.
Qed.

(** X15, run on two channels with a sink that is down; the first task ends
    first. *)
Lemma task_reports_failure_with_sink_down :
  let t := CheckTask.check_channels_task Samples.latin1 Samples.latin1
             (py "timed out") 999 (fun _ => OtherException (py "too many"))
             Samples.fresh [Samples.channel 1 "a"; Samples.channel 2 "b"]
             (<[1%Z := Samples.channel 1 "a"]> ∅) (py "t1") [1%Z; 2%Z]
             (py "manual")
             {| CheckTask.on_running := Return tt;
                CheckTask.on_success := Return tt;
                CheckTask.on_failure := Return tt |}
             (fun k => {| StreamChecker.sink :=
                            Raise (OtherException (py "database is locked"));
                          StreamChecker.tool := Samples.frame_ok;
                          StreamChecker.ended_at := k |})
             Samples.clock in
  CheckTask.end_storage t = <[1%Z := Samples.channel 1 "a"]> ∅
  /\ omap CheckTask.s_status (CheckTask.calls t)
     = [py "running"; py "failure"]
  /\ omap CheckTask.s_message (drop 3 (CheckTask.calls t))
     = [[20219; 21153; 25191; 34892; 20986; 38169; 58; 32]%N
        ++ py "database is locked"].
Proof.
  cbv zeta.
  destruct (task_reports_failure_when_the_sink_raises
              Samples.latin1 Samples.latin1 (py "timed out") 999
              (fun _ => OtherException (py "too many")) Samples.fresh
              [Samples.channel 1 "a"; Samples.channel 2 "b"]
              (<[1%Z := Samples.channel 1 "a"]> ∅)
              (py "t1") [1%Z; 2%Z] (py "manual")
              {| CheckTask.on_running := Return tt;
                 CheckTask.on_success := Return tt;
                 CheckTask.on_failure := Return tt |}
              (fun k => {| StreamChecker.sink :=
                             Raise (OtherException (py "database is locked"));
                           StreamChecker.tool := Samples.frame_ok;
                           StreamChecker.ended_at := k |})
              Samples.clock
              (Samples.channel 1 "a") 1%Z
              (OtherException (py "database is locked")))
    as (Hdb & _ & e' & k & ch & _ & _ & _ & _ & He & Hcalls).
  - reflexivity.
  - reflexivity.
  - simpl. lia.
  - reflexivity.
  - left.
  - reflexivity.
  - left.
  - reflexivity.
  - split; [exact Hdb|].
    assert (E : e' = OtherException (py "database is locked")).
    { apply He. intros j Hj. simpl. lia. }
    subst e'. destruct (Hcalls eq_refl) as [-> _].
    split; vm_compute; reflexivity.
Defined.

(** X16: from the request to the rows.  When [POST /check-stream-visual]
    starts a task for a request, and
    - the progress sink works,
    - the identifiers of the request are within the limit of bound
      parameters and are signed 64-bit numbers,
    - the rows of the table have pairwise different identifiers,
    - the first 20 characters of the name of every selected row can be
      printed, and the probe of every selected row returns,
    then the task returns after reporting "completed", and every row whose
    identifier is carried by an item of the request, is not 0 and is still
    in the storage is written with the outcome of a probe of that row's URL:
    success flag and enabled flag are the probe's status, the image and the
    error are the probe's, the source tag is "manual", and the row's name,
    URL, group, logo and subscription are as before. *)
Theorem requested_channel_is_probed_and_written
    (utf8_decode_ignore b64encode : list Byte.byte -> pystr)
    (timeout_text : pystr) (max_variables : nat)
    (too_many_variables : list Z -> exn)
    (req : Tools.CheckRequest) (new_id : pystr)
    (records records' : gmap pystr Tools.TaskRecord)
    (answer : Tools.response) (d : Tools.dispatch)
    (st : StreamChecker.runner_state) (table : list Channel)
    (db : gmap Z Channel) (sinks : CheckTask.task_sinks)
    (world : nat -> StreamChecker.task_world) (utcnow : nat -> Z)
    (it : Tools.item) (c : Channel) (i : Z) (row : Channel) :
  Tools.check_stream_visual req new_id records = (answer, records', Some d) ->
  it ∈ Tools.items req -> Tools.item_id it = Some i -> i <> 0%Z ->
  NoDup (map id table) -> c ∈ table -> id c = Some i -> db !! i = Some row ->
  CheckTask.on_running sinks = Return tt ->
  CheckTask.on_success sinks = Return tt ->
  (forall n, StreamChecker.sink (world n) = Return tt) ->
  length (Tools.channel_ids req) <= max_variables ->
  forallb Sqlite.integer (Tools.channel_ids req) = true ->
  (forall k c',
     CheckTask.matching (Tools.channel_ids req) table !! k = Some c' ->
     Stdout.encodable (take 20 (name c')) = true
     /\ exists r, StreamChecker.check_stream_visual utf8_decode_ignore
                    b64encode (url c') (StreamChecker.tool (world k))
                  = Return r) ->
  let t := CheckTask.check_channels_task utf8_decode_ignore b64encode
             timeout_text max_variables too_many_variables st table db
             (Tools.d_task_id d) (Tools.d_channel_ids d) (Tools.d_source d)
             sinks world utcnow in
  CheckTask.task_returned t = Return tt
  /\ last (CheckTask.calls t) = Some CheckTask.call_completed
  /\ exists k r row',
       CheckTask.matching (Tools.channel_ids req) table !! k = Some c
       /\ StreamChecker.check_stream_visual utf8_decode_ignore b64encode (url c)
            (StreamChecker.tool (world k)) = Return r
       /\ CheckTask.end_storage t !! i = Some row'
       /\ check_status row' = Some (StreamChecker.p_status r)
       /\ is_enabled row' = StreamChecker.p_status r
       /\ check_date row' = Some (utcnow k)
       /\ check_source row' = Some (py "manual")
       /\ check_image row' = StreamChecker.p_image r
       /\ check_error row'
          = (if StreamChecker.p_status r then None else StreamChecker.p_error r)
       /\ StreamChecker.same_row row row'.
Proof.
  intros Hreq Hit Hitid Hi Hnd Hc Hid Hdb Hrun Hsucc Hsink Hlen Hint Hprobes t.
  assert (Hids : Tools.d_channel_ids d = Tools.channel_ids req
                 /\ Tools.d_source d = py "manual").
  { unfold Tools.check_stream_visual in Hreq.
    destruct (Tools.channel_ids req) as [|j ids]; [discriminate|].
    injection Hreq as _ _ <-. split; reflexivity. }
  destruct Hids as [Eids Esrc].
  assert (Hreqd : i ∈ Tools.channel_ids req).
  { apply channel_ids_elem. split; [exact Hi|]. eauto. }
  assert (Hsel : c ∈ CheckTask.matching (Tools.channel_ids req) table)
    by (apply matching_elem; eauto).
  pose proof (matching_nodup (Tools.channel_ids req) table Hnd) as Hnd'.
  pose proof (task_of_block utf8_decode_ignore b64encode timeout_text
                max_variables too_many_variables st table db
                (Tools.d_task_id d) (Tools.d_channel_ids d) (Tools.d_source d)
                sinks world utcnow) as (_ & Hst' & Hend).
  fold t in Hst', Hend.
  pose proof (block_cases utf8_decode_ignore b64encode max_variables
                too_many_variables st table db
                (Tools.d_task_id d) (Tools.d_channel_ids d) (Tools.d_source d)
                sinks world utcnow) as Hcases.
  rewrite Eids, Esrc in Hst', Hend, Hcases.
  assert (Hrows : CheckTask.selected max_variables too_many_variables table
                    (Tools.channel_ids req) (py "manual") sinks
                  = Return (CheckTask.matching (Tools.channel_ids req) table)).
  { apply selected_return.
    split; [exact Hrun|]. split; [apply encodable_py|]. auto. }
  apply list_elem_of_lookup in Hsel as [k Hk].
  set (chs := CheckTask.matching (Tools.channel_ids req) table) in *.
  pose proof (batch_completed utf8_decode_ignore b64encode st db chs
                (py "manual") (Some (Tools.d_task_id d)) world utcnow)
    as Hcompleted.
  destruct Hcompleted as [Hret (results & HF & Hst)].
  { intros j c' Hj. destruct (Hprobes j c' Hj) as [Hname [r Hr]].
    exists {| StreamChecker.probe := r; StreamChecker.ch_id := id c' |}.
    apply probe_and_return_return.
    split; [|split; [exact Hname|split; [exact Hr|reflexivity]]].
    unfold StreamChecker.reported.
    destruct (existsb _ _); [apply Hsink|reflexivity]. }
  destruct Hcases as [(e0 & Hr & _)|[[Hr _]|(c1 & cs1 & Hr & Hb)]].
  { rewrite Hrows in Hr. discriminate Hr. }
  { rewrite Hrows in Hr. injection Hr as Hr. rewrite Hr in Hk.
    discriminate Hk. }
  rewrite Hrows in Hr. injection Hr as Hr. rewrite <- Hr in Hb.
  destruct Hb as [(e1 & Er1 & _)|[_ Hb]];
    [rewrite Hret in Er1; discriminate Er1|].
  rewrite Hb in Hst', Hend. cbn [fst snd] in *.
  rewrite Hsucc in Hend. destruct Hend as [Hcalls Hreturned].
  split; [exact Hreturned|]. split; [rewrite Hcalls; apply last_snoc|].
  destruct (writeback_own_result utf8_decode_ignore b64encode (py "manual")
              world utcnow db chs results k c i row HF Hnd' Hk Hid Hi Hdb)
    as (res & before & Hprobe & Hsame & Hw).
  exists k, (StreamChecker.probe res),
    (StreamChecker.record_check (py "manual") (utcnow k) before res).
  split; [exact Hk|]. split; [exact Hprobe|].
  rewrite Hst', Hst. split; [exact Hw|].
  cbn [StreamChecker.record_check check_status is_enabled check_date
       check_source check_image check_error].
  repeat (split; [reflexivity|]).
  split; [destruct (StreamChecker.p_status _); reflexivity|].
  eapply same_row_trans; [exact Hsame|apply record_check_same_row].
Qed.

(** X16, run on a request for the channels of identifiers 1 and 2, whose
    probes get a frame; the row of identifier 2 is written from its own
    probe. *)
Lemma requested_channel_is_probed_and_written_at_two :
  let req := {| Tools.urls := [];
                Tools.items := [{| Tools.item_id := Some 1%Z;
                                   Tools.item_url := None |};
                                {| Tools.item_id := Some 2%Z;
                                   Tools.item_url := None |}];
                Tools.auto_disable := false |} in
  let t := CheckTask.check_channels_task Samples.latin1 Samples.latin1
             (py "timed out") 999 (fun _ => OtherException (py "too many"))
             Samples.fresh [Samples.channel 1 "a"; Samples.channel 2 "b"]
             (<[2%Z := Samples.channel 2 "b"]>
                (<[1%Z := Samples.channel 1 "a"]> ∅)) (py "t1")
             (Tools.channel_ids req) (py "manual")
             {| CheckTask.on_running := Return tt;
                CheckTask.on_success := Return tt;
                CheckTask.on_failure := Return tt |}
             (fun _ => Samples.quiet Samples.frame_ok) Samples.clock in
  CheckTask.task_returned t = Return tt
  /\ last (CheckTask.calls t) = Some CheckTask.call_completed
  /\ exists row', CheckTask.end_storage t !! 2%Z = Some row'
       /\ check_status row' = Some true
       /\ check_source row' = Some (py "manual").
Proof.
  cbv zeta.
  pose proof (requested_channel_is_probed_and_written
                Samples.latin1 Samples.latin1 (py "timed out") 999
                (fun _ => OtherException (py "too many"))
                {| Tools.urls := [];
                   Tools.items := [{| Tools.item_id := Some 1%Z;
                                      Tools.item_url := None |};
                                   {| Tools.item_id := Some 2%Z;
                                      Tools.item_url := None |}];
                   Tools.auto_disable := false |}
                (py "t1") ∅ _ _
                {| Tools.d_task_id := py "t1";
                   Tools.d_channel_ids := [1%Z; 2%Z];
                   Tools.d_source := py "manual" |}
                Samples.fresh [Samples.channel 1 "a"; Samples.channel 2 "b"]
                (<[2%Z := Samples.channel 2 "b"]>
                   (<[1%Z := Samples.channel 1 "a"]> ∅))
                {| CheckTask.on_running := Return tt;
                   CheckTask.on_success := Return tt;
                   CheckTask.on_failure := Return tt |}
                (fun _ => Samples.quiet Samples.frame_ok) Samples.clock
                {| Tools.item_id := Some 2%Z; Tools.item_url := None |}
                (Samples.channel 2 "b") 2%Z (Samples.channel 2 "b")
                eq_refl) as H.
  destruct H as (Hret & Hlast & k & r & row' & Hk & Hr & Hrow & Hst & _ & _
                 & Hsrc & _).
  - right. left.
  - reflexivity.
  - discriminate.
  - repeat constructor.
    + intros H. apply list_elem_of_singleton in H. discriminate H.
    + intros H. apply elem_of_nil in H. exact H.
  - right. left.
  - reflexivity.
  - apply lookup_insert_eq.
  - reflexivity.
  - reflexivity.
  - intros n. reflexivity.
  - simpl. lia.
  - reflexivity.
  - intros k c' Hk.
    destruct k as [|[|k]]; [| |discriminate Hk]; injection Hk as <-;
      (split; [reflexivity|]); eexists; vm_compute; reflexivity.
  - split; [exact Hret|]. split; [exact Hlast|].
    exists row'. split; [exact Hrow|]. split; [|exact Hsrc].
    rewrite Hst. f_equal.
    destruct k as [|[|k]]; [discriminate Hk| |discriminate Hk].
    vm_compute in Hr. injection Hr as <-. reflexivity.
Defined.

(** ** The permits: progress *)
Section PoolProgress.
Import Pool.

(** with no permit to start from, no schedule ever takes one *)
Lemma run_without_permits (evs : list event) (p q : pool) :
  permits p = 0 ->
  Forall (fun t => t = Created \/ t = Raised \/ t = Waiting) (tasks p) ->
  run evs p = Some q ->
  permits q = 0
  /\ Forall (fun t => t = Created \/ t = Raised \/ t = Waiting) (tasks q).
Proof.
  revert p. induction evs as [|ev evs IH]; intros p Hp Hall; simpl.
  - intros [= <-]. auto.
  - destruct (fire ev p) as [p1|] eqn:E; [|discriminate].
    apply IH; destruct ev as [i raises|i|i success]; simpl in E.
    + destruct (tasks p !! i) as [[| | | |]|]; try discriminate.
      injection E as <-. exact Hp.
    + destruct (tasks p !! i) as [[| | | |]|]; try discriminate.
      rewrite Hp in E. discriminate.
    + destruct (tasks p !! i) as [[| | | |]|] eqn:Ei; try discriminate.
      apply (proj1 (Forall_lookup _ _) Hall) in Ei.
      destruct Ei as [H|[H|H]]; discriminate.
    + destruct (tasks p !! i) as [[| | | |]|]; try discriminate.
      injection E as <-. simpl. apply Forall_insert; [exact Hall|].
      destruct raises; auto.
    + destruct (tasks p !! i) as [[| | | |]|]; try discriminate.
      rewrite Hp in E. discriminate.
    + destruct (tasks p !! i) as [[| | | |]|] eqn:Ei; try discriminate.
      apply (proj1 (Forall_lookup _ _) Hall) in Ei.
      destruct Ei as [H|[H|H]]; discriminate.
Qed.

Lemma init_not_started (concurrency n : nat) :
  Forall (fun t => t = Created \/ t = Raised \/ t = Waiting)
         (tasks (init concurrency n)).
Proof.
  simpl. apply Forall_forall. intros t Ht.
  apply elem_of_replicate in Ht as [-> _]. auto.
Qed.

End PoolProgress.

(** X17: the semaphore never blocks a batch that has a permit to give.  With
    [concurrency] at least 1, after any schedule either every task has ended
    (by an exception of the sink, or with the result of its probe) or some
    task can take its next step.  With [concurrency] 0 no task ever enters
    the [with] block: no probe starts and no task ends with a result. *)
Theorem permits_never_deadlock_unless_zero
    (concurrency n : nat) (evs : list Pool.event) (now : Pool.pool) :
  Pool.run evs (Pool.init concurrency n) = Some now ->
  (1 <= concurrency ->
   (forall i t, Pool.tasks now !! i = Some t ->
                t = Pool.Raised \/ exists success, t = Pool.Done success)
   \/ exists ev next, Pool.fire ev now = Some next)
  /\ (concurrency = 0 ->
      forall i t, Pool.tasks now !! i = Some t ->
                  t = Pool.Created \/ t = Pool.Raised \/ t = Pool.Waiting).
Proof.
  intros Hrun. split.
  - intros Hc.
    pose proof (run_balance _ _ _ Hrun) as Hbal.
    rewrite in_flight_init in Hbal. simpl in Hbal.
    destruct (decide (Pool.Created ∈ Pool.tasks now)) as [Hin|Hcreated].
    { right. apply list_elem_of_lookup in Hin as [i Hi].
      exists (Pool.Start i false). eexists. simpl. rewrite Hi. reflexivity. }
    destruct (decide (Pool.Probing ∈ Pool.tasks now)) as [Hin|Hprobing].
    { right. apply list_elem_of_lookup in Hin as [i Hi].
      exists (Pool.Finish i true). eexists. simpl. rewrite Hi. reflexivity. }
    destruct (decide (Pool.Waiting ∈ Pool.tasks now)) as [Hin|Hwaiting].
    { right. apply list_elem_of_lookup in Hin as [i Hi].
      assert (Hzero : Pool.in_flight now = 0).
      { unfold Pool.in_flight.
        destruct (filter _ _) as [|t l] eqn:E; [reflexivity|].
        assert (Ht : t ∈ filter (fun t => t = Pool.Probing) (Pool.tasks now))
          by (rewrite E; left).
        apply list_elem_of_filter in Ht as [-> Ht]. contradiction. }
      exists (Pool.Acquire i). simpl. rewrite Hi.
      destruct (Pool.permits now) as [|k]; [lia|]. eexists. reflexivity. }
    left. intros i t Hi.
    assert (Ht : t ∈ Pool.tasks now) by (apply list_elem_of_lookup; eauto).
    destruct t as [| | | |success]; try contradiction; eauto.
  - intros ->.
    destruct (run_without_permits evs (Pool.init 0 n) now eq_refl
                (init_not_started 0 n) Hrun) as [_ Hall].
    intros i t Hi. exact (proj1 (Forall_lookup _ _) Hall i t Hi).
Qed.

(** X17, after the schedule in which three tasks over two permits have
    started and two of them probe: the third waits, and a probe can finish. *)
Lemma permits_never_deadlock_three_tasks :
  let now := {| Pool.permits := 0;
                Pool.tasks := [Pool.Probing; Pool.Probing; Pool.Waiting] |} in
  (forall i t, Pool.tasks now !! i = Some t ->
               t = Pool.Raised \/ exists success, t = Pool.Done success)
  \/ exists ev next, Pool.fire ev now = Some next.
Proof.
  cbv zeta.
  refine (proj1 (permits_never_deadlock_unless_zero 2 3
                   [Pool.Start 0 false; Pool.Start 1 false; Pool.Start 2 false;
                    Pool.Acquire 0; Pool.Acquire 1] _ eq_refl) _).
  lia.
Defined.

(** ** The refresh merge, repeated *)

(** X18: a refresh that fetches again the URLs of the current rows, in the
    same order, makes one row per current row with that row's URL.  The
    enabled flag, the check-success flag, the check timestamp and the check
    artifact of a current row survive when the current rows with that row's
    URL agree on them; so they all survive when the URLs of the current rows
    are pairwise different.  The error text and the source tag of a check do
    not survive: they are unset in every row that a refresh makes. *)
Theorem refresh_again_keeps_the_state
    (sub_id : option Z) (current : list Channel)
    (channels_data : list Subscriptions.fetched_item) :
  Forall2 (fun c item => url c = Subscriptions.f_url item)
          current channels_data ->
  let rows :=
    (Subscriptions.process_subscription_refresh sub_id current
       channels_data).1 in
  length rows = length current
  /\ (forall k c,
        current !! k = Some c ->
        exists row,
          rows !! k = Some row /\ url row = url c
          /\ check_error row = None /\ check_source row = None
          /\ ((forall c', c' ∈ current -> url c' = url c ->
                 Subscriptions.state_of c' = Subscriptions.state_of c) ->
              is_enabled row = is_enabled c
              /\ check_status row = check_status c
              /\ check_date row = check_date c
              /\ check_image row = check_image c))
  /\ (NoDup (map url current) ->
      map Subscriptions.state_of rows = map Subscriptions.state_of current).
Proof.
  intros HF rows.
  assert (Hrow : forall k c,
            current !! k = Some c ->
            exists item,
              channels_data !! k = Some item
              /\ Subscriptions.f_url item = url c
              /\ rows !! k
                 = Some (Subscriptions.restore sub_id
                           (Subscriptions.channel_states current) item)).
  { intros k c Hk.
    destruct (Forall2_lookup_l _ _ _ _ _ HF Hk) as (item & Hitem & Hu).
    exists item. split; [exact Hitem|]. split; [symmetry; exact Hu|].
    unfold rows, Subscriptions.process_subscription_refresh. simpl fst.
    change (map ?f ?l) with (f <$> l). rewrite list_lookup_fmap, Hitem.
    reflexivity. }
  assert (Hlen : length rows = length current).
  { unfold rows, Subscriptions.process_subscription_refresh. simpl fst.
    rewrite length_map. symmetry. exact (Forall2_length _ _ _ HF). }
  assert (Hstate : forall k c,
            current !! k = Some c ->
            (forall c', c' ∈ current -> url c' = url c ->
               Subscriptions.state_of c' = Subscriptions.state_of c) ->
            Subscriptions.state_of <$> rows !! k
            = Some (Subscriptions.state_of c)).
  { intros k c Hk Hagree.
    destruct (Hrow k c Hk) as (item & _ & Hu & ->). simpl. f_equal.
    unfold Subscriptions.restore, Subscriptions.state_of. simpl.
    rewrite Hu, (channel_states_agree current c); [reflexivity| |exact Hagree].
    apply list_elem_of_lookup. eauto. }
  split; [exact Hlen|]. split.
  - intros k c Hk.
    destruct (Hrow k c Hk) as (item & _ & Hu & Hr).
    eexists. split; [exact Hr|]. split; [exact Hu|].
    split; [reflexivity|]. split; [reflexivity|].
    intros Hagree. pose proof (Hstate k c Hk Hagree) as Hs.
    rewrite Hr in Hs. simpl in Hs. injection Hs as H1 H2 H3 H4.
    repeat split; assumption.
  - intros Hnd. apply list_eq. intros k.
    change (map ?f ?l) with (f <$> l). rewrite !list_lookup_fmap.
    destruct (current !! k) as [c|] eqn:Hk.
    + apply Hstate; [exact Hk|].
      intros c' Hin Hu. apply list_elem_of_lookup in Hin as [j Hj].
      assert (j = k).
      { eapply NoDup_lookup; [exact Hnd| |].
        - change (map ?f ?l) with (f <$> l).
          rewrite list_lookup_fmap, Hj. reflexivity.
        - change (map ?f ?l) with (f <$> l).
          rewrite list_lookup_fmap, Hk. simpl. rewrite Hu. reflexivity. }
      subst j. congruence.
    + apply lookup_ge_None in Hk.
      rewrite (proj2 (lookup_ge_None rows k)); [reflexivity|lia].
Qed.

(** X18, run on two current rows, the first one disabled with a successful
    check on record: both keep their state under the names fetched. *)
Lemma refresh_again_keeps_the_state_of_two_rows :
  map (fun r => (name r, is_enabled r, check_status r, check_date r))
    (Subscriptions.process_subscription_refresh (Some 1%Z)
       [Samples.old_row; Samples.channel 2 "b"]
       [Samples.item "X" "a"; Samples.item "Y" "b"]).1
  = [(py "X", false, Some true, Some 1700000000%Z); (py "Y", true, None, None)]
  /\ map Subscriptions.state_of
       (Subscriptions.process_subscription_refresh (Some 1%Z)
          [Samples.old_row; Samples.channel 2 "b"]
          [Samples.item "X" "a"; Samples.item "Y" "b"]).1
     = map Subscriptions.state_of [Samples.old_row; Samples.channel 2 "b"].
Proof.
  split; [vm_compute; reflexivity|].
  apply (refresh_again_keeps_the_state (Some 1%Z)
           [Samples.old_row; Samples.channel 2 "b"]
           [Samples.item "X" "a"; Samples.item "Y" "b"]).
  - repeat constructor.
  - repeat constructor.
    + intros H. apply list_elem_of_singleton in H. discriminate H.
    + intros H. apply elem_of_nil in H. exact H.
Defined.
